(** * A shallow embedding of the store engine, the composer and the
      middleware enhancer (createStore, compose, applyMiddleware,
      isPlainObject).

    JavaScript values are modelled by the inductive type [Value]; objects
    carry an address (their reference identity), their own data properties
    and their prototype.  Callbacks supplied by the consumer (reducers,
    listeners, middleware) are programs over the store's public interface
    ([prog]); the closure variables of one createStore call, the arrays they
    point to and the closure variable of applyMiddleware make up a [World],
    which every operation threads explicitly.  Listener arrays live in a
    heap and are referred to by index, so that currentListeners and
    nextListeners may refer to one and the same array, as they do in the
    source until the first subscribe or unsubscribe after a dispatch.

    Consumer code may call back into the store, and a listener may
    dispatch, so running it takes fuel: [None] is a computation cut off
    (in JavaScript, one that does not return). *)

From Stdlib Require Import ZArith Lia Bool.
From stdpp Require Import base list strings.

Open Scope string_scope.
Open Scope list_scope.
Set Warnings "-register-all".

(** ** JavaScript values *)

Inductive Value : Type :=
| VUndefined
| VNull
| VBool (b : bool)
| VNum (n : Z)
| VStr (s : string)
| VFun (f : nat)
| VObj (o : Obj)
with Obj : Type :=
| mkObj (addr : nat) (fields : list (string * Value)) (proto : option Obj).

Definition addr_of (o : Obj) : nat := match o with mkObj a _ _ => a end.

(** [Object.getPrototypeOf]; [None] is JavaScript's null. *)
Definition getPrototypeOf (o : Obj) : option Obj :=
  match o with mkObj _ _ p => p end.

(** The typeof operator. *)
Definition typeof (v : Value) : string :=
  match v with
  | VUndefined => "undefined"
  | VNull => "object"
  | VBool _ => "boolean"
  | VNum _ => "number"
  | VStr _ => "string"
  | VFun _ => "function"
  | VObj _ => "object"
  end.

(** Strict equality of two references: the same object. *)
Definition same_ref (a b : Obj) : bool := Nat.eqb (addr_of a) (addr_of b).

(** [x === y] where x may be null and y is an object. *)
Definition strict_eq_proto (x : option Obj) (y : Obj) : bool :=
  match x with
  | None => false
  | Some p => same_ref p y
  end.

Fixpoint assoc (k : string) (fs : list (string * Value)) : option Value :=
  match fs with
  | [] => None
  | (k', v) :: rest => if String.eqb k k' then Some v else assoc k rest
  end.

(** Property read [o.k]: own properties first, then the prototype chain;
    undefined when no object of the chain has the property. *)
Fixpoint obj_get (o : Obj) (k : string) : Value :=
  match o with
  | mkObj _ fs p =>
      match assoc k fs with
      | Some v => v
      | None => match p with
                | Some q => obj_get q k
                | None => VUndefined
                end
      end
  end.

(** ** utils/isPlainObject *)

(** The while loop: walk up until an object whose prototype is null. *)
Fixpoint isPlainObject_loop (proto : Obj) : Obj :=
  match proto with
  | mkObj _ _ None => proto
  | mkObj _ _ (Some q) => isPlainObject_loop q
  end.

Definition isPlainObject (obj : Value) : bool :=
  match obj with
  | VObj o =>
      let proto := isPlainObject_loop o in
      strict_eq_proto (getPrototypeOf o) proto
  | _ => false   (* typeof obj !== 'object' || obj === null *)
  end.

(** The addresses met along a prototype chain, the object's own first. *)
Fixpoint chain_addrs (o : Obj) : list nat :=
  match o with
  | mkObj a _ None => [a]
  | mkObj a _ (Some q) => a :: chain_addrs q
  end.

(** [Object.prototype]; its own properties are methods, none of them is
    named type, and they are left out. *)
Definition Object_prototype : Obj := mkObj 0 [] None.

(** An object literal [{ k1: v1, ... }] allocated at address [a]. *)
Definition object_literal (a : nat) (fs : list (string * Value)) : Value :=
  VObj (mkObj a fs (Some Object_prototype)).

(** ** Errors *)

(** One constructor per throw statement of the sources, one for calling
    something that is not a function, one for what consumer code throws. *)
Inductive Error : Type :=
| E_several_enhancers            (* createStore: several store enhancers *)
| E_enhancer_not_function        (* createStore: Expected the enhancer to be a function *)
| E_reducer_not_function         (* createStore: Expected the reducer to be a function *)
| E_getState_while_dispatching   (* getState *)
| E_listener_not_function        (* subscribe *)
| E_subscribe_while_dispatching  (* subscribe *)
| E_unsubscribe_while_dispatching (* unsubscribe *)
| E_action_not_plain             (* dispatch: Actions must be plain objects *)
| E_action_type_undefined        (* dispatch: undefined type property *)
| E_reducers_may_not_dispatch    (* dispatch *)
| E_nextReducer_not_function     (* replaceReducer *)
| E_dispatch_while_constructing  (* applyMiddleware: placeholder dispatch *)
| E_not_a_function               (* TypeError: calling what is not a function *)
| E_user (payload : Value).      (* thrown by consumer code *)

(** The taxonomy of the specification. *)
Inductive ErrorKind : Type :=
| InvalidArgument | InvalidAction | IllegalStateAccess | PrematureDispatch.

Definition kind_of (e : Error) : option ErrorKind :=
  match e with
  | E_several_enhancers | E_enhancer_not_function | E_reducer_not_function
  | E_listener_not_function | E_nextReducer_not_function => Some InvalidArgument
  | E_action_not_plain | E_action_type_undefined => Some InvalidAction
  | E_getState_while_dispatching | E_subscribe_while_dispatching
  | E_unsubscribe_while_dispatching | E_reducers_may_not_dispatch =>
      Some IllegalStateAccess
  | E_dispatch_while_constructing => Some PrematureDispatch
  | E_not_a_function | E_user _ => None
  end.

(** The outcome of a call: a returned value or a thrown error. *)
Inductive res (A : Type) : Type :=
| Ok (a : A)
| Err (e : Error).
Arguments Ok {A} a.
Arguments Err {A} e.

(** ** Consumer code *)

(** A consumer callback is a finite program over the store's interface.
    Each call node names the member called and continues with the call's
    outcome, so the callback may catch the error ([k (Err e)] goes on) or
    let it propagate ([k (Err e) = Throw e]). *)
Inductive prog (R : Type) : Type :=
| Ret (r : R)
| Throw (e : Error)
| GetState (k : res Value -> prog R)                         (* store.getState() *)
| Subscribe (listener : Value) (k : res nat -> prog R)       (* store.subscribe(listener) *)
| Unsubscribe (handle : nat) (k : res unit -> prog R)        (* the function subscribe returned *)
| Dispatch (action : Value) (k : res Value -> prog R)        (* store.dispatch(action) *)
| ReplaceReducer (nextReducer : Value) (k : res unit -> prog R)
| ApiDispatch (args : list Value) (k : res Value -> prog R). (* middlewareAPI.dispatch(...args) *)
Arguments Ret {R} r.
Arguments Throw {R} e.
Arguments GetState {R} k.
Arguments Subscribe {R} listener k.
Arguments Unsubscribe {R} handle k.
Arguments Dispatch {R} action k.
Arguments ReplaceReducer {R} nextReducer k.
Arguments ApiDispatch {R} args k.

(** Return the outcome of a call as one's own: an error propagates. *)
Definition finish {R : Type} (r : res R) : prog R :=
  match r with
  | Ok v => Ret v
  | Err e => Throw e
  end.

(** [p] followed by [k] on its outcome (a call of the function whose body
    is [p], inside try/catch when [k] handles [Err]). *)
Fixpoint try_bind {A B : Type} (p : prog A) (k : res A -> prog B) : prog B :=
  match p with
  | Ret r => k (Ok r)
  | Throw e => k (Err e)
  | GetState k' => GetState (fun r => try_bind (k' r) k)
  | Subscribe l k' => Subscribe l (fun r => try_bind (k' r) k)
  | Unsubscribe h k' => Unsubscribe h (fun r => try_bind (k' r) k)
  | Dispatch a k' => Dispatch a (fun r => try_bind (k' r) k)
  | ReplaceReducer f k' => ReplaceReducer f (fun r => try_bind (k' r) k)
  | ApiDispatch a k' => ApiDispatch a (fun r => try_bind (k' r) k)
  end.

(** Sequencing where an error of [p] propagates. *)
Definition bind {A B : Type} (p : prog A) (k : A -> prog B) : prog B :=
  try_bind p (fun r => match r with Ok a => k a | Err e => Throw e end).

(** A dispatch function: called with an argument list, it runs a program. *)
Definition DispatchFn : Type := list Value -> prog Value.

(** The first argument of a call, undefined when there is none. *)
Definition arg0 (args : list Value) : Value := nth 0 args VUndefined.

(** ** The world: closure variables and the arrays they refer to *)

Record World : Type := mkWorld {
  (* closure variables of createStore *)
  currentReducer : nat;                 (* the reducer, a function value *)
  currentState : Value;
  currentListeners : nat;               (* reference to an array *)
  nextListeners : nat;                  (* reference to an array *)
  isDispatching : bool;
  (* the arrays of listeners allocated so far; a reference is an index *)
  arrays : list (list nat);
  (* one entry per call of subscribe: the listener it captured and its
     isSubscribed variable; the unsubscribe function is the entry's index *)
  subscriptions : list (nat * bool);
  (* closure variable [dispatch] of applyMiddleware, once it is declared *)
  mw_dispatch : option DispatchFn;
  (* next free object address *)
  next_addr : nat;
  (* history variables (not in the source): the listeners called so far by
     the notification loop, and the actions whose transition was carried
     out, most recent last *)
  invoked : list nat;
  dispatched : list Value
}.

Definition set_currentReducer (f : nat) (w : World) : World :=
  mkWorld f (currentState w) (currentListeners w) (nextListeners w)
    (isDispatching w) (arrays w) (subscriptions w) (mw_dispatch w)
    (next_addr w) (invoked w) (dispatched w).
Definition set_currentState (v : Value) (w : World) : World :=
  mkWorld (currentReducer w) v (currentListeners w) (nextListeners w)
    (isDispatching w) (arrays w) (subscriptions w) (mw_dispatch w)
    (next_addr w) (invoked w) (dispatched w).
Definition set_currentListeners (r : nat) (w : World) : World :=
  mkWorld (currentReducer w) (currentState w) r (nextListeners w)
    (isDispatching w) (arrays w) (subscriptions w) (mw_dispatch w)
    (next_addr w) (invoked w) (dispatched w).
Definition set_nextListeners (r : nat) (w : World) : World :=
  mkWorld (currentReducer w) (currentState w) (currentListeners w) r
    (isDispatching w) (arrays w) (subscriptions w) (mw_dispatch w)
    (next_addr w) (invoked w) (dispatched w).
Definition set_isDispatching (b : bool) (w : World) : World :=
  mkWorld (currentReducer w) (currentState w) (currentListeners w)
    (nextListeners w) b (arrays w) (subscriptions w) (mw_dispatch w)
    (next_addr w) (invoked w) (dispatched w).
Definition set_arrays (h : list (list nat)) (w : World) : World :=
  mkWorld (currentReducer w) (currentState w) (currentListeners w)
    (nextListeners w) (isDispatching w) h (subscriptions w) (mw_dispatch w)
    (next_addr w) (invoked w) (dispatched w).
Definition set_subscriptions (s : list (nat * bool)) (w : World) : World :=
  mkWorld (currentReducer w) (currentState w) (currentListeners w)
    (nextListeners w) (isDispatching w) (arrays w) s (mw_dispatch w)
    (next_addr w) (invoked w) (dispatched w).
Definition set_mw_dispatch (d : option DispatchFn) (w : World) : World :=
  mkWorld (currentReducer w) (currentState w) (currentListeners w)
    (nextListeners w) (isDispatching w) (arrays w) (subscriptions w) d
    (next_addr w) (invoked w) (dispatched w).
Definition set_next_addr (a : nat) (w : World) : World :=
  mkWorld (currentReducer w) (currentState w) (currentListeners w)
    (nextListeners w) (isDispatching w) (arrays w) (subscriptions w)
    (mw_dispatch w) a (invoked w) (dispatched w).
Definition set_invoked (l : list nat) (w : World) : World :=
  mkWorld (currentReducer w) (currentState w) (currentListeners w)
    (nextListeners w) (isDispatching w) (arrays w) (subscriptions w)
    (mw_dispatch w) (next_addr w) l (dispatched w).
Definition set_dispatched (l : list Value) (w : World) : World :=
  mkWorld (currentReducer w) (currentState w) (currentListeners w)
    (nextListeners w) (isDispatching w) (arrays w) (subscriptions w)
    (mw_dispatch w) (next_addr w) (invoked w) l.

(** The array a reference points to. *)
Definition deref (w : World) (r : nat) : list nat :=
  default [] (arrays w !! r).

(** ** Array methods used by the store *)

(** [arr.indexOf(x)]: the first index holding [x], or -1. *)
Fixpoint indexOf (x : nat) (arr : list nat) : Z :=
  match arr with
  | [] => (-1)%Z
  | y :: rest =>
      if Nat.eqb y x then 0%Z
      else let i := indexOf x rest in
           if (i <? 0)%Z then (-1)%Z else (i + 1)%Z
  end.

(** [arr.splice(start, 1)]: a negative start counts from the end, and the
    start is clamped to the array; at most one element is removed. *)
Definition splice1 (start : Z) (arr : list nat) : list nat :=
  let len := Z.of_nat (length arr) in
  let actualStart :=
    if (start <? 0)%Z then Z.max (len + start) 0 else Z.min start len in
  delete (Z.to_nat actualStart) arr.

(** ** Store operations that call no consumer code *)

(** ensureCanMutateNextListeners: copy the array when both variables refer
    to the same one. *)
Definition ensureCanMutateNextListeners (w : World) : World :=
  if Nat.eqb (nextListeners w) (currentListeners w) then
    let copy := deref w (currentListeners w) in          (* slice() *)
    set_nextListeners (length (arrays w)) (set_arrays (arrays w ++ [copy]) w)
  else w.

Definition getState (w : World) : res Value :=
  if isDispatching w then Err E_getState_while_dispatching
  else Ok (currentState w).

Definition subscribe (listener : Value) (w : World) : res nat * World :=
  match listener with
  | VFun f =>
      if isDispatching w then (Err E_subscribe_while_dispatching, w)
      else
        let w1 := ensureCanMutateNextListeners w in
        let w2 := set_arrays
                    (<[nextListeners w1 := deref w1 (nextListeners w1) ++ [f]]>
                       (arrays w1)) w1 in                (* push(listener) *)
        let handle := length (subscriptions w2) in
        (Ok handle, set_subscriptions (subscriptions w2 ++ [(f, true)]) w2)
  | _ => (Err E_listener_not_function, w)   (* typeof listener !== 'function' *)
  end.

Definition unsubscribe (handle : nat) (w : World) : res unit * World :=
  match subscriptions w !! handle with
  | None => (Err E_not_a_function, w)       (* no such function was returned *)
  | Some (listener, isSubscribed) =>
      if negb isSubscribed then (Ok tt, w)
      else if isDispatching w then (Err E_unsubscribe_while_dispatching, w)
      else
        let w1 := set_subscriptions
                    (<[handle := (listener, false)]> (subscriptions w)) w in
        let w2 := ensureCanMutateNextListeners w1 in
        let index := indexOf listener (deref w2 (nextListeners w2)) in
        (Ok tt,
         set_arrays
           (<[nextListeners w2 := splice1 index (deref w2 (nextListeners w2))]>
              (arrays w2)) w2)
  end.

(** Property read on a value; only objects carry properties here. *)
Definition get (v : Value) (k : string) : Value :=
  match v with
  | VObj o => obj_get o k
  | _ => VUndefined
  end.

Definition is_function (v : Value) : bool := String.eqb (typeof v) "function".
Definition is_undefined (v : Value) : bool := String.eqb (typeof v) "undefined".

(** Evaluate an object literal: a new plain object at the next free address. *)
Definition alloc_literal (fs : list (string * Value)) (w : World) : Value * World :=
  (object_literal (next_addr w) fs, set_next_addr (S (next_addr w)) w).

(** ** compose *)

Section Compose.
(** The functions composed take an argument list and return a value of
    the type [V] of their arguments; [undefined] is what a parameter
    reads when the argument is missing. *)
Context {V : Type} (undefined : V).

Definition compose (funcs : list (list V -> V)) : list V -> V :=
  match funcs with
  | [] => fun args => nth 0 args undefined          (* arg => arg *)
  | [f] => f                                        (* funcs[0] *)
  | f :: rest =>                                    (* funcs.reduce(...) *)
      fold_left (fun a b => fun args => a [b args]) rest f
  end.
End Compose.

(** ** The store engine *)

(** What createStore returns: the members of the store object (the
    observable member is left out). *)
Record StoreObj : Type := mkStoreObj {
  so_dispatch : DispatchFn;
  so_subscribe : Value -> prog nat;
  so_getState : prog Value;
  so_replaceReducer : Value -> prog unit
}.

(** The object createStore builds at its end: each member is the store's
    own function. *)
Definition base_store : StoreObj :=
  {| so_dispatch := fun args => Dispatch (arg0 args) finish;
     so_subscribe := fun listener => Subscribe listener finish;
     so_getState := GetState finish;
     so_replaceReducer := fun nextReducer => ReplaceReducer nextReducer finish |}.

(** A store creator, called with its argument list. *)
Definition StoreCreator : Type :=
  list Value -> World -> option (res StoreObj * World).

(** What a middleware receives, what it returns. *)
Record MiddlewareAPI : Type := mkMiddlewareAPI {
  api_getState : prog Value;
  api_dispatch : DispatchFn
}.
Definition Interceptor : Type := DispatchFn -> prog DispatchFn.
Definition Middleware : Type := MiddlewareAPI -> prog Interceptor.

Section Engine.
(** The body of every function value that is called as a reducer (with
    the state and the action) or as a listener (with no argument). *)
Variable fn : nat -> list Value -> prog Value.
(** utils/actionTypes: the two reserved action types. *)
Variable ActionTypes_INIT ActionTypes_REPLACE : string.

Section WithExec.
(** How consumer code is run; [None] stands for a computation that was
    cut off. *)
Variable exec : forall R : Type, prog R -> World -> option (res R * World).

(** The for loop of dispatch: [listeners] refers to the array,
    [i] is the loop index; the array is read anew at each turn. *)
Fixpoint notify (fuel : nat) (listeners : nat) (i : nat) (w : World)
  : option (res unit * World) :=
  match fuel with
  | 0 => None
  | S fuel' =>
      let arr := deref w listeners in
      if Nat.ltb i (length arr) then
        let listener := nth i arr 0 in
        match exec Value (fn listener [])
                (set_invoked (invoked w ++ [listener]) w) with
        | None => None
        | Some (Err e, w') => Some (Err e, w')
        | Some (Ok _, w') => notify fuel' listeners (S i) w'
        end
      else Some (Ok tt, w)
  end.

Definition dispatch_with (fuel : nat) (action : Value) (w : World)
  : option (res Value * World) :=
  if negb (isPlainObject action) then Some (Err E_action_not_plain, w)
  else if is_undefined (get action "type") then
    Some (Err E_action_type_undefined, w)
  else if isDispatching w then Some (Err E_reducers_may_not_dispatch, w)
  else
    let w1 := set_isDispatching true w in
    match exec Value (fn (currentReducer w1) [currentState w1; action]) w1 with
    | None => None
    | Some (Err e, w2) =>
        Some (Err e, set_isDispatching false w2)          (* finally *)
    | Some (Ok v, w2) =>
        let w3 := set_isDispatching false (set_currentState v w2) in
        let w4 := set_currentListeners (nextListeners w3) w3 in
        let listeners := currentListeners w4 in
        (* history: the transition for this action was carried out *)
        let w4 := set_dispatched (dispatched w4 ++ [action]) w4 in
        match notify fuel listeners 0 w4 with
        | None => None
        | Some (Err e, w5) => Some (Err e, w5)
        | Some (Ok _, w5) => Some (Ok action, w5)
        end
    end.

Definition replaceReducer_with (fuel : nat) (nextReducer : Value) (w : World)
  : option (res unit * World) :=
  match nextReducer with
  | VFun f =>
      let w1 := set_currentReducer f w in
      let (action, w2) :=
        alloc_literal [("type", VStr ActionTypes_REPLACE)] w1 in
      match dispatch_with fuel action w2 with
      | None => None
      | Some (Err e, w3) => Some (Err e, w3)
      | Some (Ok _, w3) => Some (Ok tt, w3)
      end
  | _ => Some (Err E_nextReducer_not_function, w)
  end.
End WithExec.

(** Running consumer code: every call node is answered by the store. *)
Fixpoint run (fuel : nat) (R : Type) (p : prog R) (w : World) {struct fuel}
  : option (res R * World) :=
  match fuel with
  | 0 => None
  | S fuel' =>
      match p with
      | Ret r => Some (Ok r, w)
      | Throw e => Some (Err e, w)
      | GetState k => run fuel' R (k (getState w)) w
      | Subscribe listener k =>
          let (r, w') := subscribe listener w in run fuel' R (k r) w'
      | Unsubscribe handle k =>
          let (r, w') := unsubscribe handle w in run fuel' R (k r) w'
      | Dispatch action k =>
          match dispatch_with (run fuel') fuel' action w with
          | None => None
          | Some (r, w') => run fuel' R (k r) w'
          end
      | ReplaceReducer nextReducer k =>
          match replaceReducer_with (run fuel') fuel' nextReducer w with
          | None => None
          | Some (r, w') => run fuel' R (k r) w'
          end
      | ApiDispatch args k =>
          (* (...args) => dispatch(...args): the variable is read now *)
          match mw_dispatch w with
          | None => run fuel' R (k (Err E_not_a_function)) w
          | Some d => run fuel' R (try_bind (d args) k) w
          end
      end
  end.

(** The store's dispatch and replaceReducer, called from outside. *)
Definition dispatch (fuel : nat) : Value -> World -> option (res Value * World) :=
  dispatch_with (run fuel) fuel.
Definition replaceReducer (fuel : nat) : Value -> World -> option (res unit * World) :=
  replaceReducer_with (run fuel) fuel.

(** ** createStore *)

(** The enhancer each function value stands for when it is passed as one. *)
Variable enhancers : nat -> StoreCreator -> StoreCreator.

(** The closure variables as createStore initialises them: one empty
    array, which both currentListeners and nextListeners refer to.  The
    world holds one store, so creating a store starts again from these. *)
Definition fresh_store (reducer : nat) (preloadedState : Value) (w : World) : World :=
  {| currentReducer := reducer;
     currentState := preloadedState;
     currentListeners := 0;
     nextListeners := 0;
     isDispatching := false;
     arrays := [[]];
     subscriptions := [];
     mw_dispatch := mw_dispatch w;
     next_addr := next_addr w;
     invoked := [];
     dispatched := [] |}.

(** The body of createStore; [self] is createStore itself, as the body
    passes it to the enhancer. *)
Definition createStore_body (self : StoreCreator) (fuel : nat) : StoreCreator :=
  fun args w =>
    let reducer := nth 0 args VUndefined in
    let preloadedState := nth 1 args VUndefined in
    let enhancer := nth 2 args VUndefined in
    let arguments3 := nth 3 args VUndefined in
    if (is_function preloadedState && is_function enhancer)
       || (is_function enhancer && is_function arguments3)
    then Some (Err E_several_enhancers, w)
    else
      let '(enhancer, preloadedState) :=
        if is_function preloadedState && is_undefined enhancer
        then (preloadedState, VUndefined)
        else (enhancer, preloadedState) in
      if negb (is_undefined enhancer) then
        match enhancer with
        | VFun e => enhancers e self [reducer; preloadedState] w
        | _ => Some (Err E_enhancer_not_function, w)
        end
      else
        match reducer with
        | VFun r =>
            let w0 := fresh_store r preloadedState w in
            let (action, w1) :=
              alloc_literal [("type", VStr ActionTypes_INIT)] w0 in
            match dispatch fuel action w1 with
            | None => None
            | Some (Err e, w2) => Some (Err e, w2)
            | Some (Ok _, w2) => Some (Ok base_store, w2)
            end
        | _ => Some (Err E_reducer_not_function, w)
        end.

Fixpoint createStore (fuel : nat) : StoreCreator :=
  match fuel with
  | 0 => fun _ _ => None
  | S fuel' => createStore_body (createStore fuel') fuel'
  end.

(** ** applyMiddleware *)

(** The function applyMiddleware first binds to its variable dispatch. *)
Definition placeholder_dispatch : DispatchFn :=
  fun _ => Throw E_dispatch_while_constructing.

(** What a parameter of function type reads when no argument is passed:
    undefined, whose call is a TypeError. *)
Definition undefined_dispatch : DispatchFn := fun _ => Throw E_not_a_function.

(** The call [f(next)] of a function of one parameter: the argument is
    evaluated, then the function is called with its value. *)
Definition call1 (f : Interceptor) : list (prog DispatchFn) -> prog DispatchFn :=
  fun args => bind (nth 0 args (Ret undefined_dispatch)) f.

(** [compose(...chain)(store.dispatch)] *)
Definition compose_chain (chain : list Interceptor) (next : DispatchFn)
  : prog DispatchFn :=
  compose (Ret undefined_dispatch) (map call1 chain) [Ret next].

(** [middlewares.map(middleware => middleware(middlewareAPI))] *)
Fixpoint map_middlewares (fuel : nat) (middlewares : list Middleware)
    (middlewareAPI : MiddlewareAPI) (w : World)
  : option (res (list Interceptor) * World) :=
  match middlewares with
  | [] => Some (Ok [], w)
  | middleware :: rest =>
      match run fuel Interceptor (middleware middlewareAPI) w with
      | None => None
      | Some (Err e, w') => Some (Err e, w')
      | Some (Ok i, w') =>
          match map_middlewares fuel rest middlewareAPI w' with
          | None => None
          | Some (Err e, w'') => Some (Err e, w'')
          | Some (Ok chain, w'') => Some (Ok (i :: chain), w'')
          end
      end
  end.

(** The object [middlewareAPI]: the store's getState, and a function that
    calls whatever the variable dispatch holds when it is called. *)
Definition middlewareAPI_of (store : StoreObj) : MiddlewareAPI :=
  {| api_getState := so_getState store;
     api_dispatch := fun args => ApiDispatch args finish |}.

(** [{ ...store, dispatch }] *)
Definition with_dispatch (store : StoreObj) (dispatch : DispatchFn) : StoreObj :=
  {| so_dispatch := dispatch;
     so_subscribe := so_subscribe store;
     so_getState := so_getState store;
     so_replaceReducer := so_replaceReducer store |}.

(** The two lines between the declaration of middlewareAPI and the
    assignment to dispatch: the middleware are called, then the chain is
    composed and called with store.dispatch. *)
Definition build_dispatch (fuel : nat) (middlewares : list Middleware)
    (middlewareAPI : MiddlewareAPI) (next : DispatchFn) (w : World)
  : option (res DispatchFn * World) :=
  match map_middlewares fuel middlewares middlewareAPI w with
  | None => None
  | Some (Err e, w') => Some (Err e, w')
  | Some (Ok chain, w') => run fuel DispatchFn (compose_chain chain next) w'
  end.

Definition applyMiddleware (fuel : nat) (middlewares : list Middleware)
  : StoreCreator -> StoreCreator :=
  fun createStore args w =>
    match createStore args w with
    | None => None
    | Some (Err e, w1) => Some (Err e, w1)
    | Some (Ok store, w1) =>
        let w2 := set_mw_dispatch (Some placeholder_dispatch) w1 in
        let middlewareAPI := middlewareAPI_of store in
        match build_dispatch fuel middlewares middlewareAPI
                (so_dispatch store) w2 with
        | None => None
        | Some (Err e, w3) => Some (Err e, w3)
        | Some (Ok dispatch, w3) =>
            Some (Ok (with_dispatch store dispatch),
                  set_mw_dispatch (Some dispatch) w3)
        end
    end.
End Engine.

(** * Vocabulary of the statements *)

(** Induction along a prototype chain. *)
Fixpoint Obj_chain_ind (P : Obj -> Prop)
    (Hroot : forall a fs, P (mkObj a fs None))
    (Hstep : forall a fs q, P q -> P (mkObj a fs (Some q)))
    (o : Obj) : P o :=
  match o with
  | mkObj a fs None => Hroot a fs
  | mkObj a fs (Some q) => Hstep a fs q (Obj_chain_ind P Hroot Hstep q)
  end.

(** No property named [k] on any object of the chain. *)
Fixpoint absent (k : string) (o : Obj) : Prop :=
  match o with
  | mkObj _ fs p =>
      assoc k fs = None /\
      match p with
      | Some q => absent k q
      | None => True
      end
  end.

(** The world in which the listeners are notified, after the reducer
    returned [v] for [action] in world [w2]. *)
Definition committed (action v : Value) (w2 : World) : World :=
  let w3 := set_isDispatching false (set_currentState v w2) in
  let w4 := set_currentListeners (nextListeners w3) w3 in
  set_dispatched (dispatched w4 ++ [action]) w4.

(** Two worlds that differ at most in currentReducer and in the next free
    address. *)
Definition same_but_reducer (w w' : World) : Prop :=
  currentState w' = currentState w /\
  currentListeners w' = currentListeners w /\
  nextListeners w' = nextListeners w /\
  isDispatching w' = isDispatching w /\
  arrays w' = arrays w /\
  subscriptions w' = subscriptions w /\
  mw_dispatch w' = mw_dispatch w /\
  invoked w' = invoked w /\
  dispatched w' = dispatched w.

(** A property of worlds that every elementary change made by the store
    keeps. *)
Record closed (P : World -> Prop) : Prop := mkClosed {
  closed_subscribe : forall listener w r w',
    P w -> subscribe listener w = (r, w') -> P w';
  closed_unsubscribe : forall handle w r w',
    P w -> unsubscribe handle w = (r, w') -> P w';
  closed_begin : forall w,
    P w -> isDispatching w = false -> P (set_isDispatching true w);
  closed_abort : forall w,
    P w -> isDispatching w = true -> P (set_isDispatching false w);
  closed_commit : forall w action v,
    P w -> isDispatching w = true -> P (committed action v w);
  closed_invoke : forall w listener,
    P w -> isDispatching w = false ->
    P (set_invoked (invoked w ++ [listener]) w);
  closed_replace : forall w f,
    P w -> P (set_next_addr (S (next_addr w)) (set_currentReducer f w))
}.

(** [exec] keeps the property [P] of worlds, and the flag. *)
Definition keeps (P : World -> Prop)
    (exec : forall R : Type, prog R -> World -> option (res R * World)) : Prop :=
  forall R (p : prog R) w r w',
    P w -> exec R p w = Some (r, w') ->
    P w' /\ isDispatching w' = isDispatching w.

(** The pending and the committed sequence of listeners. *)
Definition pending (w : World) : list nat := deref w (nextListeners w).
Definition committed_listeners (w : World) : list nat :=
  deref w (currentListeners w).

(** Both listener variables refer to an array. *)
Definition valid_refs (w : World) : Prop :=
  nextListeners w < length (arrays w) /\ currentListeners w < length (arrays w).

(** The array at [A] holds [arr] and cannot be written to: a write goes to
    the array nextListeners refers to, after ensureCanMutateNextListeners
    has replaced it by a copy when currentListeners refers to it too. *)
Definition protected (A : nat) (arr : list nat) (w : World) : Prop :=
  arrays w !! A = Some arr /\
  (nextListeners w = A -> currentListeners w = A).

(** The number of subscribe calls for [l] whose isSubscribed is still true. *)
Definition live (l : nat) (subs : list (nat * bool)) : nat :=
  length (filter (fun e => e = (l, true)) subs).

(** The first occurrence of [l] removed. *)
Fixpoint remove_first (l : nat) (arr : list nat) : list nat :=
  match arr with
  | [] => []
  | x :: rest => if Nat.eqb x l then rest else x :: remove_first l rest
  end.

(** A well-formed world: the references are valid, and the pending
    sequence holds each listener once per live subscription. *)
Definition well_formed (w : World) : Prop :=
  valid_refs w /\
  forall l, count_occ Nat.eq_dec (pending w) l = live l (subscriptions w).

(** What holds of a store with reducer [r] between two steps of a session. *)
Definition steady (r : nat) (w : World) : Prop :=
  well_formed w /\ isDispatching w = false /\ currentReducer w = r.

(** Consumer code that only reads the state, subscribes and unsubscribes. *)
Inductive quiet {R : Type} : prog R -> Prop :=
| quiet_Ret r : quiet (Ret r)
| quiet_Throw e : quiet (Throw e)
| quiet_GetState k : (forall r, quiet (k r)) -> quiet (GetState k)
| quiet_Subscribe l k : (forall r, quiet (k r)) -> quiet (Subscribe l k)
| quiet_Unsubscribe h k : (forall r, quiet (k r)) -> quiet (Unsubscribe h k).

(** Consumer code that does not replace the reducer and is not given the
    middlewareAPI: it may read the state, subscribe, unsubscribe and
    dispatch. *)
Inductive no_replace {R : Type} : prog R -> Prop :=
| no_replace_Ret r : no_replace (Ret r)
| no_replace_Throw e : no_replace (Throw e)
| no_replace_GetState k : (forall r, no_replace (k r)) -> no_replace (GetState k)
| no_replace_Subscribe l k :
    (forall r, no_replace (k r)) -> no_replace (Subscribe l k)
| no_replace_Unsubscribe h k :
    (forall r, no_replace (k r)) -> no_replace (Unsubscribe h k)
| no_replace_Dispatch a k :
    (forall r, no_replace (k r)) -> no_replace (Dispatch a k).

(** From [w] to [w'] some actions were dispatched, and the state is the
    fold of [f] over them. *)
Definition folds (f : Value -> Value -> Value) (w w' : World) : Prop :=
  exists acts,
    dispatched w' = dispatched w ++ acts /\
    currentState w' = fold_left f acts (currentState w).

(** The store is idle and its reducer is [r]. *)
Definition idle_with (r : nat) (w : World) : Prop :=
  isDispatching w = false /\ currentReducer w = r.

Section Rounds.
Variable fn : nat -> list Value -> prog Value.
Variable ActionTypes_REPLACE : string.
Variable exec : forall R : Type, prog R -> World -> option (res R * World).

(** Calling, in order, each listener of a sequence fixed beforehand; the
    fuel is spent as the loop of dispatch spends it. *)
Fixpoint invoke_snapshot (fuel : nat) (snapshot : list nat) (w : World)
  : option (res unit * World) :=
  match fuel with
  | 0 => None
  | S fuel' =>
      match snapshot with
      | [] => Some (Ok tt, w)
      | listener :: rest =>
          match exec Value (fn listener [])
                  (set_invoked (invoked w ++ [listener]) w) with
          | None => None
          | Some (Err e, w') => Some (Err e, w')
          | Some (Ok _, w') => invoke_snapshot fuel' rest w'
          end
      end
  end.

(** A round as the specification words it: the listeners notified are
    those of the pending sequence as it stood when the round started. *)
Definition dispatch_snapshot (fuel : nat) (action : Value) (w : World)
  : option (res Value * World) :=
  let snapshot := pending w in
  if negb (isPlainObject action) then Some (Err E_action_not_plain, w)
  else if is_undefined (get action "type") then
    Some (Err E_action_type_undefined, w)
  else if isDispatching w then Some (Err E_reducers_may_not_dispatch, w)
  else
    let w1 := set_isDispatching true w in
    match exec Value (fn (currentReducer w1) [currentState w1; action]) w1 with
    | None => None
    | Some (Err e, w2) => Some (Err e, set_isDispatching false w2)
    | Some (Ok v, w2) =>
        match invoke_snapshot fuel snapshot (committed action v w2) with
        | None => None
        | Some (Err e, w5) => Some (Err e, w5)
        | Some (Ok _, w5) => Some (Ok action, w5)
        end
    end.
End Rounds.

(** A session of a client: before each dispatch, some code of its own. *)
Fixpoint dispatch_all (fn : nat -> list Value -> prog Value)
    (ActionTypes_REPLACE : string) (fuel : nat)
    (steps : list (prog unit * Value)) (w : World) : option (res unit * World) :=
  match steps with
  | [] => Some (Ok tt, w)
  | (code, action) :: rest =>
      match run fn ActionTypes_REPLACE fuel unit code w with
      | None => None
      | Some (_, w1) =>
          match dispatch fn ActionTypes_REPLACE fuel action w1 with
          | None => None
          | Some (Err e, w2) => Some (Err e, w2)
          | Some (Ok _, w2) => dispatch_all fn ActionTypes_REPLACE fuel rest w2
          end
      end
  end.

(** * The chain builder as the specification words it *)

Section Setup.
Variable fn : nat -> list Value -> prog Value.
Variable ActionTypes_REPLACE : string.



End Setup.

(** * The observable member of the store *)

(** ToBoolean, for the values of the model. *)
Definition truthy (v : Value) : bool :=
  match v with
  | VUndefined | VNull => false
  | VBool b => b
  | VNum n => negb (n =? 0)%Z
  | VStr s => negb (String.eqb s "")
  | VFun _ | VObj _ => true
  end.

(** The TypeError of the observable's subscribe; it is none of the
    store's errors. *)
Inductive ObserverError : Type :=
| E_observer_not_object.   (* Expected the observer to be an object. *)

Section Observable.
Variable fn : nat -> list Value -> prog Value.

(** The body of the function observeState declared by
    [subscribe(observer)].  In [observer.next(getState())] the argument is
    evaluated before the callee is found not to be a function; the
    receiver of the call is not modelled. *)
Definition observeState (observer : Value) : prog Value :=
  if truthy (get observer "next") then
    GetState (fun state =>
      match state with
      | Err e => Throw e
      | Ok s =>
          match get observer "next" with
          | VFun next => bind (fn next [s]) (fun _ => Ret VUndefined)
          | _ => Throw E_not_a_function
          end
      end)
  else Ret VUndefined.

(** [subscribe(observer)] of the object observable() returns:
    [observeState_fn] is the function value the declaration of
    observeState makes, and the unsubscribe function returned stands for
    the object [{ unsubscribe }]. *)
Definition observable_subscribe (observeState_fn : nat) (observer : Value)
  : ObserverError + prog nat :=
  if negb (String.eqb (typeof observer) "object")
     || match observer with VNull => true | _ => false end
  then inl E_observer_not_object
  else inr (bind (observeState observer)                   (* observeState() *)
              (fun _ => Subscribe (VFun observeState_fn) finish)).
End Observable.

(** * Vocabulary of the further properties *)

(** A middleware of the usual shape [api => next => action => ...]: its
    two outer calls only build the function [g api next]. *)
Definition plain_middleware (g : MiddlewareAPI -> DispatchFn -> DispatchFn)
  : Middleware :=
  fun api => Ret (fun next => Ret (g api next)).

(** [g1 (g2 (... (gn next)))], each [g] given the middlewareAPI. *)
Definition layered (api : MiddlewareAPI)
    (gs : list (MiddlewareAPI -> DispatchFn -> DispatchFn)) (next : DispatchFn)
  : DispatchFn :=
  fold_right (fun g d => g api d) next gs.

(** Both listener variables refer to one array: the next write to the
    pending sequence is preceded by a copy. *)
Definition aliased (w : World) : bool :=
  Nat.eqb (nextListeners w) (currentListeners w).

(** What a call of subscribe or unsubscribe that went through leaves: the
    two variables on different arrays, the array copied if they were on
    the same one, and the committed sequence as it was. *)
Definition wrote (w w' : World) : Prop :=
  aliased w' = false /\
  length (arrays w') = length (arrays w) + (if aliased w then 1 else 0) /\
  currentListeners w' = currentListeners w /\
  committed_listeners w' = committed_listeners w /\
  valid_refs w'.

(** The arrays and both listener variables are the same in both worlds. *)
Definition untouched (w w' : World) : Prop :=
  arrays w' = arrays w /\
  nextListeners w' = nextListeners w /\
  currentListeners w' = currentListeners w.

(** [p'] is [p] followed by [k] on its outcome. *)
Inductive followed {A B : Type} (k : res A -> prog B)
  : prog A -> prog B -> Prop :=
| followed_Ret r : followed k (Ret r) (k (Ok r))
| followed_Throw e : followed k (Throw e) (k (Err e))
| followed_GetState k1 k2 :
    (forall r, followed k (k1 r) (k2 r)) ->
    followed k (GetState k1) (GetState k2)
| followed_Subscribe l k1 k2 :
    (forall r, followed k (k1 r) (k2 r)) ->
    followed k (Subscribe l k1) (Subscribe l k2)
| followed_Unsubscribe h k1 k2 :
    (forall r, followed k (k1 r) (k2 r)) ->
    followed k (Unsubscribe h k1) (Unsubscribe h k2)
| followed_Dispatch a k1 k2 :
    (forall r, followed k (k1 r) (k2 r)) ->
    followed k (Dispatch a k1) (Dispatch a k2)
| followed_ReplaceReducer f k1 k2 :
    (forall r, followed k (k1 r) (k2 r)) ->
    followed k (ReplaceReducer f k1) (ReplaceReducer f k2)
| followed_ApiDispatch args k1 k2 :
    (forall r, followed k (k1 r) (k2 r)) ->
    followed k (ApiDispatch args k1) (ApiDispatch args k2).

(** * A concrete consumer, for the examples *)

Module Example.

Definition INIT : string := "@@redux/INIT".
Definition REPLACE : string := "@@redux/REPLACE".

(** The action [{ type: t }], allocated at address [a]. *)
Definition action (a : nat) (t : string) : Value :=
  object_literal a [("type", VStr t)].

Definition inc : Value := action 1 "INC".
Definition boom : Value := action 2 "BOOM".
Definition nest : Value := action 3 "NEST".

(** [(state = 0, action) => action.type === 'INC' ? state + 1 : state] *)
Definition counter (state action : Value) : Value :=
  let n := match state with VNum n => n | _ => 0%Z end in
  match get action "type" with
  | VStr "INC" => VNum (n + 1)
  | _ => VNum n
  end.

(** The functions of the consumer:
    1 is the counter reducer;
    2 is a reducer that throws on BOOM, dispatches from inside on NEST
      (letting the error through), and counts otherwise;
    10 is a listener that subscribes listener 11 and then calls the
      unsubscribe function numbered 0 (its own, when it was subscribed
      first);
    every other function returns undefined. *)
Definition fn (f : nat) (args : list Value) : prog Value :=
  match f with
  | 1 => Ret (counter (nth 0 args VUndefined) (nth 1 args VUndefined))
  | 2 => match get (nth 1 args VUndefined) "type" with
         | VStr "BOOM" => Throw (E_user (VStr "boom"))
         | VStr "NEST" => Dispatch inc finish
         | _ => Ret (counter (nth 0 args VUndefined) (nth 1 args VUndefined))
         end
  | 10 => Subscribe (VFun 11) (fun _ => Unsubscribe 0 (fun _ => Ret VUndefined))
  | _ => Ret VUndefined
  end.

(** The same functions, and listener 12, which dispatches INC when it
    finds the state at 1. *)
Definition fn2 (f : nat) (args : list Value) : prog Value :=
  match f with
  | 12 => GetState (fun s =>
            match s with
            | Ok (VNum 1) => Dispatch inc (fun _ => Ret VUndefined)
            | _ => Ret VUndefined
            end)
  | _ => fn f args
  end.

(** Subscribe listener 12, then dispatch INC. *)
Definition nested_session : prog Value :=
  Subscribe (VFun 12) (fun _ => Dispatch inc finish).

(** Function 20, passed as an enhancer, is the identity enhancer. *)
Definition enhancers (e : nat) (createStore : StoreCreator) : StoreCreator :=
  createStore.

(** A world before any store is created. *)
Definition nothing : World :=
  {| currentReducer := 0; currentState := VUndefined;
     currentListeners := 0; nextListeners := 0; isDispatching := false;
     arrays := []; subscriptions := []; mw_dispatch := None;
     next_addr := 100; invoked := []; dispatched := [] |}.

(** The world [createStore(reducer)] leaves, for reducer 1 and for
    reducer 2. *)
Definition store1 : World :=
  {| currentReducer := 1; currentState := VNum 0;
     currentListeners := 0; nextListeners := 0; isDispatching := false;
     arrays := [[]]; subscriptions := []; mw_dispatch := None;
     next_addr := 101; invoked := []; dispatched := [action 100 INIT] |}.
Definition store2 : World := set_currentReducer 2 store1.

(** The store of reducer 1 after [subscribe(L10)]. *)
Definition subscribed : World :=
  {| currentReducer := 1; currentState := VNum 0;
     currentListeners := 0; nextListeners := 1; isDispatching := false;
     arrays := [[]; [10]]; subscriptions := [(10, true)]; mw_dispatch := None;
     next_addr := 101; invoked := []; dispatched := [action 100 INIT] |}.

(** That store after [dispatch(INC)]: listener 10 was called, subscribed
    listener 11 and unsubscribed itself. *)
Definition after_round : World :=
  {| currentReducer := 1; currentState := VNum 1;
     currentListeners := 1; nextListeners := 2; isDispatching := false;
     arrays := [[]; [10]; [11]]; subscriptions := [(10, false); (11, true)];
     mw_dispatch := None; next_addr := 101; invoked := [10];
     dispatched := [action 100 INIT; inc] |}.

(** The store of reducer 1 after [nested_session] run with [fn2]: the
    listener was called in the round of the INC dispatched, dispatched INC
    itself, and was called again in the round of that one. *)
Definition after_nested : World :=
  {| currentReducer := 1; currentState := VNum 2;
     currentListeners := 1; nextListeners := 1; isDispatching := false;
     arrays := [[]; [12]]; subscriptions := [(12, true)];
     mw_dispatch := None; next_addr := 101; invoked := [12; 12];
     dispatched := [action 100 INIT; inc; inc] |}.

(** An instance of a class: its prototype has Object.prototype as its
    prototype. *)
Definition instance : Obj :=
  mkObj 7 [("type", VStr "INC")] (Some (mkObj 6 [] (Some Object_prototype))).

(** A middleware that dispatches INC, through middlewareAPI, when the
    action it is given is a function, and passes any other action on. *)
Definition thunk : Middleware :=
  fun api =>
    Ret (fun (next : DispatchFn) =>
           Ret (fun (args : list Value) =>
                  match arg0 args with
                  | VFun _ => api_dispatch api [inc]
                  | _ => next args
                  end)).

(** A middleware that dispatches while the chain is composed. *)
Definition hasty : Middleware :=
  fun api =>
    Ret (fun (next : DispatchFn) =>
           bind (api_dispatch api [inc]) (fun _ => Ret next)).

(** A session: dispatch INC, subscribe listener 10, dispatch INC. *)
Definition session : list (prog unit * Value) :=
  [(Ret tt, inc); (Subscribe (VFun 10) (fun _ => Ret tt), inc)].

(** The functions of [fn], and listener 13, which throws. *)
Definition fn3 (f : nat) (args : list Value) : prog Value :=
  match f with
  | 13 => Throw (E_user (VStr "listener"))
  | _ => fn f args
  end.

(** The store of reducer 1 after listeners 11, 13 and 14 were subscribed. *)
Definition three_listeners : World :=
  {| currentReducer := 1; currentState := VNum 0;
     currentListeners := 0; nextListeners := 1; isDispatching := false;
     arrays := [[]; [11; 13; 14]];
     subscriptions := [(11, true); (13, true); (14, true)];
     mw_dispatch := None; next_addr := 101; invoked := [];
     dispatched := [action 100 INIT] |}.

(** A middleware that dispatches as soon as it is given the
    middlewareAPI. *)
Definition eager : Middleware :=
  fun api =>
    bind (api_dispatch api [inc])
      (fun _ => Ret (fun (next : DispatchFn) => Ret next)).

(** Function 20, passed as an enhancer, is [applyMiddleware(thunk)]. *)
Definition enhancers2 (e : nat) : StoreCreator -> StoreCreator :=
  applyMiddleware fn REPLACE 1
    (map plain_middleware
       [fun api (next : DispatchFn) (args : list Value) =>
          match arg0 args with
          | VFun _ => api_dispatch api [inc]
          | _ => next args
          end]).

(** An observer whose next member is function 11. *)
Definition observer : Value := object_literal 50 [("next", VFun 11)].

(** An observer whose next member is function 10, which calls the store. *)
Definition observer2 : Value := object_literal 51 [("next", VFun 10)].

End Example.

(** * Properties *)

(** ** Prototype chains and isPlainObject *)


Lemma loop_addr_in_chain (o : Obj) :
  addr_of (isPlainObject_loop o) ∈ chain_addrs o.
Proof.
  induction o as [a fs | a fs q IH] using Obj_chain_ind; simpl.
  - apply list_elem_of_singleton. reflexivity.
  - right. exact IH.
Qed.


Lemma absent_get (k : string) (o : Obj) : absent k o -> obj_get o k = VUndefined.
Proof.
  induction o as [a fs | a fs q IH] using Obj_chain_ind; simpl;
    intros [Hown Hrest]; rewrite Hown; auto.
Qed.

(** An object whose prototype has a prototype of its own (an instance of a
    class, whose chain is instance, C.prototype, ..., root) is not plain. *)
Lemma isPlainObject_instance (o p q : Obj) :
  getPrototypeOf o = Some p -> getPrototypeOf p = Some q ->
  NoDup (chain_addrs o) ->
  isPlainObject (VObj o) = false.
Proof.
  destruct o as [a fs po]; simpl. intros ->.
  destruct p as [b gs pp]; simpl. intros ->. simpl.
  intros Hnd. unfold same_ref; simpl.
  apply Nat.eqb_neq. intros Heq.
  apply NoDup_cons in Hnd as [_ Hnd].
  apply NoDup_cons in Hnd as [Hb _].
  apply Hb. rewrite Heq. apply loop_addr_in_chain.
Qed.

(** An object whose prototype is the root of its chain is plain. *)
Lemma isPlainObject_literal (a : nat) (fs : list (string * Value)) :
  isPlainObject (object_literal a fs) = true.
Proof. reflexivity. Qed.

Section Properties.
Variable fn : nat -> list Value -> prog Value.
Variable ActionTypes_REPLACE : string.

Local Abbreviation run := (run fn ActionTypes_REPLACE).
Local Abbreviation dispatch := (dispatch fn ActionTypes_REPLACE).
Local Abbreviation replaceReducer := (replaceReducer fn ActionTypes_REPLACE).
Local Abbreviation notify := (notify fn).

(** *** Unfolding one step of [run] *)

Lemma run_Ret fuel R (x : R) w : run (S fuel) R (Ret x) w = Some (Ok x, w).
Proof. reflexivity. Qed.

Lemma run_Ret_inv fuel R (x : R) w res w' :
  run fuel R (Ret x) w = Some (res, w') -> res = Ok x /\ w' = w.
Proof.
  destruct fuel; [discriminate|]. simpl. intros [= <- <-]. split; reflexivity.
Qed.

Lemma run_Dispatch fuel R action (k : res Value -> prog R) w :
  run (S fuel) R (Dispatch action k) w =
  match dispatch fuel action w with
  | None => None
  | Some (r, w') => run fuel R (k r) w'
  end.
Proof. reflexivity. Qed.

Lemma run_ReplaceReducer fuel R f (k : res unit -> prog R) w :
  run (S fuel) R (ReplaceReducer f k) w =
  match replaceReducer fuel f w with
  | None => None
  | Some (r, w') => run fuel R (k r) w'
  end.
Proof. reflexivity. Qed.

(** *** The three guards of dispatch *)

Lemma dispatch_not_plain fuel action w :
  isPlainObject action = false ->
  dispatch fuel action w = Some (Err E_action_not_plain, w).
Proof. intros H. unfold dispatch, dispatch_with. rewrite H. reflexivity. Qed.

Lemma dispatch_type_undefined fuel action w :
  isPlainObject action = true ->
  is_undefined (get action "type") = true ->
  dispatch fuel action w = Some (Err E_action_type_undefined, w).
Proof.
  intros H1 H2. unfold dispatch, dispatch_with. rewrite H1, H2. reflexivity.
Qed.

Lemma dispatch_while_dispatching fuel action w :
  isPlainObject action = true ->
  is_undefined (get action "type") = false ->
  isDispatching w = true ->
  dispatch fuel action w = Some (Err E_reducers_may_not_dispatch, w).
Proof.
  intros H1 H2 H3. unfold dispatch, dispatch_with.
  rewrite H1, H2, H3. reflexivity.
Qed.

(** Whatever the flag, a dispatch in a dispatching world is an error that
    leaves the world as it is. *)
Lemma dispatch_dispatching_inert fuel action w :
  isDispatching w = true ->
  exists e, dispatch fuel action w = Some (Err e, w).
Proof.
  intros H. unfold dispatch, dispatch_with.
  destruct (isPlainObject action); simpl; [|eauto].
  destruct (is_undefined _); [eauto|].
  rewrite H. eauto.
Qed.

(** The path of dispatch behind the guards. *)
Lemma dispatch_idle fuel action w :
  isPlainObject action = true ->
  is_undefined (get action "type") = false ->
  isDispatching w = false ->
  dispatch fuel action w =
  match run fuel Value (fn (currentReducer w) [currentState w; action])
          (set_isDispatching true w) with
  | None => None
  | Some (Err e, w2) => Some (Err e, set_isDispatching false w2)
  | Some (Ok v, w2) =>
      match notify (run fuel) fuel (nextListeners w2) 0
              (committed action v w2) with
      | None => None
      | Some (Err e, w5) => Some (Err e, w5)
      | Some (Ok _, w5) => Some (Ok action, w5)
      end
  end.
Proof.
  intros H1 H2 H3. unfold dispatch, dispatch_with.
  rewrite H1, H2, H3. reflexivity.
Qed.
(** *** Calls made while the store is dispatching *)

Lemma subscribe_dispatching listener w :
  isDispatching w = true ->
  exists e, subscribe listener w = (Err e, w).
Proof.
  intros H. unfold subscribe. destruct listener; eauto. rewrite H. eauto.
Qed.

Lemma unsubscribe_dispatching handle w :
  isDispatching w = true ->
  exists r, unsubscribe handle w = (r, w).
Proof.
  intros H. unfold unsubscribe.
  destruct (subscriptions w !! handle) as [[l [|]]|]; simpl; eauto.
  rewrite H. eauto.
Qed.

Lemma ensure_flag w :
  isDispatching (ensureCanMutateNextListeners w) = isDispatching w.
Proof.
  unfold ensureCanMutateNextListeners. destruct (Nat.eqb _ _); reflexivity.
Qed.

Lemma subscribe_flag listener w r w' :
  subscribe listener w = (r, w') -> isDispatching w' = isDispatching w.
Proof.
  unfold subscribe. destruct listener; try (intros [= <- <-]; reflexivity).
  destruct (isDispatching w) eqn:Hd; intros [= <- <-]; simpl; [exact Hd|].
  rewrite ensure_flag. exact Hd.
Qed.

Lemma unsubscribe_flag handle w r w' :
  unsubscribe handle w = (r, w') -> isDispatching w' = isDispatching w.
Proof.
  unfold unsubscribe.
  destruct (subscriptions w !! handle) as [[l [|]]|]; simpl;
    try (intros [= <- <-]; reflexivity).
  destruct (isDispatching w) eqn:Hd; intros [= <- <-]; simpl; [exact Hd|].
  rewrite ensure_flag. simpl. exact Hd.
Qed.


Lemma same_but_reducer_refl w : same_but_reducer w w.
Proof. repeat split. Qed.

Lemma same_but_reducer_trans w1 w2 w3 :
  same_but_reducer w1 w2 -> same_but_reducer w2 w3 -> same_but_reducer w1 w3.
Proof.
  unfold same_but_reducer. intros (?&?&?&?&?&?&?&?&?) (?&?&?&?&?&?&?&?&?).
  repeat split; congruence.
Qed.

Lemma replaceReducer_dispatching fuel nextReducer w :
  isDispatching w = true ->
  exists e w', replaceReducer fuel nextReducer w = Some (Err e, w') /\
               same_but_reducer w w'.
Proof.
  intros H. unfold replaceReducer, replaceReducer_with.
  destruct nextReducer;
    try (eexists _, _; split; [reflexivity|apply same_but_reducer_refl]).
  simpl.
  edestruct (dispatch_dispatching_inert fuel
               (object_literal (next_addr w) [("type", VStr ActionTypes_REPLACE)])
               (set_next_addr (S (next_addr w)) (set_currentReducer f w)))
    as [e He]; [exact H|].
  unfold dispatch in He. simpl in He. rewrite He.
  eexists _, _. split; [reflexivity|]. repeat split.
Qed.

(** Consumer code that runs while the store is dispatching changes nothing
    but, through replaceReducer, the reducer. *)
Lemma run_dispatching_frame fuel : forall R (p : prog R) w r w',
  isDispatching w = true ->
  run fuel R p w = Some (r, w') ->
  same_but_reducer w w'.
Proof.
  induction fuel as [|fuel IH]; intros R p w r w' Hd Hrun; [discriminate|].
  destruct p; simpl in Hrun.
  - inversion Hrun; subst. apply same_but_reducer_refl.
  - inversion Hrun; subst. apply same_but_reducer_refl.
  - eapply IH; eauto.
  - destruct (subscribe_dispatching listener w Hd) as [e He].
    rewrite He in Hrun. eapply IH; eauto.
  - destruct (unsubscribe_dispatching handle w Hd) as [u Hu].
    rewrite Hu in Hrun. eapply IH; eauto.
  - destruct (dispatch_dispatching_inert fuel action w Hd) as [e He].
    unfold dispatch in He. rewrite He in Hrun. eapply IH; eauto.
  - destruct (replaceReducer_dispatching fuel nextReducer w Hd)
      as (e & w1 & He & Hs).
    unfold replaceReducer in He. rewrite He in Hrun.
    eapply same_but_reducer_trans; [exact Hs|].
    eapply IH; [|exact Hrun].
    destruct Hs as (_&_&_&Hf&_). congruence.
  - destruct (mw_dispatch w); eapply IH; eauto.
Qed.

(** *** Invariants of the store *)

Section Invariant.
(** A closed property is kept by whatever consumer code does. *)
Variable P : World -> Prop.
Hypothesis Hclosed : closed P.

Lemma notify_keeps exec (Hexec : keeps P exec) fuel : forall listeners i w r w',
  P w -> isDispatching w = false ->
  notify exec fuel listeners i w = Some (r, w') ->
  P w' /\ isDispatching w' = false.
Proof.
  induction fuel as [|fuel IH]; intros listeners i w r w' HP Hd Hn;
    [discriminate|].
  simpl in Hn.
  destruct (Nat.ltb i (length (deref w listeners))).
  - destruct (exec Value _ _) as [[[v|e] w1]|] eqn:He; [| |discriminate].
    + apply Hexec in He as [HP1 Hd1]; [|apply (closed_invoke P Hclosed); assumption].
      eapply IH; [exact HP1| |exact Hn]. rewrite Hd1. exact Hd.
    + apply Hexec in He as [HP1 Hd1]; [|apply (closed_invoke P Hclosed); assumption].
      inversion Hn; subst. split; [assumption|]. rewrite Hd1. exact Hd.
  - inversion Hn; subst. auto.
Qed.

Lemma dispatch_with_keeps exec (Hexec : keeps P exec) fuel action w r w' :
  P w ->
  dispatch_with fn exec fuel action w = Some (r, w') ->
  P w' /\ isDispatching w' = isDispatching w.
Proof.
  intros HP Hdis. unfold dispatch_with in Hdis.
  destruct (negb (isPlainObject action)); [inversion Hdis; subst; auto|].
  destruct (is_undefined _); [inversion Hdis; subst; auto|].
  destruct (isDispatching w) eqn:Hd; [inversion Hdis; subst; auto|].
  destruct (exec Value _ _) as [[[v|e] w2]|] eqn:He; [| |discriminate].
  - apply Hexec in He as [HP2 Hd2]; [|apply (closed_begin P Hclosed); assumption].
    simpl in Hd2.
    destruct (notify exec fuel _ 0 _) as [[[u|e] w5]|] eqn:Hn;
      [| |discriminate].
    + inversion Hdis; subst.
      exact (notify_keeps exec Hexec fuel _ _ _ _ _
               (closed_commit P Hclosed w2 action v HP2 Hd2) eq_refl Hn).
    + inversion Hdis; subst.
      exact (notify_keeps exec Hexec fuel _ _ _ _ _
               (closed_commit P Hclosed w2 action v HP2 Hd2) eq_refl Hn).
  - apply Hexec in He as [HP2 Hd2]; [|apply (closed_begin P Hclosed); assumption].
    inversion Hdis; subst. split; [apply (closed_abort P Hclosed); assumption|reflexivity].
Qed.

Lemma replaceReducer_with_keeps exec (Hexec : keeps P exec) fuel f w r w' :
  P w ->
  replaceReducer_with fn ActionTypes_REPLACE exec fuel f w = Some (r, w') ->
  P w' /\ isDispatching w' = isDispatching w.
Proof.
  intros HP Hrep. unfold replaceReducer_with in Hrep.
  destruct f; try (inversion Hrep; subst; auto; fail).
  simpl in Hrep.
  destruct (dispatch_with _ _ _ _ _) as [[[u|e] w3]|] eqn:Hdis;
    [| |discriminate].
  - inversion Hrep; subst.
    exact (dispatch_with_keeps exec Hexec fuel _ _ _ _
             (closed_replace P Hclosed w f HP) Hdis).
  - inversion Hrep; subst.
    exact (dispatch_with_keeps exec Hexec fuel _ _ _ _
             (closed_replace P Hclosed w f HP) Hdis).
Qed.

Lemma run_keeps fuel : keeps P (run fuel).
Proof.
  induction fuel as [|fuel IH]; intros R p w r w' HP Hrun; [discriminate|].
  destruct p; simpl in Hrun.
  - inversion Hrun; subst; auto.
  - inversion Hrun; subst; auto.
  - eapply IH; eauto.
  - destruct (subscribe listener w) as [r1 w1] eqn:Hs.
    rewrite <- (subscribe_flag _ _ _ _ Hs).
    eapply IH; [|exact Hrun].
    eapply (closed_subscribe P Hclosed); eassumption.
  - destruct (unsubscribe handle w) as [r1 w1] eqn:Hs.
    rewrite <- (unsubscribe_flag _ _ _ _ Hs).
    eapply IH; [|exact Hrun].
    eapply (closed_unsubscribe P Hclosed); eassumption.
  - destruct (dispatch_with _ _ _ _ _) as [[r1 w1]|] eqn:Hdis; [|discriminate].
    destruct (dispatch_with_keeps (run fuel) IH fuel _ _ _ _ HP Hdis)
      as [HP1 <-].
    eapply IH; eassumption.
  - destruct (replaceReducer_with _ _ _ _ _ _) as [[r1 w1]|] eqn:Hrep;
      [|discriminate].
    destruct (replaceReducer_with_keeps (run fuel) IH fuel _ _ _ _ HP Hrep)
      as [HP1 <-].
    eapply IH; eassumption.
  - destruct (mw_dispatch w); eapply IH; eauto.
Qed.
End Invariant.

(** *** What dispatch does behind its guards *)

Lemma dispatch_succeeds fuel action w v w2 w5 :
  isPlainObject action = true ->
  is_undefined (get action "type") = false ->
  isDispatching w = false ->
  run fuel Value (fn (currentReducer w) [currentState w; action])
    (set_isDispatching true w) = Some (Ok v, w2) ->
  notify (run fuel) fuel (nextListeners w2) 0 (committed action v w2) = Some (Ok tt, w5) ->
  dispatch fuel action w = Some (Ok action, w5).
Proof.
  intros H1 H2 H3 Hred Hnot. rewrite dispatch_idle by assumption.
  rewrite Hred, Hnot. reflexivity.
Qed.

Lemma dispatch_reducer_error fuel action w e w2 :
  isPlainObject action = true ->
  is_undefined (get action "type") = false ->
  isDispatching w = false ->
  run fuel Value (fn (currentReducer w) [currentState w; action])
    (set_isDispatching true w) = Some (Err e, w2) ->
  dispatch fuel action w = Some (Err e, set_isDispatching false w2).
Proof.
  intros H1 H2 H3 Hred. rewrite dispatch_idle by assumption.
  rewrite Hred. reflexivity.
Qed.

Lemma closed_True : closed (fun _ => True).
Proof. constructor; auto. Qed.

(** A dispatch that returns leaves the flag as it found it. *)
Lemma dispatch_keeps_flag fuel action w r w' :
  dispatch fuel action w = Some (r, w') -> isDispatching w' = isDispatching w.
Proof.
  intros H.
  exact (proj2 (dispatch_with_keeps (fun _ => True) closed_True
                  (run fuel) (run_keeps _ closed_True fuel) fuel _ _ _ _ I H)).
Qed.

Lemma run_keeps_flag fuel R (p : prog R) w r w' :
  run fuel R p w = Some (r, w') -> isDispatching w' = isDispatching w.
Proof.
  intros Hrun. exact (proj2 (run_keeps _ closed_True fuel R p w r w' I Hrun)).
Qed.

(** Once an unsubscribe function has cleared its isSubscribed variable,
    nothing sets it again. *)
Lemma run_keeps_revoked h l fuel R (p : prog R) w r w' :
  subscriptions w !! h = Some (l, false) ->
  run fuel R p w = Some (r, w') ->
  subscriptions w' !! h = Some (l, false).
Proof.
  intros Hh Hrun.
  refine (proj1 (run_keeps (fun w => subscriptions w !! h = Some (l, false))
                   _ fuel R p w r w' Hh Hrun)).
  clear. constructor; try (intros; assumption).
  - intros listener w r w' Hh. unfold subscribe.
    destruct listener; try (intros [= <- <-]; exact Hh).
    destruct (isDispatching w); intros [= <- <-]; [exact Hh|]. simpl.
    rewrite lookup_app_l.
    + unfold ensureCanMutateNextListeners.
      destruct (Nat.eqb _ _); exact Hh.
    + unfold ensureCanMutateNextListeners.
      destruct (Nat.eqb _ _); simpl; eapply lookup_lt_Some; exact Hh.
  - intros handle w r w' Hh. unfold unsubscribe.
    destruct (subscriptions w !! handle) as [[l' [|]]|] eqn:Hl; simpl;
      try (intros [= <- <-]; exact Hh).
    destruct (isDispatching w); intros [= <- <-]; [exact Hh|]. simpl.
    assert (handle <> h) as Hne by (intros ->; congruence).
    unfold ensureCanMutateNextListeners; simpl.
    destruct (Nat.eqb _ _); simpl; rewrite list_lookup_insert_ne; auto.
Qed.

(** ** The guards of the store *)

(** C5. dispatch(action) fails with InvalidAction when the action is not
    a plain object, and when it is one but its type property is absent; the
    world (state, listener arrays, history) is returned as it was.  The
    plain-object predicate is false on null, on every value that is not an
    object, and on an instance of a class (an object whose prototype has a
    prototype of its own). *)
Theorem dispatch_rejects_invalid_action fuel action w :
  (isPlainObject action = false ->
   dispatch fuel action w = Some (Err E_action_not_plain, w)) /\
  (forall o, action = VObj o -> isPlainObject action = true ->
             absent "type" o ->
   dispatch fuel action w = Some (Err E_action_type_undefined, w)) /\
  kind_of E_action_not_plain = Some InvalidAction /\
  kind_of E_action_type_undefined = Some InvalidAction /\
  isPlainObject VNull = false /\
  (forall v, typeof v <> "object" -> isPlainObject v = false) /\
  (forall o p q, getPrototypeOf o = Some p -> getPrototypeOf p = Some q ->
                 NoDup (chain_addrs o) -> isPlainObject (VObj o) = false).
Proof.
  split; [apply dispatch_not_plain|].
  split.
  { intros o -> Hplain Habs. apply dispatch_type_undefined; [exact Hplain|].
    simpl. rewrite absent_get by exact Habs. reflexivity. }
  repeat split.
  - intros v Hv. destruct v; try reflexivity. exfalso. apply Hv. reflexivity.
  - apply isPlainObject_instance.
Qed.

(** C9. A dispatch that succeeds returns the action it was given. *)
Theorem dispatch_returns_action fuel action w r w' :
  dispatch fuel action w = Some (Ok r, w') -> r = action.
Proof.
  unfold dispatch, dispatch_with.
  destruct (negb _); [discriminate|].
  destruct (is_undefined _); [discriminate|].
  destruct (isDispatching w); [discriminate|].
  destruct (run _ _ _ _) as [[[v|e] w2]|]; [|discriminate|discriminate].
  destruct (notify _ _ _ _ _) as [[[u|e] w5]|]; [|discriminate|discriminate].
  intros [= -> _]. reflexivity.
Qed.

(** C10. An unsubscribe function whose isSubscribed variable is already
    false returns at once, with no error and the world unchanged, whether
    or not the store is dispatching; a first call that goes through leaves
    the variable false, and nothing that runs afterwards sets it again. *)
Theorem unsubscribe_revoked_is_silent handle w :
  (forall l, subscriptions w !! handle = Some (l, false) ->
             unsubscribe handle w = (Ok tt, w)) /\
  (forall l, subscriptions w !! handle = Some (l, false) ->
             unsubscribe handle (set_isDispatching true w)
             = (Ok tt, set_isDispatching true w)) /\
  (forall w', unsubscribe handle w = (Ok tt, w') ->
              exists l, subscriptions w' !! handle = Some (l, false)) /\
  (forall l fuel R (p : prog R) r w',
     subscriptions w !! handle = Some (l, false) ->
     run fuel R p w = Some (r, w') ->
     subscriptions w' !! handle = Some (l, false)).
Proof.
  split; [|split; [|split]].
  - intros l Hl. unfold unsubscribe. rewrite Hl. reflexivity.
  - intros l Hl. unfold unsubscribe. simpl. rewrite Hl. reflexivity.
  - intros w'. unfold unsubscribe.
    destruct (subscriptions w !! handle) as [[l [|]]|] eqn:Hl; simpl;
      [|intros [= <-]; eauto|discriminate].
    destruct (isDispatching w); [discriminate|]. intros [= <-].
    exists l. simpl.
    unfold ensureCanMutateNextListeners; simpl.
    destruct (Nat.eqb _ _); simpl; apply list_lookup_insert_eq;
      eapply lookup_lt_Some; exact Hl.
  - intros l fuel R p r w'. apply run_keeps_revoked.
Qed.

(** C4. While the store is dispatching, getState, subscribe, an
    unsubscribe function that is still subscribed and dispatch of a valid
    action each fail with an IllegalStateAccess error and leave the world as
    it is, and the flag stays set for everything consumer code does
    meanwhile.  A dispatch started on an idle store, whatever its reducer
    attempted (a nested dispatch included), leaves the flag reset when it
    returns, so that the next dispatch of a valid action passes the guard:
    it returns the action as soon as its reducer and the listeners return. *)
Theorem illegal_access_while_dispatching w w0 :
  isDispatching w = true ->
  isDispatching w0 = false ->
  getState w = Err E_getState_while_dispatching /\
  (forall f, subscribe (VFun f) w = (Err E_subscribe_while_dispatching, w)) /\
  (forall h l, subscriptions w !! h = Some (l, true) ->
     unsubscribe h w = (Err E_unsubscribe_while_dispatching, w)) /\
  (forall fuel action,
     isPlainObject action = true -> is_undefined (get action "type") = false ->
     dispatch fuel action w = Some (Err E_reducers_may_not_dispatch, w)) /\
  (forall e, In e [E_getState_while_dispatching; E_subscribe_while_dispatching;
                   E_unsubscribe_while_dispatching; E_reducers_may_not_dispatch] ->
             kind_of e = Some IllegalStateAccess) /\
  (forall fuel R (p : prog R) r w',
     run fuel R p w = Some (r, w') -> isDispatching w' = true) /\
  (forall fuel action r w1,
     dispatch fuel action w0 = Some (r, w1) ->
     isDispatching w1 = false /\
     forall fuel' action' v w2 w5,
       isPlainObject action' = true ->
       is_undefined (get action' "type") = false ->
       run fuel' Value (fn (currentReducer w1) [currentState w1; action'])
         (set_isDispatching true w1) = Some (Ok v, w2) ->
       notify (run fuel') fuel' (nextListeners w2) 0 (committed action' v w2)
         = Some (Ok tt, w5) ->
       dispatch fuel' action' w1 = Some (Ok action', w5)).
Proof.
  intros Hd Hidle. repeat apply conj.
  - unfold getState. rewrite Hd. reflexivity.
  - intros f. unfold subscribe. rewrite Hd. reflexivity.
  - intros h l Hl. unfold unsubscribe. rewrite Hl. simpl. rewrite Hd.
    reflexivity.
  - intros fuel action H1 H2. apply dispatch_while_dispatching; assumption.
  - intros e He. simpl in He.
    destruct He as [<-|[<-|[<-|[<-|[]]]]]; reflexivity.
  - intros fuel R p r w' Hrun. apply run_keeps_flag in Hrun. congruence.
  - intros fuel action r w1 Hdis.
    apply dispatch_keeps_flag in Hdis. rewrite Hidle in Hdis.
    split; [exact Hdis|].
    intros fuel' action' v w2 w5 H1 H2 Hred Hnot.
    eapply dispatch_succeeds; eassumption.
Qed.

(** C3. When the reducer throws, dispatch throws the same error after
    resetting the flag; the state, both listener variables, the arrays, the
    subscriptions and the two histories are what they were (no listener was
    called, no transition was carried out), and the next dispatch of a valid
    action passes the guard: it returns the action as soon as its reducer
    and the listeners return. *)
Theorem reducer_error_resets_flag fuel action w e w2 :
  isPlainObject action = true ->
  is_undefined (get action "type") = false ->
  isDispatching w = false ->
  run fuel Value (fn (currentReducer w) [currentState w; action])
    (set_isDispatching true w) = Some (Err e, w2) ->
  exists w',
    dispatch fuel action w = Some (Err e, w') /\
    isDispatching w' = false /\
    currentState w' = currentState w /\
    currentListeners w' = currentListeners w /\
    nextListeners w' = nextListeners w /\
    arrays w' = arrays w /\
    subscriptions w' = subscriptions w /\
    invoked w' = invoked w /\
    dispatched w' = dispatched w /\
    forall fuel' action' v w2' w5,
      isPlainObject action' = true ->
      is_undefined (get action' "type") = false ->
      run fuel' Value (fn (currentReducer w') [currentState w'; action'])
        (set_isDispatching true w') = Some (Ok v, w2') ->
      notify (run fuel') fuel' (nextListeners w2') 0 (committed action' v w2')
        = Some (Ok tt, w5) ->
      dispatch fuel' action' w' = Some (Ok action', w5).
Proof.
  intros H1 H2 Hd Hred.
  exists (set_isDispatching false w2).
  split; [apply dispatch_reducer_error; assumption|].
  apply run_dispatching_frame in Hred; [|reflexivity].
  destruct Hred as (Hs & Hc & Hn & _ & Ha & Hsub & _ & Hi & Hdsp). simpl in *.
  repeat (split; [assumption || reflexivity|]).
  intros fuel' action' v w2' w5 H1' H2' Hred' Hnot.
  eapply dispatch_succeeds; try eassumption. reflexivity.
Qed.

End Properties.

(** ** compose *)

Lemma compose_fold {V : Type} (rest : list (list V -> V)) :
  forall (a h : list V -> V) (args : list V),
    fold_left (fun a b => fun args => a [b args]) (rest ++ [h]) a args
    = a [fold_right (fun f v => f [v]) (h args) rest].
Proof.
  induction rest as [|g rest IH]; intros a h args; simpl.
  - reflexivity.
  - rewrite IH. reflexivity.
Qed.

(** Every function but the rightmost receives one argument, the value its
    right neighbour returned; the rightmost receives the argument list. *)
Lemma compose_right_to_left {V : Type} (undefined : V)
    (fs : list (list V -> V)) (h : list V -> V) (args : list V) :
  compose undefined (fs ++ [h]) args = fold_right (fun f v => f [v]) (h args) fs.
Proof.
  destruct fs as [|f rest]; [reflexivity|].
  simpl. rewrite <- compose_fold.
  destruct rest; reflexivity.
Qed.

(** C7. compose of no function returns its first argument (the identity);
    compose of one function is that function; compose(f, g, h) applied to
    an argument list is f(g(h(...args))), and in general only the
    rightmost function receives the argument list. *)
Theorem compose_laws {V : Type} (undefined : V) :
  (forall x rest, compose undefined [] (x :: rest) = x) /\
  (forall f, compose undefined [f] = f) /\
  (forall f g h args, compose undefined [f; g; h] args = f [g [h args]]) /\
  (forall fs h args,
     compose undefined (fs ++ [h]) args
     = fold_right (fun f v => f [v]) (h args) fs).
Proof.
  repeat split; try reflexivity.
  intros fs h args. apply compose_right_to_left.
Qed.

(** ** createStore *)

Section Construct.
Variable fn : nat -> list Value -> prog Value.
Variable ActionTypes_INIT ActionTypes_REPLACE : string.
Variable enhancers : nat -> StoreCreator -> StoreCreator.

Local Abbreviation createStore :=
  (createStore fn ActionTypes_INIT ActionTypes_REPLACE enhancers).

(** C8. A function passed as preloadedState when the enhancer is undefined
    is taken as the enhancer, with preloadedState undefined; when
    preloadedState and the enhancer are both functions, or the enhancer and
    a fourth argument are, createStore throws an InvalidArgument error;
    and when the enhancer is a function, createStore returns what
    enhancer(createStore)(reducer, preloadedState) returns, in the world
    that call leaves. *)
Theorem createStore_enhancer fuel (args : list Value) w :
  let reducer := nth 0 args VUndefined in
  let preloadedState := nth 1 args VUndefined in
  let enhancer := nth 2 args VUndefined in
  let arguments3 := nth 3 args VUndefined in
  (forall f, preloadedState = VFun f -> enhancer = VUndefined ->
     createStore (S fuel) args w
     = enhancers f (createStore fuel) [reducer; VUndefined] w) /\
  ((is_function preloadedState = true /\ is_function enhancer = true) \/
   (is_function enhancer = true /\ is_function arguments3 = true) ->
     createStore (S fuel) args w = Some (Err E_several_enhancers, w)) /\
  kind_of E_several_enhancers = Some InvalidArgument /\
  (forall e, enhancer = VFun e ->
     is_function preloadedState = false -> is_function arguments3 = false ->
     createStore (S fuel) args w
     = enhancers e (createStore fuel) [reducer; preloadedState] w).
Proof.
  simpl. repeat apply conj.
  - intros f Hp He. unfold createStore_body. rewrite Hp, He. reflexivity.
  - intros [[Hp He]|[He H3]]; unfold createStore_body.
    + rewrite Hp, He. reflexivity.
    + rewrite He, H3. rewrite orb_true_r. reflexivity.
  - reflexivity.
  - intros e He Hp H3. unfold createStore_body. rewrite He, Hp, H3.
    reflexivity.
Qed.
End Construct.

(** ** applyMiddleware *)

Section Middleware.
Variable fn : nat -> list Value -> prog Value.
Variable ActionTypes_REPLACE : string.

Local Abbreviation run := (run fn ActionTypes_REPLACE).
Local Abbreviation map_middlewares := (map_middlewares fn ActionTypes_REPLACE).
Local Abbreviation applyMiddleware := (applyMiddleware fn ActionTypes_REPLACE).

Lemma ensure_mw_dispatch w :
  mw_dispatch (ensureCanMutateNextListeners w) = mw_dispatch w.
Proof.
  unfold ensureCanMutateNextListeners. destruct (Nat.eqb _ _); reflexivity.
Qed.

(** Consumer code cannot assign to the variable dispatch of applyMiddleware. *)
Lemma run_keeps_mw_dispatch d fuel R (p : prog R) w r w' :
  mw_dispatch w = d ->
  run fuel R p w = Some (r, w') ->
  mw_dispatch w' = d.
Proof.
  intros Hd Hrun.
  refine (proj1 (run_keeps fn ActionTypes_REPLACE (fun w => mw_dispatch w = d)
                   _ fuel R p w r w' Hd Hrun)).
  clear. constructor; try (intros; assumption).
  - intros listener w r w' Hd. unfold subscribe.
    destruct listener; try (intros [= <- <-]; exact Hd).
    destruct (isDispatching w); intros [= <- <-]; [exact Hd|]. simpl.
    rewrite ensure_mw_dispatch. exact Hd.
  - intros handle w r w' Hd. unfold unsubscribe.
    destruct (subscriptions w !! handle) as [[l' [|]]|]; simpl;
      try (intros [= <- <-]; exact Hd).
    destruct (isDispatching w); intros [= <- <-]; [exact Hd|]. simpl.
    rewrite ensure_mw_dispatch. exact Hd.
Qed.

Lemma map_middlewares_keeps_mw_dispatch d fuel middlewares api :
  forall w r w',
    mw_dispatch w = d ->
    map_middlewares fuel middlewares api w = Some (r, w') ->
    mw_dispatch w' = d.
Proof.
  induction middlewares as [|m rest IH]; intros w r w' Hd Hmap; simpl in Hmap.
  - injection Hmap as _ <-. exact Hd.
  - destruct (run fuel Interceptor (m api) w) as [[[i|e] w1]|] eqn:Hrun;
      [| |discriminate].
    + apply (run_keeps_mw_dispatch d) in Hrun; [|exact Hd].
      destruct (map_middlewares fuel rest api w1) as [[[chain|e] w2]|] eqn:Hrest;
        [| |discriminate].
      * injection Hmap as _ <-. eapply IH; eassumption.
      * injection Hmap as _ <-. eapply IH; eassumption.
    + injection Hmap as _ <-.
      eapply run_keeps_mw_dispatch; eassumption.
Qed.



Section Agree.
(** Two ways of running consumer code that agree wherever the variable
    dispatch holds the placeholder, the first of which leaves it there. *)
Variable exec1 exec2 : forall R : Type, prog R -> World -> option (res R * World).
Hypothesis exec1_keeps :
  keeps (fun w => mw_dispatch w = Some placeholder_dispatch) exec1.
Hypothesis exec_agree : forall R (p : prog R) w,
  mw_dispatch w = Some placeholder_dispatch -> exec1 R p w = exec2 R p w.



End Agree.




End Middleware.

(** ** The round and its snapshot *)

Section Snapshot.
Variable fn : nat -> list Value -> prog Value.
Variable ActionTypes_REPLACE : string.

Local Abbreviation run := (run fn ActionTypes_REPLACE).
Local Abbreviation dispatch := (dispatch fn ActionTypes_REPLACE).

Lemma ensure_cases w :
  (nextListeners w = currentListeners w /\
   ensureCanMutateNextListeners w
   = set_nextListeners (length (arrays w))
       (set_arrays (arrays w ++ [deref w (currentListeners w)]) w)) \/
  (nextListeners w <> currentListeners w /\
   ensureCanMutateNextListeners w = w).
Proof.
  unfold ensureCanMutateNextListeners.
  destruct (Nat.eqb (nextListeners w) (currentListeners w)) eqn:E.
  - left. apply Nat.eqb_eq in E. auto.
  - right. apply Nat.eqb_neq in E. auto.
Qed.

(** After ensureCanMutateNextListeners, nextListeners refers to an array
    that no protected reference refers to, and the protected array is
    where it was. *)
Lemma ensure_protected A arr w :
  protected A arr w ->
  protected A arr (ensureCanMutateNextListeners w) /\
  nextListeners (ensureCanMutateNextListeners w) <> A.
Proof.
  intros [Harr Himp].
  assert (A < length (arrays w)) as Hlt by (eapply lookup_lt_Some; eauto).
  destruct (ensure_cases w) as [[Heq ->]|[Hne ->]]; simpl.
  - split; [split|]; simpl.
    + rewrite lookup_app_l by exact Hlt. exact Harr.
    + intros <-. lia.
    + lia.
  - split; [split; assumption|].
    intros HA. apply Hne. rewrite Himp; assumption.
Qed.

Lemma write_protected A arr w new :
  protected A arr w -> nextListeners w <> A ->
  protected A arr (set_arrays (<[nextListeners w := new]> (arrays w)) w).
Proof.
  intros [Harr Himp] Hne. split; simpl.
  - rewrite list_lookup_insert_ne by exact Hne. exact Harr.
  - exact Himp.
Qed.

Lemma subscribe_protected A arr listener w r w' :
  protected A arr w -> subscribe listener w = (r, w') -> protected A arr w'.
Proof.
  intros HP. unfold subscribe.
  destruct listener; try (intros [= <- <-]; exact HP).
  destruct (isDispatching w); intros [= <- <-]; [exact HP|].
  destruct (ensure_protected A arr w HP) as [HP1 Hne].
  apply (write_protected A arr _ (deref (ensureCanMutateNextListeners w)
           (nextListeners (ensureCanMutateNextListeners w)) ++ [f])) in HP1;
    [|exact Hne].
  destruct HP1 as [H1 H2]. split; assumption.
Qed.

Lemma unsubscribe_protected A arr handle w r w' :
  protected A arr w -> unsubscribe handle w = (r, w') -> protected A arr w'.
Proof.
  intros HP. unfold unsubscribe.
  destruct (subscriptions w !! handle) as [[l [|]]|]; simpl;
    try (intros [= <- <-]; exact HP).
  destruct (isDispatching w); intros [= <- <-]; [exact HP|].
  set (w1 := set_subscriptions _ w).
  assert (protected A arr w1) as HP1 by exact HP.
  destruct (ensure_protected A arr w1 HP1) as [HP2 Hne].
  apply write_protected; assumption.
Qed.

Lemma closed_protected A arr : closed (protected A arr).
Proof.
  constructor.
  - intros. eapply subscribe_protected; eauto.
  - intros. eapply unsubscribe_protected; eauto.
  - intros w HP _. exact HP.
  - intros w HP _. exact HP.
  - intros w a v [Harr Himp] _. split; simpl; auto.
  - intros w l HP _. exact HP.
  - intros w f HP. exact HP.
Qed.

Lemma run_keeps_protected A arr fuel : keeps (protected A arr) (run fuel).
Proof. apply run_keeps. apply closed_protected. Qed.

(** The loop of dispatch over a protected array calls the listeners the
    array held when the loop started. *)
Lemma notify_protected exec A arr (Hexec : keeps (protected A arr) exec) fuel :
  forall i w,
    protected A arr w -> isDispatching w = false ->
    notify fn exec fuel A i w = invoke_snapshot fn exec fuel (drop i arr) w.
Proof.
  induction fuel as [|fuel IH]; intros i w HP Hd; [reflexivity|].
  simpl. unfold deref at 1. rewrite (proj1 HP). simpl.
  destruct (Nat.ltb i (length arr)) eqn:Hi.
  - apply Nat.ltb_lt in Hi.
    destruct (lookup_lt_is_Some_2 arr i Hi) as [x Hx].
    rewrite (drop_S arr x i Hx).
    unfold deref. rewrite (proj1 HP). simpl.
    rewrite nth_lookup, Hx. simpl.
    destruct (exec Value (fn x []) _) as [[[v|e] w1]|] eqn:He; try reflexivity.
    apply Hexec in He as [HP1 Hd1]; [|exact HP].
    apply IH; [exact HP1|]. rewrite Hd1. exact Hd.
  - apply Nat.ltb_ge in Hi. rewrite drop_ge by exact Hi. reflexivity.
Qed.

Lemma dispatch_is_dispatch_snapshot fuel action w :
  nextListeners w < length (arrays w) ->
  dispatch fuel action w
  = dispatch_snapshot fn (run fuel) fuel action w.
Proof.
  intros Hv. unfold dispatch, dispatch_with, dispatch_snapshot.
  destruct (negb (isPlainObject action)); [reflexivity|].
  destruct (is_undefined _); [reflexivity|].
  destruct (isDispatching w) eqn:Hd; [reflexivity|].
  destruct (run fuel Value _ _) as [[[v|e] w2]|] eqn:Hred; try reflexivity.
  apply run_dispatching_frame in Hred; [|reflexivity].
  destruct Hred as (_ & _ & Hn & _ & Ha & _). simpl in Hn, Ha.
  destruct (lookup_lt_is_Some_2 _ _ Hv) as [arr Harr].
  assert (pending w = arr) as -> by (unfold pending, deref; rewrite Harr; reflexivity).
  change (notify fn (run fuel) fuel _ 0 _)
    with (notify fn (run fuel) fuel (nextListeners w2) 0 (committed action v w2)).
  rewrite Hn.
  rewrite (notify_protected (run fuel) (nextListeners w) arr
             (run_keeps_protected _ arr fuel) fuel 0 (committed action v w2)).
  - rewrite drop_0. reflexivity.
  - split; simpl; [rewrite Ha; exact Harr|]. intros _. exact Hn.
  - reflexivity.
Qed.
End Snapshot.

(** ** Arrays, subscriptions and the pending sequence *)

Lemma indexOf_found (l : nat) (arr : list nat) :
  0 < count_occ Nat.eq_dec arr l ->
  exists i, indexOf l arr = Z.of_nat i /\ i < length arr /\
            delete i arr = remove_first l arr.
Proof.
  induction arr as [|y rest IH]; simpl; [lia|].
  destruct (Nat.eq_dec y l) as [->|Hne].
  - intros _. exists 0. rewrite Nat.eqb_refl. repeat split. lia.
  - intros Hc. destruct (IH Hc) as (i & Hi & Hlt & Hdel).
    exists (S i). apply Nat.eqb_neq in Hne. rewrite Hne, Hi.
    destruct (Z.ltb_spec (Z.of_nat i) 0); [lia|].
    repeat split; [lia|lia|]. simpl. rewrite <- Hdel. reflexivity.
Qed.

Lemma splice1_in_range (i : nat) (arr : list nat) :
  i < length arr -> splice1 (Z.of_nat i) arr = delete i arr.
Proof.
  intros Hlt. unfold splice1.
  destruct (Z.ltb_spec (Z.of_nat i) 0); [lia|].
  rewrite Z.min_l by lia. rewrite Nat2Z.id. reflexivity.
Qed.

(** When the listener is in the array, indexOf and splice remove its first
    occurrence. *)
Lemma splice1_indexOf (l : nat) (arr : list nat) :
  0 < count_occ Nat.eq_dec arr l ->
  splice1 (indexOf l arr) arr = remove_first l arr.
Proof.
  intros Hc. destruct (indexOf_found l arr Hc) as (i & -> & Hlt & <-).
  apply splice1_in_range. exact Hlt.
Qed.

Lemma count_remove_first_eq (l : nat) (arr : list nat) :
  count_occ Nat.eq_dec (remove_first l arr) l
  = pred (count_occ Nat.eq_dec arr l).
Proof.
  induction arr as [|y rest IH]; simpl; [reflexivity|].
  destruct (Nat.eqb_spec y l) as [->|Hne].
  - destruct (Nat.eq_dec l l); [reflexivity|contradiction].
  - simpl. destruct (Nat.eq_dec y l); [contradiction|]. exact IH.
Qed.

Lemma count_remove_first_ne (l l' : nat) (arr : list nat) :
  l <> l' ->
  count_occ Nat.eq_dec (remove_first l arr) l' = count_occ Nat.eq_dec arr l'.
Proof.
  intros Hne. induction arr as [|y rest IH]; simpl; [reflexivity|].
  destruct (Nat.eqb_spec y l) as [->|Hy].
  - destruct (Nat.eq_dec l l'); [contradiction|reflexivity].
  - simpl. destruct (Nat.eq_dec y l'); rewrite IH; reflexivity.
Qed.

Lemma live_app_eq (l : nat) (subs : list (nat * bool)) :
  live l (subs ++ [(l, true)]) = S (live l subs).
Proof.
  unfold live. rewrite filter_app, length_app.
  rewrite filter_cons_True by reflexivity. simpl. lia.
Qed.

Lemma live_app_ne (l l' : nat) (b : bool) (subs : list (nat * bool)) :
  (l, b) <> (l', true) ->
  live l' (subs ++ [(l, b)]) = live l' subs.
Proof.
  intros Hne. unfold live. rewrite filter_app, length_app.
  rewrite filter_cons_False by exact Hne. simpl. lia.
Qed.

Lemma live_revoke_eq (h l : nat) (subs : list (nat * bool)) :
  subs !! h = Some (l, true) ->
  S (live l (<[h := (l, false)]> subs)) = live l subs.
Proof.
  intros Hh.
  rewrite insert_take_drop by (eapply lookup_lt_Some; exact Hh).
  rewrite <- (take_drop_middle subs h (l, true) Hh) at 3.
  unfold live. rewrite !filter_app, !length_app.
  rewrite filter_cons_False by discriminate.
  rewrite filter_cons_True by reflexivity. simpl. lia.
Qed.

Lemma live_revoke_ne (h l l' : nat) (subs : list (nat * bool)) :
  subs !! h = Some (l, true) -> l <> l' ->
  live l' (<[h := (l, false)]> subs) = live l' subs.
Proof.
  intros Hh Hne.
  rewrite insert_take_drop by (eapply lookup_lt_Some; exact Hh).
  rewrite <- (take_drop_middle subs h (l, true) Hh) at 3.
  unfold live. rewrite !filter_app, !length_app.
  rewrite !filter_cons_False by congruence. reflexivity.
Qed.

(** A live subscription is counted. *)
Lemma live_positive (h l : nat) (subs : list (nat * bool)) :
  subs !! h = Some (l, true) -> 0 < live l subs.
Proof. intros Hh. rewrite <- (live_revoke_eq h l subs Hh). lia. Qed.

(** With every subscription of [l] revoked, none is counted. *)
Lemma live_none (l : nat) (subs : list (nat * bool)) :
  (forall h, subs !! h <> Some (l, true)) -> live l subs = 0.
Proof.
  induction subs as [|e rest IH]; intros Hno; [reflexivity|].
  unfold live. rewrite filter_cons_False.
  - apply IH. intros h. exact (Hno (S h)).
  - intros ->. exact (Hno 0 eq_refl).
Qed.

(** ensureCanMutateNextListeners changes neither sequence; afterwards the
    two variables refer to different arrays. *)
Lemma ensure_sequences w :
  valid_refs w ->
  let w1 := ensureCanMutateNextListeners w in
  pending w1 = pending w /\
  committed_listeners w1 = committed_listeners w /\
  currentListeners w1 = currentListeners w /\
  valid_refs w1 /\
  nextListeners w1 <> currentListeners w1.
Proof.
  intros [Hn Hc]. simpl.
  destruct (ensure_cases w) as [[Heq ->]|[Hne ->]];
    unfold pending, committed_listeners, valid_refs, deref; simpl.
  - rewrite list_lookup_middle by reflexivity.
    rewrite lookup_app_l by exact Hc. rewrite Heq.
    rewrite length_app. simpl. repeat split; lia.
  - repeat split; assumption.
Qed.

(** A write to the array nextListeners refers to, when currentListeners
    refers to another one. *)
Lemma write_sequences w new :
  valid_refs w -> nextListeners w <> currentListeners w ->
  let w' := set_arrays (<[nextListeners w := new]> (arrays w)) w in
  pending w' = new /\
  committed_listeners w' = committed_listeners w /\
  valid_refs w'.
Proof.
  intros [Hn Hc] Hne.
  unfold pending, committed_listeners, valid_refs, deref; simpl.
  rewrite list_lookup_insert_eq by exact Hn.
  rewrite list_lookup_insert_ne by exact Hne.
  rewrite length_insert. repeat split; assumption.
Qed.

(** subscribe appends the listener to the pending sequence and leaves the
    committed one alone. *)
Lemma subscribe_sequences l w h w' :
  valid_refs w ->
  subscribe (VFun l) w = (Ok h, w') ->
  pending w' = pending w ++ [l] /\
  committed_listeners w' = committed_listeners w /\
  currentListeners w' = currentListeners w /\
  subscriptions w' = subscriptions w ++ [(l, true)] /\
  h = length (subscriptions w) /\
  valid_refs w'.
Proof.
  intros Hv. unfold subscribe.
  destruct (isDispatching w); [discriminate|].
  intros [= <- <-].
  destruct (ensure_sequences w Hv) as (Hp & Hc & Hcur & Hv1 & Hne).
  set (w1 := ensureCanMutateNextListeners w) in *.
  destruct (write_sequences w1 (deref w1 (nextListeners w1) ++ [l]) Hv1 Hne)
    as (Hp2 & Hc2 & Hv2).
  assert (subscriptions w1 = subscriptions w) as Hs.
  { unfold w1, ensureCanMutateNextListeners.
    destruct (Nat.eqb _ _); reflexivity. }
  split; [rewrite <- Hp; exact Hp2|].
  split; [rewrite <- Hc; exact Hc2|].
  split; [exact Hcur|].
  split; [simpl; rewrite Hs; reflexivity|].
  split; [simpl; rewrite Hs; reflexivity|].
  exact Hv2.
Qed.

(** A first call of an unsubscribe function removes from the pending
    sequence what indexOf and splice find, and leaves the committed one
    alone. *)
Lemma unsubscribe_sequences h l w :
  valid_refs w -> isDispatching w = false ->
  subscriptions w !! h = Some (l, true) ->
  exists w',
    unsubscribe h w = (Ok tt, w') /\
    pending w' = splice1 (indexOf l (pending w)) (pending w) /\
    committed_listeners w' = committed_listeners w /\
    currentListeners w' = currentListeners w /\
    subscriptions w' = <[h := (l, false)]> (subscriptions w) /\
    valid_refs w'.
Proof.
  intros Hv Hd Hh. unfold unsubscribe. rewrite Hh. simpl. rewrite Hd.
  eexists. split; [reflexivity|].
  set (w0 := set_subscriptions _ w).
  assert (valid_refs w0) as Hv0 by exact Hv.
  destruct (ensure_sequences w0 Hv0) as (Hp & Hc & Hcur & Hv1 & Hne).
  set (w1 := ensureCanMutateNextListeners w0) in *.
  destruct (write_sequences w1
              (splice1 (indexOf l (deref w1 (nextListeners w1)))
                 (deref w1 (nextListeners w1))) Hv1 Hne)
    as (Hp2 & Hc2 & Hv2).
  assert (subscriptions w1 = subscriptions w0) as Hs.
  { unfold w1, ensureCanMutateNextListeners.
    destruct (Nat.eqb _ _); reflexivity. }
  split; [rewrite Hp2; fold (pending w1); rewrite Hp; reflexivity|].
  split; [transitivity (committed_listeners w1); [exact Hc2|exact Hc]|].
  split; [exact Hcur|].
  split; [simpl; rewrite Hs; reflexivity|].
  exact Hv2.
Qed.

Lemma subscribe_well_formed listener w r w' :
  well_formed w -> subscribe listener w = (r, w') -> well_formed w'.
Proof.
  intros [Hv Hcount] Hsub.
  destruct listener as [| | | | |l|]; try (injection Hsub as _ <-; split; assumption).
  destruct (isDispatching w) eqn:Hd.
  { unfold subscribe in Hsub. rewrite Hd in Hsub.
    injection Hsub as _ <-. split; assumption. }
  destruct r as [h|e]; [|unfold subscribe in Hsub; rewrite Hd in Hsub; discriminate].
  destruct (subscribe_sequences l w h w' Hv Hsub)
    as (Hp & _ & _ & Hs & _ & Hv').
  split; [exact Hv'|]. intros l'. rewrite Hp, Hs, count_occ_app. simpl.
  destruct (Nat.eq_dec l l') as [->|Hne].
  - rewrite live_app_eq, Hcount. lia.
  - rewrite live_app_ne by congruence. rewrite Hcount. lia.
Qed.

Lemma unsubscribe_well_formed handle w r w' :
  well_formed w -> unsubscribe handle w = (r, w') -> well_formed w'.
Proof.
  intros [Hv Hcount] Hun.
  destruct (subscriptions w !! handle) as [[l [|]]|] eqn:Hh;
    try (unfold unsubscribe in Hun; rewrite Hh in Hun;
         injection Hun as _ <-; split; assumption).
  destruct (isDispatching w) eqn:Hd.
  { unfold unsubscribe in Hun. rewrite Hh in Hun. simpl in Hun.
    rewrite Hd in Hun. injection Hun as _ <-. split; assumption. }
  destruct (unsubscribe_sequences handle l w Hv Hd Hh)
    as (w'' & Hun' & Hp & _ & _ & Hs & Hv').
  rewrite Hun in Hun'. injection Hun' as _ ->.
  split; [exact Hv'|]. intros l'. rewrite Hp, Hs.
  pose proof (live_positive handle l _ Hh) as Hpos.
  rewrite splice1_indexOf by (rewrite Hcount; exact Hpos).
  destruct (Nat.eq_dec l l') as [<-|Hne].
  - rewrite count_remove_first_eq, Hcount.
    rewrite <- (live_revoke_eq handle l _ Hh). reflexivity.
  - rewrite count_remove_first_ne by exact Hne.
    rewrite live_revoke_ne by assumption. apply Hcount.
Qed.

Section WellFormed.
Variable fn : nat -> list Value -> prog Value.
Variable ActionTypes_INIT ActionTypes_REPLACE : string.
Variable enhancers : nat -> StoreCreator -> StoreCreator.

Local Abbreviation run := (run fn ActionTypes_REPLACE).
Local Abbreviation dispatch := (dispatch fn ActionTypes_REPLACE).

Lemma closed_well_formed : closed well_formed.
Proof.
  constructor.
  - intros. eapply subscribe_well_formed; eauto.
  - intros. eapply unsubscribe_well_formed; eauto.
  - intros w HP _. exact HP.
  - intros w HP _. exact HP.
  - intros w a v [[Hn Hc] Hcount] _.
    split; [split; simpl; assumption|exact Hcount].
  - intros w l HP _. exact HP.
  - intros w f HP. exact HP.
Qed.

(** Every world the store reaches is well formed. *)
Lemma run_keeps_well_formed fuel : keeps well_formed (run fuel).
Proof. apply run_keeps. apply closed_well_formed. Qed.

Lemma dispatch_keeps_well_formed fuel action w r w' :
  well_formed w -> dispatch fuel action w = Some (r, w') -> well_formed w'.
Proof.
  intros HP Hdis.
  exact (proj1 (dispatch_with_keeps fn well_formed closed_well_formed
                  (run fuel) (run_keeps_well_formed fuel) fuel _ _ _ _ HP Hdis)).
Qed.

Lemma fresh_store_well_formed r p w : well_formed (fresh_store r p w).
Proof.
  split; [split; simpl; lia|]. intros l. reflexivity.
Qed.

(** The store createStore itself builds is well formed and idle. *)
Lemma createStore_well_formed fuel r p w so w0 :
  is_function p = false ->
  createStore fn ActionTypes_INIT ActionTypes_REPLACE enhancers (S fuel)
    [VFun r; p] w = Some (Ok so, w0) ->
  well_formed w0 /\ isDispatching w0 = false.
Proof.
  intros Hp. simpl. unfold createStore_body. simpl. rewrite Hp. simpl.
  destruct (dispatch fuel _ _) as [[[v|e] w2]|] eqn:Hdis; try discriminate.
  intros [= _ <-]. split.
  - eapply dispatch_keeps_well_formed; [|exact Hdis].
    apply (fresh_store_well_formed r p w).
  - apply dispatch_keeps_flag in Hdis. exact Hdis.
Qed.
End WellFormed.

(** ** Quiet consumer code *)

Section Quiet.
Variable fn : nat -> list Value -> prog Value.
Variable ActionTypes_REPLACE : string.

Local Abbreviation run := (run fn ActionTypes_REPLACE).
Local Abbreviation dispatch := (dispatch fn ActionTypes_REPLACE).

Lemma ensure_frame w :
  let w1 := ensureCanMutateNextListeners w in
  currentState w1 = currentState w /\ currentReducer w1 = currentReducer w /\
  invoked w1 = invoked w.
Proof.
  simpl. unfold ensureCanMutateNextListeners.
  destruct (Nat.eqb _ _); repeat split.
Qed.

Lemma subscribe_frame listener w r w' :
  subscribe listener w = (r, w') ->
  currentState w' = currentState w /\ currentReducer w' = currentReducer w /\
  invoked w' = invoked w.
Proof.
  unfold subscribe.
  destruct listener; try (intros [= <- <-]; repeat split).
  destruct (isDispatching w); intros [= <- <-]; [repeat split|].
  simpl. apply ensure_frame.
Qed.

Lemma unsubscribe_frame handle w r w' :
  unsubscribe handle w = (r, w') ->
  currentState w' = currentState w /\ currentReducer w' = currentReducer w /\
  invoked w' = invoked w.
Proof.
  unfold unsubscribe.
  destruct (subscriptions w !! handle) as [[l [|]]|]; simpl;
    try (intros [= <- <-]; repeat split).
  destruct (isDispatching w); intros [= <- <-]; [repeat split|].
  simpl. apply (ensure_frame (set_subscriptions _ w)).
Qed.

(** Quiet code changes neither the state, nor the reducer, nor the history
    of listener calls. *)
Lemma run_quiet_frame fuel : forall R (p : prog R) w r w',
  quiet p ->
  run fuel R p w = Some (r, w') ->
  currentState w' = currentState w /\ currentReducer w' = currentReducer w /\
  invoked w' = invoked w.
Proof.
  induction fuel as [|fuel IH]; intros R p w r w' Hq Hrun; [discriminate|].
  destruct Hq as [x|e|k Hk|l k Hk|h k Hk]; simpl in Hrun.
  - injection Hrun as _ <-. repeat split.
  - injection Hrun as _ <-. repeat split.
  - eapply IH; [apply Hk|exact Hrun].
  - destruct (subscribe l w) as [r1 w1] eqn:Hs.
    apply subscribe_frame in Hs as (H1 & H2 & H3).
    apply IH in Hrun as (H4 & H5 & H6); [|apply Hk].
    repeat split; congruence.
  - destruct (unsubscribe h w) as [r1 w1] eqn:Hs.
    apply unsubscribe_frame in Hs as (H1 & H2 & H3).
    apply IH in Hrun as (H4 & H5 & H6); [|apply Hk].
    repeat split; congruence.
Qed.

Lemma subscribe_dispatched listener w r w' :
  subscribe listener w = (r, w') -> dispatched w' = dispatched w.
Proof.
  unfold subscribe.
  destruct listener; try (intros [= <- <-]; reflexivity).
  destruct (isDispatching w); intros [= <- <-]; [reflexivity|].
  simpl. unfold ensureCanMutateNextListeners.
  destruct (Nat.eqb _ _); reflexivity.
Qed.

Lemma unsubscribe_dispatched handle w r w' :
  unsubscribe handle w = (r, w') -> dispatched w' = dispatched w.
Proof.
  unfold unsubscribe.
  destruct (subscriptions w !! handle) as [[l [|]]|]; simpl;
    try (intros [= <- <-]; reflexivity).
  destruct (isDispatching w); intros [= <- <-]; [reflexivity|].
  simpl. unfold ensureCanMutateNextListeners. simpl.
  destruct (Nat.eqb _ _); reflexivity.
Qed.

(** Quiet code carries out no transition. *)
Lemma run_quiet_dispatched fuel : forall R (p : prog R) w r w',
  quiet p ->
  run fuel R p w = Some (r, w') ->
  dispatched w' = dispatched w.
Proof.
  induction fuel as [|fuel IH]; intros R p w r w' Hq Hrun; [discriminate|].
  destruct Hq as [x|e|k Hk|l k Hk|h k Hk]; simpl in Hrun.
  - injection Hrun as _ <-. reflexivity.
  - injection Hrun as _ <-. reflexivity.
  - eapply IH; [apply Hk|exact Hrun].
  - destruct (subscribe l w) as [r1 w1] eqn:Hs.
    apply subscribe_dispatched in Hs as <-.
    eapply IH; [apply Hk|exact Hrun].
  - destruct (unsubscribe h w) as [r1 w1] eqn:Hs.
    apply unsubscribe_dispatched in Hs as <-.
    eapply IH; [apply Hk|exact Hrun].
Qed.

(** Quiet code always returns, given fuel enough. *)
Lemma run_quiet_returns R (p : prog R) :
  quiet p ->
  forall w, exists n r w', forall m, n <= m -> run m R p w = Some (r, w').
Proof.
  induction 1 as [x|e|k Hk IH|l k Hk IH|h k Hk IH]; intros w.
  - exists 1, (Ok x), w. intros [|m] Hm; [lia|reflexivity].
  - exists 1, (Err e), w. intros [|m] Hm; [lia|reflexivity].
  - destruct (IH (getState w) w) as (n & r & w' & Hn).
    exists (S n), r, w'. intros [|m] Hm; [lia|]. simpl. apply Hn. lia.
  - destruct (subscribe l w) as [r1 w1] eqn:Hs.
    destruct (IH r1 w1) as (n & r & w' & Hn).
    exists (S n), r, w'. intros [|m] Hm; [lia|]. simpl. rewrite Hs.
    apply Hn. lia.
  - destruct (unsubscribe h w) as [r1 w1] eqn:Hs.
    destruct (IH r1 w1) as (n & r & w' & Hn).
    exists (S n), r, w'. intros [|m] Hm; [lia|]. simpl. rewrite Hs.
    apply Hn. lia.
Qed.

Hypothesis quiet_listeners : forall l, quiet (fn l []).

(** With quiet listeners, a round that calls the whole snapshot adds
    exactly the snapshot to the history, and leaves the state alone. *)
Lemma invoke_snapshot_quiet m n : forall snapshot w r w',
  invoke_snapshot fn (run m) n snapshot w = Some (r, w') ->
  currentState w' = currentState w /\ currentReducer w' = currentReducer w /\
  (r = Ok tt -> invoked w' = invoked w ++ snapshot).
Proof.
  induction n as [|n IH]; intros snapshot w r w' Hinv; [discriminate|].
  destruct snapshot as [|l rest]; cbn [invoke_snapshot] in Hinv.
  - injection Hinv as <- <-. rewrite app_nil_r. repeat split.
  - destruct (run m Value (fn l []) _) as [[[v|e] w1]|] eqn:Hrun;
      [| |discriminate].
    + apply run_quiet_frame in Hrun as (H1 & H2 & H3); [|apply quiet_listeners].
      simpl in H1, H2, H3.
      apply IH in Hinv as (H4 & H5 & H6).
      repeat split; try congruence.
      intros Hr. rewrite (H6 Hr), H3. rewrite <- app_assoc. reflexivity.
    + apply run_quiet_frame in Hrun as (H1 & H2 & H3); [|apply quiet_listeners].
      injection Hinv as <- <-. repeat split; try assumption. discriminate.
Qed.

Lemma invoke_snapshot_quiet_dispatched m n : forall snapshot w r w',
  invoke_snapshot fn (run m) n snapshot w = Some (r, w') ->
  dispatched w' = dispatched w.
Proof.
  induction n as [|n IH]; intros snapshot w r w' Hinv; [discriminate|].
  destruct snapshot as [|l rest]; cbn [invoke_snapshot] in Hinv.
  - injection Hinv as _ <-. reflexivity.
  - destruct (run m Value (fn l []) _) as [[[v|e] w1]|] eqn:Hrun;
      [| |discriminate].
    + apply run_quiet_dispatched in Hrun; [|apply quiet_listeners].
      apply IH in Hinv. rewrite Hinv, Hrun. reflexivity.
    + apply run_quiet_dispatched in Hrun; [|apply quiet_listeners].
      injection Hinv as _ <-. exact Hrun.
Qed.

(** With quiet listeners, calling a snapshot always returns, given fuel
    enough. *)
Lemma invoke_snapshot_quiet_returns snapshot :
  forall w, exists n r w',
    forall m k, n <= m -> n <= k ->
      invoke_snapshot fn (run m) k snapshot w = Some (r, w').
Proof.
  induction snapshot as [|l rest IH]; intros w.
  - exists 1, (Ok tt), w. intros m [|k] Hm Hk; [lia|reflexivity].
  - destruct (run_quiet_returns Value (fn l []) (quiet_listeners l)
                (set_invoked (invoked w ++ [l]) w)) as (n1 & r1 & w1 & H1).
    destruct r1 as [v|e].
    + destruct (IH w1) as (n2 & r2 & w2 & H2).
      exists (S (Nat.max n1 n2)), r2, w2. intros m [|k] Hm Hk; [lia|].
      cbn [invoke_snapshot]. rewrite H1 by lia. apply H2; lia.
    + exists (S n1), (Err e), w1. intros m [|k] Hm Hk; [lia|].
      cbn [invoke_snapshot]. rewrite H1 by lia. reflexivity.
Qed.
End Quiet.

(** ** Rounds *)

Section RoundFacts.
Variable fn : nat -> list Value -> prog Value.
Variable ActionTypes_REPLACE : string.

Local Abbreviation run := (run fn ActionTypes_REPLACE).
Local Abbreviation dispatch := (dispatch fn ActionTypes_REPLACE).

(** The path of a round behind the guards. *)
Lemma dispatch_snapshot_idle exec fuel action w :
  negb (isPlainObject action) = false ->
  is_undefined (get action "type") = false ->
  isDispatching w = false ->
  dispatch_snapshot fn exec fuel action w =
  match exec Value (fn (currentReducer w) [currentState w; action])
          (set_isDispatching true w) with
  | None => None
  | Some (Err e, w2) => Some (Err e, set_isDispatching false w2)
  | Some (Ok v, w2) =>
      match invoke_snapshot fn exec fuel (pending w) (committed action v w2) with
      | None => None
      | Some (Err e, w5) => Some (Err e, w5)
      | Some (Ok _, w5) => Some (Ok action, w5)
      end
  end.
Proof.
  intros H1 H2 H3. unfold dispatch_snapshot. rewrite H1, H2, H3. reflexivity.
Qed.

Lemma dispatch_quiet_history fuel action w w' :
  (forall l, quiet (fn l [])) ->
  well_formed w ->
  dispatch fuel action w = Some (Ok action, w') ->
  invoked w' = invoked w ++ pending w.
Proof.
  intros Hq [[Hn _] _].
  rewrite dispatch_is_dispatch_snapshot by exact Hn.
  unfold dispatch_snapshot.
  destruct (negb (isPlainObject action)); [discriminate|].
  destruct (is_undefined _); [discriminate|].
  destruct (isDispatching w); [discriminate|].
  destruct (run fuel Value _ _) as [[[v|e] w2]|] eqn:Hred;
    [|discriminate|discriminate].
  apply run_dispatching_frame in Hred; [|reflexivity].
  destruct Hred as (_ & _ & _ & _ & _ & _ & _ & Hi & _). simpl in Hi.
  destruct (invoke_snapshot _ _ _ _ _) as [[[u|e] w5]|] eqn:Hinv;
    [|discriminate|discriminate].
  intros [= <-].
  apply (invoke_snapshot_quiet fn ActionTypes_REPLACE Hq) in Hinv
    as (_ & _ & Hlog).
  destruct u. rewrite (Hlog eq_refl). simpl. rewrite Hi. reflexivity.
Qed.

(** C2. A round calls the listeners of the pending sequence as it stood
    when dispatch was called, in order (up to one that throws, which ends
    the round): the loop of dispatch, which reads the array anew at every
    turn, does what calling a copy taken beforehand does; with listeners
    that do not themselves dispatch, a round that returns has added that
    sequence, and nothing else, to the history of calls.  A subscribe or a
    first unsubscribe, at any time, writes to the pending sequence only and
    leaves the committed one as it is, so that it shows in the rounds that
    start afterwards; a listener with no subscription left is not in the
    pending sequence; and all this holds again in every world reached. *)
Theorem round_uses_snapshot fuel action w :
  well_formed w ->
  dispatch fuel action w = dispatch_snapshot fn (run fuel) fuel action w /\
  ((forall l, quiet (fn l [])) ->
   forall w', dispatch fuel action w = Some (Ok action, w') ->
              invoked w' = invoked w ++ pending w) /\
  (forall l h w',
     subscribe (VFun l) w = (Ok h, w') ->
     pending w' = pending w ++ [l] /\
     committed_listeners w' = committed_listeners w /\
     currentListeners w' = currentListeners w) /\
  (forall h l,
     isDispatching w = false -> subscriptions w !! h = Some (l, true) ->
     exists w',
       unsubscribe h w = (Ok tt, w') /\
       pending w' = remove_first l (pending w) /\
       committed_listeners w' = committed_listeners w /\
       currentListeners w' = currentListeners w /\
       subscriptions w' !! h = Some (l, false)) /\
  (forall l, (forall h, subscriptions w !! h <> Some (l, true)) ->
             l ∉ pending w) /\
  (forall n R (p : prog R) r w',
     run n R p w = Some (r, w') -> well_formed w').
Proof.
  intros Hwf. pose proof Hwf as [[Hn Hc] Hcount].
  repeat apply conj.
  - apply dispatch_is_dispatch_snapshot. exact Hn.
  - intros Hq w'. apply dispatch_quiet_history; assumption.
  - intros l h w' Hsub.
    destruct (subscribe_sequences l w h w' (conj Hn Hc) Hsub)
      as (H1 & H2 & H3 & _). auto.
  - intros h l Hd Hh.
    destruct (unsubscribe_sequences h l w (conj Hn Hc) Hd Hh)
      as (w' & H1 & H2 & H3 & H4 & H5 & _).
    exists w'. repeat split; try assumption.
    + rewrite H2. apply splice1_indexOf. rewrite Hcount.
      eapply live_positive. exact Hh.
    + rewrite H5. apply list_lookup_insert_eq.
      eapply lookup_lt_Some. exact Hh.
  - intros l Hno. rewrite list_elem_of_In.
    apply (count_occ_not_In Nat.eq_dec). rewrite Hcount.
    apply live_none. exact Hno.
  - intros n R p r w' Hrun.
    exact (proj1 (run_keeps_well_formed fn ActionTypes_REPLACE n R p w r w'
                    Hwf Hrun)).
Qed.
End RoundFacts.

(** ** The state is the fold of the reducer *)

Section Fold.
Variable fn : nat -> list Value -> prog Value.
Variable ActionTypes_INIT ActionTypes_REPLACE : string.
Variable enhancers : nat -> StoreCreator -> StoreCreator.

Local Abbreviation run := (run fn ActionTypes_REPLACE).
Local Abbreviation dispatch := (dispatch fn ActionTypes_REPLACE).
Local Abbreviation dispatch_all := (dispatch_all fn ActionTypes_REPLACE).

(** The reducer [r] is a pure function [f], and the listeners are quiet. *)
Variable f : Value -> Value -> Value.
Variable r : nat.
Hypothesis reducer_pure : forall s a, fn r [s; a] = Ret (f s a).
Hypothesis quiet_listeners : forall l, quiet (fn l []).

Local Abbreviation steady := (steady r).

Lemma dispatch_pure fuel action w x w' :
  steady w ->
  dispatch fuel action w = Some (Ok x, w') ->
  currentState w' = f (currentState w) action /\
  dispatched w' = dispatched w ++ [action] /\
  steady w'.
Proof.
  intros (Hwf & Hd & Hr) Hdis.
  pose proof (dispatch_keeps_well_formed fn ActionTypes_REPLACE
                fuel action w _ w' Hwf Hdis) as Hwf'.
  pose proof (dispatch_keeps_flag fn ActionTypes_REPLACE
                fuel action w _ w' Hdis) as Hd'.
  rewrite dispatch_is_dispatch_snapshot in Hdis by apply Hwf.
  unfold dispatch_snapshot in Hdis.
  destruct (negb (isPlainObject action)); [discriminate|].
  destruct (is_undefined _); [discriminate|].
  rewrite Hd in Hdis. simpl in Hdis. rewrite Hr, reducer_pure in Hdis.
  destruct fuel as [|fuel]; [discriminate|].
  rewrite run_Ret in Hdis.
  destruct (invoke_snapshot _ _ _ _ _) as [[[u|e] w5]|] eqn:Hinv;
    [|discriminate|discriminate].
  injection Hdis as _ <-.
  pose proof (invoke_snapshot_quiet_dispatched fn ActionTypes_REPLACE
                quiet_listeners _ _ _ _ _ _ Hinv) as Hdsp.
  apply (invoke_snapshot_quiet fn ActionTypes_REPLACE quiet_listeners) in Hinv
    as (Hs & Hred & _).
  simpl in Hs, Hred, Hdsp.
  split; [exact Hs|]. split; [exact Hdsp|].
  split; [exact Hwf'|]. split; congruence.
Qed.

(** With a pure reducer and quiet listeners a dispatch always returns. *)
Lemma dispatch_pure_returns action w :
  steady w ->
  exists n res w', forall m, n <= m -> dispatch m action w = Some (res, w').
Proof.
  intros (Hwf & Hd & Hr).
  destruct (invoke_snapshot_quiet_returns fn ActionTypes_REPLACE quiet_listeners
              (pending w)
              (committed action (f (currentState w) action)
                 (set_isDispatching true w)))
    as (n & res & w' & Hn).
  destruct (negb (isPlainObject action)) eqn:H1.
  { exists 0, (Err E_action_not_plain), w. intros m _.
    unfold dispatch, dispatch_with. rewrite H1. reflexivity. }
  destruct (is_undefined (get action "type")) eqn:H2.
  { exists 0, (Err E_action_type_undefined), w. intros m _.
    unfold dispatch, dispatch_with. rewrite H1, H2. reflexivity. }
  exists (S n), (match res with Ok _ => Ok action | Err e => Err e end), w'.
  intros [|m] Hm; [lia|].
  rewrite dispatch_is_dispatch_snapshot by apply Hwf.
  rewrite dispatch_snapshot_idle by assumption.
  rewrite Hr, reducer_pure, run_Ret. rewrite Hn by lia.
  destruct res; reflexivity.
Qed.

Lemma run_quiet_steady fuel (code : prog unit) w res w' :
  quiet code -> steady w ->
  run fuel unit code w = Some (res, w') ->
  steady w' /\ currentState w' = currentState w /\
  dispatched w' = dispatched w.
Proof.
  intros Hq (Hwf & Hd & Hr) Hrun.
  pose proof (run_quiet_dispatched fn ActionTypes_REPLACE fuel _ _ _ _ _
                Hq Hrun) as Hdsp.
  pose proof (run_keeps_well_formed fn ActionTypes_REPLACE fuel _ _ _ _ _
                Hwf Hrun) as [Hwf' Hd'].
  apply run_quiet_frame in Hrun as (Hs & Hred & _); [|exact Hq].
  split; [|split; [exact Hs|exact Hdsp]].
  split; [exact Hwf'|]. split; congruence.
Qed.

(** A session with quiet code between its dispatches: when every dispatch
    returned normally, the state is the fold of the reducer. *)
Lemma dispatch_all_fold fuel : forall steps w w',
  Forall (fun st => quiet (fst st)) steps ->
  steady w ->
  dispatch_all fuel steps w = Some (Ok tt, w') ->
  currentState w' = fold_left f (map snd steps) (currentState w) /\
  dispatched w' = dispatched w ++ map snd steps /\
  steady w'.
Proof.
  induction steps as [|[code action] rest IH]; intros w w' Hq Hst Hall.
  - injection Hall as <-. rewrite app_nil_r.
    split; [reflexivity|]. split; [reflexivity|exact Hst].
  - apply Forall_cons in Hq as [Hq1 Hq]. simpl in Hq1, Hall.
    destruct (run fuel unit code w) as [[res1 w1]|] eqn:Hrun; [|discriminate].
    destruct (run_quiet_steady _ _ _ _ _ Hq1 Hst Hrun) as (Hst1 & Hs1 & Hd1).
    destruct (dispatch fuel action w1) as [[[x|e] w2]|] eqn:Hdis;
      [|discriminate|discriminate].
    destruct (dispatch_pure _ _ _ _ _ Hst1 Hdis) as (Hs2 & Hd2 & Hst2).
    destruct (IH w2 w' Hq Hst2 Hall) as (Hs & Hd & Hst').
    split; [|split; [|exact Hst']]; simpl.
    + rewrite Hs, Hs2, Hs1. reflexivity.
    + rewrite Hd, Hd2, Hd1, <- app_assoc. reflexivity.
Qed.

(** Such a session always returns, given fuel enough. *)
Lemma dispatch_all_returns : forall steps w,
  Forall (fun st => quiet (fst st)) steps ->
  steady w ->
  exists n res w', forall m, n <= m -> dispatch_all m steps w = Some (res, w').
Proof.
  induction steps as [|[code action] rest IH]; intros w Hq Hst.
  - exists 0, (Ok tt), w. reflexivity.
  - apply Forall_cons in Hq as [Hq1 Hq]. simpl in Hq1.
    destruct (run_quiet_returns fn ActionTypes_REPLACE unit code Hq1 w)
      as (n1 & res1 & w1 & H1).
    destruct (run_quiet_steady n1 code w res1 w1 Hq1 Hst (H1 n1 (le_n _)))
      as [Hst1 _].
    destruct (dispatch_pure_returns action w1 Hst1) as (n2 & res2 & w2 & H2).
    destruct res2 as [x|e].
    + destruct (dispatch_pure n2 action w1 x w2 Hst1 (H2 n2 (le_n _)))
        as (_ & _ & Hst2).
      destruct (IH w2 Hq Hst2) as (n3 & res3 & w3 & H3).
      exists (Nat.max n1 (Nat.max n2 n3)), res3, w3. intros m Hm.
      simpl. rewrite H1, H2 by lia. apply H3. lia.
    + exists (Nat.max n1 n2), (Err e), w2. intros m Hm.
      simpl. rewrite H1, H2 by lia. reflexivity.
Qed.
(** The bootstrap round of createStore. *)
Lemma createStore_bootstrap fuel p w :
  is_function p = false ->
  let init := object_literal (next_addr w) [("type", VStr ActionTypes_INIT)] in
  let w0 := committed init (f p init)
              (set_isDispatching true
                 (set_next_addr (S (next_addr w)) (fresh_store r p w))) in
  createStore fn ActionTypes_INIT ActionTypes_REPLACE enhancers (S (S fuel))
    [VFun r; p] w = Some (Ok base_store, w0).
Proof.
  intros Hp. simpl. unfold createStore_body. simpl. rewrite Hp. simpl.
  unfold dispatch, dispatch_with. simpl. rewrite reducer_pure. reflexivity.
Qed.

End Fold.

Section FoldGeneral.
Variable fn : nat -> list Value -> prog Value.
Variable ActionTypes_REPLACE : string.
Variable f : Value -> Value -> Value.
Variable r : nat.
Hypothesis reducer_pure : forall s a, fn r [s; a] = Ret (f s a).
Hypothesis listeners_no_replace : forall l, no_replace (fn l []).

Local Abbreviation run := (run fn ActionTypes_REPLACE).
Local Abbreviation folds := (folds f).
Local Abbreviation idle_with := (idle_with r).

Lemma folds_refl w : folds w w.
Proof. exists []. rewrite app_nil_r. split; reflexivity. Qed.

Lemma folds_same w w' :
  dispatched w' = dispatched w -> currentState w' = currentState w ->
  folds w w'.
Proof.
  intros Hd Hs. exists []. rewrite app_nil_r. split; assumption.
Qed.

Lemma folds_trans w1 w2 w3 : folds w1 w2 -> folds w2 w3 -> folds w1 w3.
Proof.
  intros (a1 & Hd1 & Hs1) (a2 & Hd2 & Hs2). exists (a1 ++ a2).
  rewrite Hd2, Hd1, Hs2, Hs1, fold_left_app, app_assoc. split; reflexivity.
Qed.

Lemma subscribe_folds listener w res w' :
  idle_with w -> subscribe listener w = (res, w') ->
  folds w w' /\ idle_with w'.
Proof.
  intros [Hd Hr]. unfold subscribe.
  destruct listener;
    try (intros [= <- <-]; split; [apply folds_refl|split; assumption]).
  rewrite Hd. intros [= <- <-].
  unfold ensureCanMutateNextListeners.
  destruct (Nat.eqb _ _);
    (split; [apply folds_same; reflexivity|split; assumption]).
Qed.

Lemma unsubscribe_folds handle w res w' :
  idle_with w -> unsubscribe handle w = (res, w') ->
  folds w w' /\ idle_with w'.
Proof.
  intros [Hd Hr]. unfold unsubscribe.
  destruct (subscriptions w !! handle) as [[l [|]]|]; simpl;
    try (intros [= <- <-]; split; [apply folds_refl|split; assumption]).
  rewrite Hd. intros [= <- <-].
  unfold ensureCanMutateNextListeners. simpl.
  destruct (Nat.eqb _ _);
    (split; [apply folds_same; reflexivity|split; assumption]).
Qed.

Section Step.
(** One more unit of fuel. *)
Variable n : nat.
Hypothesis IH : forall R (p : prog R) w res w',
  no_replace p -> idle_with w ->
  run n R p w = Some (res, w') ->
  folds w w' /\ idle_with w'.

Lemma notify_folds k : forall listeners i w res w',
  idle_with w ->
  notify fn (run n) k listeners i w = Some (res, w') ->
  folds w w' /\ idle_with w'.
Proof.
  induction k as [|k IHk]; intros listeners i w res w' Hidle Hn;
    [discriminate|].
  simpl in Hn.
  destruct (Nat.ltb i (length (deref w listeners))).
  - destruct (run n Value _ _) as [[[v|e] w1]|] eqn:He; [| |discriminate].
    + apply IH in He as [Hf1 Hidle1];
        [|apply listeners_no_replace|exact Hidle].
      apply IHk in Hn as [Hf2 Hidle2]; [|exact Hidle1].
      split; [|exact Hidle2].
      eapply folds_trans; [exact Hf1|exact Hf2].
    + apply IH in He as [Hf1 Hidle1];
        [|apply listeners_no_replace|exact Hidle].
      injection Hn as _ <-. split; assumption.
  - injection Hn as _ <-. split; [apply folds_refl|exact Hidle].
Qed.

Lemma dispatch_folds action w res w' :
  idle_with w ->
  dispatch_with fn (run n) n action w = Some (res, w') ->
  folds w w' /\ idle_with w'.
Proof.
  intros [Hd Hr] Hdis. unfold dispatch_with in Hdis.
  destruct (negb (isPlainObject action));
    [injection Hdis as _ <-; split; [apply folds_refl|split; assumption]|].
  destruct (is_undefined _);
    [injection Hdis as _ <-; split; [apply folds_refl|split; assumption]|].
  rewrite Hd in Hdis.
  change (currentReducer (set_isDispatching true w)) with (currentReducer w)
    in Hdis.
  rewrite Hr, reducer_pure in Hdis.
  destruct (run n Value (Ret _) _) as [[res1 w1]|] eqn:Hret; [|discriminate].
  apply run_Ret_inv in Hret as [-> ->].
  destruct (notify fn _ _ _ _ _) as [[[u|e] w5]|] eqn:Hn;
    [| |discriminate].
  - injection Hdis as _ <-.
    apply notify_folds in Hn as [Hf Hidle]; [|split; [reflexivity|exact Hr]].
    split; [|exact Hidle].
    eapply folds_trans; [|exact Hf].
    exists [action]. split; reflexivity.
  - injection Hdis as _ <-.
    apply notify_folds in Hn as [Hf Hidle]; [|split; [reflexivity|exact Hr]].
    split; [|exact Hidle].
    eapply folds_trans; [|exact Hf].
    exists [action]. split; reflexivity.
Qed.
End Step.

(** Whatever such code does, nested dispatches included, the state follows
    the fold of the reducer over the actions dispatched. *)
Lemma run_folds n : forall R (p : prog R) w res w',
  no_replace p -> idle_with w ->
  run n R p w = Some (res, w') ->
  folds w w' /\ idle_with w'.
Proof.
  induction n as [|n IH]; intros R p w res w' Hp Hidle Hrun; [discriminate|].
  destruct Hp as [x|e|k Hk|l k Hk|h k Hk|a k Hk]; simpl in Hrun.
  - injection Hrun as _ <-. split; [apply folds_refl|exact Hidle].
  - injection Hrun as _ <-. split; [apply folds_refl|exact Hidle].
  - eapply IH; [apply Hk|exact Hidle|exact Hrun].
  - destruct (subscribe l w) as [r1 w1] eqn:Hs.
    apply subscribe_folds in Hs as [Hf1 Hidle1]; [|exact Hidle].
    apply IH in Hrun as [Hf2 Hidle2]; [|apply Hk|exact Hidle1].
    split; [eapply folds_trans; eassumption|exact Hidle2].
  - destruct (unsubscribe h w) as [r1 w1] eqn:Hs.
    apply unsubscribe_folds in Hs as [Hf1 Hidle1]; [|exact Hidle].
    apply IH in Hrun as [Hf2 Hidle2]; [|apply Hk|exact Hidle1].
    split; [eapply folds_trans; eassumption|exact Hidle2].
  - destruct (dispatch_with fn _ _ _ _) as [[r1 w1]|] eqn:Hdis; [|discriminate].
    apply (dispatch_folds n IH) in Hdis as [Hf1 Hidle1]; [|exact Hidle].
    apply IH in Hrun as [Hf2 Hidle2]; [|apply Hk|exact Hidle1].
    split; [eapply folds_trans; eassumption|exact Hidle2].
Qed.
End FoldGeneral.

Section FoldTheorem.
Variable fn : nat -> list Value -> prog Value.
Variable ActionTypes_INIT ActionTypes_REPLACE : string.
Variable enhancers : nat -> StoreCreator -> StoreCreator.
Variable f : Value -> Value -> Value.
Variable r : nat.
Hypothesis reducer_pure : forall s a, fn r [s; a] = Ret (f s a).

Local Abbreviation run := (run fn ActionTypes_REPLACE).
Local Abbreviation dispatch_all := (dispatch_all fn ActionTypes_REPLACE).

(** C1. createStore with a pure reducer leaves the state at the reducer
    applied to the preloaded state and the INIT action.  From there,
    whatever code that does not replace the reducer does (listeners that
    dispatch included), getState returns the left fold of the reducer
    over the actions dispatched since, in the order of their transitions.
    In particular, after a session of dispatches that all returned
    normally, with code between them and listeners that do not themselves
    dispatch, the actions dispatched are those of the session and getState
    returns the fold over them; and such a session returns, given fuel
    enough. *)
Theorem getState_is_fold p w :
  is_function p = false ->
  let init := object_literal (next_addr w) [("type", VStr ActionTypes_INIT)] in
  exists w0,
    (forall fuel,
       createStore fn ActionTypes_INIT ActionTypes_REPLACE enhancers
         (S (S fuel)) [VFun r; p] w = Some (Ok base_store, w0)) /\
    getState w0 = Ok (f p init) /\
    dispatched w0 = [init] /\
    ((forall l, no_replace (fn l [])) ->
     forall fuel R (code : prog R) res w',
       no_replace code ->
       run fuel R code w0 = Some (res, w') ->
       exists acts,
         dispatched w' = init :: acts /\
         getState w' = Ok (fold_left f acts (f p init))) /\
    ((forall l, quiet (fn l [])) ->
     forall steps, Forall (fun st => quiet (fst st)) steps ->
       (exists n res w',
          forall m, n <= m -> dispatch_all m steps w0 = Some (res, w')) /\
       (forall m w',
          dispatch_all m steps w0 = Some (Ok tt, w') ->
          dispatched w' = init :: map snd steps /\
          getState w' = Ok (fold_left f (map snd steps) (f p init)))).
Proof.
  intros Hp init.
  eexists. split;
    [intros fuel;
     apply (createStore_bootstrap fn ActionTypes_INIT ActionTypes_REPLACE
              enhancers f r reducer_pure); exact Hp|].
  set (w0 := committed _ _ _).
  split; [reflexivity|]. split; [reflexivity|]. split.
  - intros Hl fuel R code res w' Hcode Hrun.
    destruct (run_folds fn ActionTypes_REPLACE f r reducer_pure Hl fuel R code
                w0 res w' Hcode (conj eq_refl eq_refl) Hrun)
      as [(acts & Hd & Hs) [Hidle _]].
    exists acts. split; [exact Hd|].
    unfold getState. rewrite Hidle, Hs. reflexivity.
  - intros Hq steps Hsteps.
    assert (steady r w0) as Hst.
    { split; [|split; reflexivity].
      exact (proj1 (createStore_well_formed fn ActionTypes_INIT
                      ActionTypes_REPLACE enhancers 1 r p w base_store w0 Hp
                      (createStore_bootstrap fn ActionTypes_INIT
                         ActionTypes_REPLACE enhancers f r reducer_pure
                         0 p w Hp))). }
    split.
    + apply (dispatch_all_returns fn ActionTypes_REPLACE f r reducer_pure Hq);
        assumption.
    + intros m w' Hall.
      destruct (dispatch_all_fold fn ActionTypes_REPLACE f r reducer_pure Hq
                  m steps w0 w' Hsteps Hst Hall) as (Hs & Hdsp & _ & Hd & _).
      split; [exact Hdsp|].
      unfold getState. rewrite Hd, Hs. reflexivity.
Qed.
End FoldTheorem.

(** * The concrete consumer *)

Lemma example_listeners_quiet : forall l, quiet (Example.fn l []).
Proof.
  intros l.
  do 11 (destruct l as [|l]; [repeat (constructor; intros)|]).
  constructor.
Qed.

Lemma example_session_quiet :
  Forall (fun st => quiet (fst st)) Example.session.
Proof. repeat (constructor; intros). Qed.

Lemma example_subscribed_well_formed : well_formed Example.subscribed.
Proof.
  apply (subscribe_well_formed (VFun 10) Example.store1 (Ok 0)).
  - split; [split; simpl; lia|]. intros l. reflexivity.
  - reflexivity.
Qed.

Lemma example_listeners_no_replace : forall l, no_replace (Example.fn2 l []).
Proof.
  intros l.
  do 13 (destruct l as [|l];
         [repeat first
            [ constructor; intros
            | match goal with
              | |- no_replace (match ?x with _ => _ end) => destruct x
              end ]|]).
  constructor.
Qed.

Lemma example_nested_session_no_replace : no_replace Example.nested_session.
Proof.
  unfold Example.nested_session, finish.
  repeat first
    [ constructor; intros
    | match goal with
      | |- no_replace (match ?x with _ => _ end) => destruct x
      end ].
Qed.

(** The scenarios of the specification, evaluated. *)

Example example_store1 :
  createStore Example.fn Example.INIT Example.REPLACE Example.enhancers 3
    [VFun 1] Example.nothing = Some (Ok base_store, Example.store1).
Proof. vm_compute. reflexivity. Qed.

Example example_store2 :
  createStore Example.fn Example.INIT Example.REPLACE Example.enhancers 3
    [VFun 2] Example.nothing = Some (Ok base_store, Example.store2).
Proof. vm_compute. reflexivity. Qed.

Example example_subscribed :
  subscribe (VFun 10) Example.store1 = (Ok 0, Example.subscribed).
Proof. reflexivity. Qed.

Example example_after_round :
  dispatch Example.fn Example.REPLACE 6 Example.inc Example.subscribed
  = Some (Ok Example.inc, Example.after_round).
Proof. vm_compute. reflexivity. Qed.

Example example_after_nested :
  run Example.fn2 Example.REPLACE 10 Value Example.nested_session Example.store1
  = Some (Ok Example.inc, Example.after_nested).
Proof. vm_compute. reflexivity. Qed.

Example scenario_two_increments :
  match dispatch_all Example.fn Example.REPLACE 6 Example.session
          Example.store1 with
  | Some (Ok _, w) => getState w = Ok (VNum 2)
  | _ => False
  end.
Proof. vm_compute. reflexivity. Qed.

Example scenario_listener_swaps_itself :
  match dispatch Example.fn Example.REPLACE 6 Example.inc Example.subscribed with
  | Some (Ok _, w) =>
      invoked w = [10] /\ pending w = [11] /\
      match dispatch Example.fn Example.REPLACE 6 Example.inc w with
      | Some (Ok _, w') => invoked w' = [10; 11]
      | _ => False
      end
  | _ => False
  end.
Proof. vm_compute. repeat split. Qed.

Example scenario_reducer_throws :
  match dispatch Example.fn Example.REPLACE 6 Example.boom Example.store2 with
  | Some (Err e, w) =>
      e = E_user (VStr "boom") /\ w = Example.store2 /\
      match dispatch Example.fn Example.REPLACE 6 Example.inc w with
      | Some (Ok a, w') => a = Example.inc /\ getState w' = Ok (VNum 1)
      | _ => False
      end
  | _ => False
  end.
Proof. vm_compute. repeat split. Qed.

Example scenario_nested_dispatch :
  match dispatch Example.fn Example.REPLACE 6 Example.nest Example.store2 with
  | Some (Err e, w) =>
      e = E_reducers_may_not_dispatch /\ isDispatching w = false /\
      match dispatch Example.fn Example.REPLACE 6 Example.inc w with
      | Some (Ok a, w') => a = Example.inc /\ getState w' = Ok (VNum 1)
      | _ => False
      end
  | _ => False
  end.
Proof. vm_compute. repeat split. Qed.

Example scenario_middleware_dispatches_too_early :
  match applyMiddleware Example.fn Example.REPLACE 5 [Example.hasty]
          (createStore Example.fn Example.INIT Example.REPLACE Example.enhancers 3)
          [VFun 1] Example.nothing with
  | Some (Err e, _) => e = E_dispatch_while_constructing
  | _ => False
  end.
Proof. vm_compute. reflexivity. Qed.

Example scenario_middleware_forwards :
  match applyMiddleware Example.fn Example.REPLACE 5 [Example.thunk]
          (createStore Example.fn Example.INIT Example.REPLACE Example.enhancers 3)
          [VFun 1] Example.nothing with
  | Some (Ok store, w) =>
      match run Example.fn Example.REPLACE 10 Value
              (so_dispatch store [VFun 99]) w with
      | Some (Ok a, w') => a = Example.inc /\ getState w' = Ok (VNum 1)
      | _ => False
      end
  | _ => False
  end.
Proof. vm_compute. repeat split. Qed.

(** The theorems applied to the concrete consumer. *)

Lemma getState_is_fold_witness :
  (exists w0,
     (forall fuel,
        createStore Example.fn Example.INIT Example.REPLACE Example.enhancers
          (S (S fuel)) [VFun 1; VUndefined] Example.nothing
        = Some (Ok base_store, w0)) /\
     getState w0 = Ok (VNum 0) /\
     (exists n res w',
        forall m, n <= m ->
          dispatch_all Example.fn Example.REPLACE m Example.session w0
          = Some (res, w')) /\
     (forall m w',
        dispatch_all Example.fn Example.REPLACE m Example.session w0
        = Some (Ok tt, w') ->
        dispatched w'
        = [Example.action 100 Example.INIT; Example.inc; Example.inc] /\
        getState w' = Ok (VNum 2))) /\
  (exists acts,
     dispatched Example.after_nested = Example.action 100 Example.INIT :: acts /\
     getState Example.after_nested
     = Ok (fold_left Example.counter acts (VNum 0))).
Proof.
  split.
  - destruct (getState_is_fold Example.fn Example.INIT Example.REPLACE
                Example.enhancers Example.counter 1 (fun s a => eq_refl)
                VUndefined Example.nothing eq_refl)
      as (w0 & H1 & H2 & _ & _ & H5).
    destruct (H5 example_listeners_quiet Example.session example_session_quiet)
      as [H6 H7].
    exists w0. exact (conj H1 (conj H2 (conj H6 H7))).
  - destruct (getState_is_fold Example.fn2 Example.INIT Example.REPLACE
                Example.enhancers Example.counter 1 (fun s a => eq_refl)
                VUndefined Example.nothing eq_refl)
      as (w0 & H1 & _ & _ & H4 & _).
    assert (w0 = Example.store1) as ->.
    { specialize (H1 1). vm_compute in H1. injection H1 as <-. reflexivity. }
    exact (H4 example_listeners_no_replace 10 Value Example.nested_session
             (Ok Example.inc) Example.after_nested
             example_nested_session_no_replace example_after_nested).
Defined.

Lemma round_uses_snapshot_witness :
  dispatch Example.fn Example.REPLACE 6 Example.inc Example.subscribed
  = dispatch_snapshot Example.fn (run Example.fn Example.REPLACE 6) 6
      Example.inc Example.subscribed /\
  invoked Example.after_round = [10] /\
  (forall l, (forall h, subscriptions Example.subscribed !! h <> Some (l, true)) ->
             l ∉ pending Example.subscribed).
Proof.
  pose proof (round_uses_snapshot Example.fn Example.REPLACE 6 Example.inc
                Example.subscribed example_subscribed_well_formed)
    as (H1 & H2 & _ & _ & H5 & _).
  exact (conj H1 (conj (H2 example_listeners_quiet Example.after_round
                          example_after_round) H5)).
Defined.

Lemma reducer_error_resets_flag_witness :
  exists w',
    dispatch Example.fn Example.REPLACE 6 Example.boom Example.store2
    = Some (Err (E_user (VStr "boom")), w') /\
    isDispatching w' = false /\
    currentState w' = VNum 0 /\
    invoked w' = [].
Proof.
  destruct (reducer_error_resets_flag Example.fn Example.REPLACE 6 Example.boom
              Example.store2 (E_user (VStr "boom"))
              (set_isDispatching true Example.store2)
              eq_refl eq_refl eq_refl eq_refl)
    as (w' & H1 & H2 & H3 & _ & _ & _ & _ & H8 & _).
  exists w'. exact (conj H1 (conj H2 (conj H3 H8))).
Defined.

Lemma illegal_access_while_dispatching_witness :
  getState (set_isDispatching true Example.store2)
  = Err E_getState_while_dispatching /\
  forall f, subscribe (VFun f) (set_isDispatching true Example.store2)
            = (Err E_subscribe_while_dispatching,
               set_isDispatching true Example.store2).
Proof.
  pose proof (illegal_access_while_dispatching Example.fn Example.REPLACE
                (set_isDispatching true Example.store2) Example.store2
                eq_refl eq_refl) as (H1 & H2 & _).
  exact (conj H1 H2).
Defined.

Lemma dispatch_rejects_invalid_action_witness :
  dispatch Example.fn Example.REPLACE 6 VNull Example.store1
  = Some (Err E_action_not_plain, Example.store1) /\
  dispatch Example.fn Example.REPLACE 6 (object_literal 9 []) Example.store1
  = Some (Err E_action_type_undefined, Example.store1) /\
  isPlainObject (VObj Example.instance) = false.
Proof.
  split; [|split].
  - exact (proj1 (dispatch_rejects_invalid_action Example.fn Example.REPLACE 6
                    VNull Example.store1) eq_refl).
  - exact (proj1 (proj2 (dispatch_rejects_invalid_action Example.fn
                           Example.REPLACE 6 (object_literal 9 [])
                           Example.store1))
             _ eq_refl eq_refl (conj eq_refl (conj eq_refl I))).
  - refine (proj2 (proj2 (proj2 (proj2 (proj2 (proj2
              (dispatch_rejects_invalid_action Example.fn Example.REPLACE 6
                 VNull Example.store1))))))
             Example.instance _ _ eq_refl eq_refl _).
    exact (bool_decide_unpack (NoDup [7; 6; 0]) I).
Defined.


Lemma createStore_enhancer_witness :
  createStore Example.fn Example.INIT Example.REPLACE Example.enhancers 5
    [VFun 1; VFun 20] Example.nothing
  = Example.enhancers 20
      (createStore Example.fn Example.INIT Example.REPLACE Example.enhancers 4)
      [VFun 1; VUndefined] Example.nothing /\
  createStore Example.fn Example.INIT Example.REPLACE Example.enhancers 5
    [VFun 1; VFun 20; VFun 21] Example.nothing
  = Some (Err E_several_enhancers, Example.nothing) /\
  createStore Example.fn Example.INIT Example.REPLACE Example.enhancers 5
    [VFun 1; VNum 7; VFun 20] Example.nothing
  = Example.enhancers 20
      (createStore Example.fn Example.INIT Example.REPLACE Example.enhancers 4)
      [VFun 1; VNum 7] Example.nothing.
Proof.
  split; [|split].
  - exact (proj1 (createStore_enhancer Example.fn Example.INIT Example.REPLACE
                    Example.enhancers 4 [VFun 1; VFun 20] Example.nothing)
             20 eq_refl eq_refl).
  - exact (proj1 (proj2 (createStore_enhancer Example.fn Example.INIT
                           Example.REPLACE Example.enhancers 4
                           [VFun 1; VFun 20; VFun 21] Example.nothing))
             (or_introl (conj eq_refl eq_refl))).
  - exact (proj2 (proj2 (proj2 (createStore_enhancer Example.fn Example.INIT
                                  Example.REPLACE Example.enhancers 4
                                  [VFun 1; VNum 7; VFun 20] Example.nothing)))
             20 eq_refl eq_refl eq_refl).
Defined.

Lemma dispatch_returns_action_witness :
  exists r w',
    dispatch Example.fn Example.REPLACE 6 Example.inc Example.subscribed
    = Some (Ok r, w') /\ r = Example.inc.
Proof.
  exists Example.inc, Example.after_round.
  split; [exact example_after_round|].
  exact (dispatch_returns_action Example.fn Example.REPLACE 6 Example.inc
           Example.subscribed Example.inc Example.after_round
           example_after_round).
Defined.

Lemma unsubscribe_revoked_is_silent_witness :
  unsubscribe 0 Example.after_round = (Ok tt, Example.after_round) /\
  unsubscribe 0 (set_isDispatching true Example.after_round)
  = (Ok tt, set_isDispatching true Example.after_round).
Proof.
  pose proof (unsubscribe_revoked_is_silent Example.fn Example.REPLACE 0
                Example.after_round) as (H1 & H2 & _).
  exact (conj (H1 10 eq_refl) (H2 10 eq_refl)).
Defined.

(** * Further properties *)

(** ** isPlainObject *)

(** X1. An object is plain exactly when it has a prototype and that
    prototype has none: an object created with a null prototype is not
    plain, nor is one whose prototype chain is longer. *)
Theorem isPlainObject_iff (o : Obj) :
  NoDup (chain_addrs o) ->
  isPlainObject (VObj o) = true <->
  exists p, getPrototypeOf o = Some p /\ getPrototypeOf p = None.
Proof.
  intros Hnd. split.
  - destruct o as [a fs [p|]]; [|discriminate].
    destruct p as [b gs [q|]] eqn:Hp.
    + rewrite (isPlainObject_instance (mkObj a fs (Some (mkObj b gs (Some q))))
                 (mkObj b gs (Some q)) q eq_refl eq_refl Hnd).
      discriminate.
    + intros _. exists (mkObj b gs None). split; reflexivity.
  - intros (p & Hop & Hp).
    destruct o as [a fs po]. simpl in Hop. subst po.
    destruct p as [b gs pp]. simpl in Hp. subst pp.
    simpl. unfold same_ref. simpl. apply Nat.eqb_refl.
Qed.

Lemma isPlainObject_iff_witness :
  isPlainObject (VObj (mkObj 9 [] (Some Object_prototype))) = true <->
  exists p, getPrototypeOf (mkObj 9 [] (Some Object_prototype)) = Some p /\
            getPrototypeOf p = None.
Proof.
  exact (isPlainObject_iff (mkObj 9 [] (Some Object_prototype))
           (bool_decide_unpack (NoDup [9; 0]) I)).
Defined.

(** ** compose *)

Lemma compose_singleton_arg {V : Type} (undefined : V)
    (fs : list (list V -> V)) (x : V) :
  compose undefined fs [x] = fold_right (fun f v => f [v]) x fs.
Proof.
  destruct fs as [|f fs'] using rev_ind; [reflexivity|].
  rewrite compose_right_to_left, fold_right_app. reflexivity.
Qed.

(** X2. Composing two lists of functions put end to end is composing the
    first list after the composition of the second: with a second list
    that is not empty, compose(...fs, ...gs)(...args) is
    compose(...fs)(compose(...gs)(...args)); on a single argument this holds
    for an empty second list too. *)
Theorem compose_app {V : Type} (undefined : V) (fs gs : list (list V -> V)) :
  (gs <> [] ->
   forall args,
     compose undefined (fs ++ gs) args
     = compose undefined fs [compose undefined gs args]) /\
  (forall x,
     compose undefined (fs ++ gs) [x]
     = compose undefined fs [compose undefined gs [x]]).
Proof.
  split.
  - intros Hgs args.
    destruct gs as [|h gs' _] using rev_ind; [contradiction|].
    rewrite app_assoc, !compose_right_to_left, fold_right_app.
    rewrite compose_singleton_arg. reflexivity.
  - intros x. rewrite !compose_singleton_arg. apply fold_right_app.
Qed.

Lemma compose_app_witness :
  compose 0 ([fun a => S (nth 0 a 0)] ++ [fun a => length a]) [7; 8; 9]
  = compose 0 [fun a => S (nth 0 a 0)] [compose 0 [fun a => length a] [7; 8; 9]].
Proof.
  exact (proj1 (compose_app 0 [fun a => S (nth 0 a 0)] [fun a => length a])
           ltac:(discriminate) [7; 8; 9]).
Defined.

(** ** applyMiddleware *)

Section MiddlewareFacts.
Variable fn : nat -> list Value -> prog Value.
Variable ActionTypes_REPLACE : string.

Local Abbreviation run := (run fn ActionTypes_REPLACE).
Local Abbreviation map_middlewares := (map_middlewares fn ActionTypes_REPLACE).
Local Abbreviation build_dispatch := (build_dispatch fn ActionTypes_REPLACE).
Local Abbreviation applyMiddleware := (applyMiddleware fn ActionTypes_REPLACE).

Lemma map_middlewares_app fuel api ms1 : forall ms2 w,
  map_middlewares fuel (ms1 ++ ms2) api w
  = match map_middlewares fuel ms1 api w with
    | None => None
    | Some (Err e, w1) => Some (Err e, w1)
    | Some (Ok chain1, w1) =>
        match map_middlewares fuel ms2 api w1 with
        | None => None
        | Some (Err e, w2) => Some (Err e, w2)
        | Some (Ok chain2, w2) => Some (Ok (chain1 ++ chain2), w2)
        end
    end.
Proof.
  induction ms1 as [|m ms1 IH]; intros ms2 w; simpl.
  - destruct (map_middlewares fuel ms2 api w) as [[[c|e] w2]|]; reflexivity.
  - destruct (run fuel Interceptor (m api) w) as [[[i|e] w1]|]; try reflexivity.
    rewrite IH.
    destruct (map_middlewares fuel ms1 api w1) as [[[c1|e] w2]|]; try reflexivity.
    destruct (map_middlewares fuel ms2 api w2) as [[[c2|e] w3]|]; reflexivity.
Qed.

Lemma map_plain_middlewares fuel api gs w :
  map_middlewares (S fuel) (map plain_middleware gs) api w
  = Some (Ok (map (fun g next => Ret (g api next)) gs), w).
Proof.
  induction gs as [|g gs IH]; [reflexivity|].
  cbn [map map_middlewares]. unfold plain_middleware at 1.
  rewrite run_Ret. rewrite IH. reflexivity.
Qed.

Lemma compose_chain_plain api gs next :
  compose_chain (map (fun g next => Ret (g api next)) gs) next
  = Ret (layered api gs next).
Proof.
  unfold compose_chain. rewrite compose_singleton_arg.
  induction gs as [|g gs IH]; [reflexivity|].
  cbn [map fold_right]. rewrite IH. reflexivity.
Qed.

Lemma applyMiddleware_plain fuel gs (creator : StoreCreator) args w store w1 :
  creator args w = Some (Ok store, w1) ->
  applyMiddleware (S fuel) (map plain_middleware gs) creator args w
  = Some (Ok (with_dispatch store
                (layered (middlewareAPI_of store) gs (so_dispatch store))),
          set_mw_dispatch
            (Some (layered (middlewareAPI_of store) gs (so_dispatch store))) w1).
Proof.
  intros Hc. unfold applyMiddleware, build_dispatch. rewrite Hc.
  rewrite map_plain_middlewares, compose_chain_plain, run_Ret.
  reflexivity.
Qed.

(** X3. Middleware of the usual shape are layered in the order given: the
    dispatch of the store applyMiddleware returns is the first middleware's
    function around the second's, and so on, around the dispatch of the
    store the creator built; the other members are that store's, and the
    variable the middlewareAPI forwards to holds the layered dispatch.
    With no middleware the store is returned as it was built. *)
Theorem applyMiddleware_layers fuel gs (creator : StoreCreator) args w store w1 :
  creator args w = Some (Ok store, w1) ->
  let d := layered (middlewareAPI_of store) gs (so_dispatch store) in
  applyMiddleware (S fuel) (map plain_middleware gs) creator args w
  = Some (Ok (with_dispatch store d), set_mw_dispatch (Some d) w1) /\
  applyMiddleware (S fuel) [] creator args w
  = Some (Ok store, set_mw_dispatch (Some (so_dispatch store)) w1).
Proof.
  intros Hc d. split.
  - apply applyMiddleware_plain. exact Hc.
  - unfold applyMiddleware, build_dispatch. rewrite Hc.
    destruct store; reflexivity.
Qed.

(** X4. applyMiddleware returns no store when the creator throws or when
    a middleware throws while it is given the middlewareAPI: the error is
    the creator's, in the world it left; or it is the middleware's, the
    middleware after it are not called (whatever they are), and the
    variable the middlewareAPI forwards to still holds the throwing
    placeholder. *)
Theorem applyMiddleware_failure fuel (creator : StoreCreator) args w :
  (forall ms e w1,
     creator args w = Some (Err e, w1) ->
     applyMiddleware fuel ms creator args w = Some (Err e, w1)) /\
  (forall store w1 before chain w2 m e w3 rest,
     creator args w = Some (Ok store, w1) ->
     map_middlewares fuel before (middlewareAPI_of store)
       (set_mw_dispatch (Some placeholder_dispatch) w1) = Some (Ok chain, w2) ->
     run fuel Interceptor (m (middlewareAPI_of store)) w2 = Some (Err e, w3) ->
     applyMiddleware fuel (before ++ m :: rest) creator args w
     = Some (Err e, w3) /\
     mw_dispatch w3 = Some placeholder_dispatch).
Proof.
  split.
  - intros ms e w1 Hc. unfold applyMiddleware. rewrite Hc. reflexivity.
  - intros store w1 before chain w2 m e w3 rest Hc Hbefore Hm.
    assert (map_middlewares fuel (before ++ m :: rest) (middlewareAPI_of store)
              (set_mw_dispatch (Some placeholder_dispatch) w1)
            = Some (Err e, w3)) as Hmap.
    { rewrite map_middlewares_app, Hbefore. simpl. rewrite Hm. reflexivity. }
    split.
    + unfold applyMiddleware, build_dispatch. rewrite Hc, Hmap. reflexivity.
    + eapply map_middlewares_keeps_mw_dispatch; [|exact Hmap]. reflexivity.
Qed.
End MiddlewareFacts.

(** ** createStore: the arguments and the store returned *)

Section StoreFacts.
Variable fn : nat -> list Value -> prog Value.
Variable ActionTypes_INIT ActionTypes_REPLACE : string.
Variable enhancers : nat -> StoreCreator -> StoreCreator.

Local Abbreviation run := (run fn ActionTypes_REPLACE).
Local Abbreviation dispatch := (dispatch fn ActionTypes_REPLACE).
Local Abbreviation replaceReducer := (replaceReducer fn ActionTypes_REPLACE).
Local Abbreviation createStore :=
  (createStore fn ActionTypes_INIT ActionTypes_REPLACE enhancers).

Lemma is_function_VFun v :
  is_function v = true -> exists f, v = VFun f.
Proof. destruct v; try discriminate. intros _. eexists; reflexivity. Qed.

(** X7. What createStore checks of its arguments, once a function given
    as preloadedState has been taken as the enhancer: an enhancer that is
    neither undefined nor a function is an InvalidArgument error; with no
    enhancer, a reducer that is not a function is one too.  Neither call
    touches anything. *)
Theorem createStore_rejects fuel (args : list Value) w :
  let reducer := nth 0 args VUndefined in
  let preloadedState := nth 1 args VUndefined in
  let enhancer := nth 2 args VUndefined in
  (is_undefined enhancer = false -> is_function enhancer = false ->
   createStore (S fuel) args w = Some (Err E_enhancer_not_function, w)) /\
  (is_undefined enhancer = true -> is_function preloadedState = false ->
   is_function reducer = false ->
   createStore (S fuel) args w = Some (Err E_reducer_not_function, w)) /\
  kind_of E_enhancer_not_function = Some InvalidArgument /\
  kind_of E_reducer_not_function = Some InvalidArgument.
Proof.
  simpl. repeat apply conj; try reflexivity.
  - intros Hu Hf. unfold createStore_body. rewrite Hu, Hf.
    rewrite andb_false_r. simpl.
    destruct (nth 2 args VUndefined); try reflexivity;
      cbv in Hu, Hf; discriminate.
  - intros Hu Hp Hr. unfold createStore_body.
    assert (is_function (nth 2 args VUndefined) = false) as Hf.
    { destruct (nth 2 args VUndefined); try reflexivity; cbv in Hu;
        discriminate. }
    rewrite Hu, Hp, Hf. simpl. rewrite Hu. simpl.
    destruct (nth 0 args VUndefined); try reflexivity;
      cbv in Hr; discriminate.
Qed.

(** X8. createStore given a reducer and a state is decided by what the
    reducer does with the INIT action, whatever that is: createStore
    comes to an end exactly when the reducer's run does; if the run returns
    a value, createStore returns the store, with that value as its state,
    idle, without any listener or subscription, and with INIT as the one
    action carried out; if the run throws, createStore throws the same
    error.  The calls the reducer made to the store changed nothing of
    this. *)
Theorem createStore_result fuel r p w :
  is_function p = false ->
  let init := object_literal (next_addr w) [("type", VStr ActionTypes_INIT)] in
  let start := set_isDispatching true
                 (set_next_addr (S (next_addr w)) (fresh_store r p w)) in
  createStore (S fuel) [VFun r; p] w
  = match run fuel Value (fn r [p; init]) start with
    | None => None
    | Some (Ok v, w1) => Some (Ok base_store, committed init v w1)
    | Some (Err e, w1) => Some (Err e, set_isDispatching false w1)
    end /\
  (forall v w1,
     run fuel Value (fn r [p; init]) start = Some (Ok v, w1) ->
     exists w0,
       createStore (S fuel) [VFun r; p] w = Some (Ok base_store, w0) /\
       getState w0 = Ok v /\ dispatched w0 = [init] /\
       isDispatching w0 = false /\
       pending w0 = [] /\ committed_listeners w0 = [] /\
       subscriptions w0 = [] /\ invoked w0 = [] /\
       mw_dispatch w0 = mw_dispatch w) /\
  (forall e w1,
     run fuel Value (fn r [p; init]) start = Some (Err e, w1) ->
     exists w0,
       createStore (S fuel) [VFun r; p] w = Some (Err e, w0) /\
       currentState w0 = p /\ dispatched w0 = [] /\
       isDispatching w0 = false /\
       pending w0 = [] /\ committed_listeners w0 = [] /\
       subscriptions w0 = [] /\ invoked w0 = [] /\
       mw_dispatch w0 = mw_dispatch w).
Proof.
  intros Hp init start.
  assert (createStore (S fuel) [VFun r; p] w
          = match run fuel Value (fn r [p; init]) start with
            | None => None
            | Some (Ok v, w1) => Some (Ok base_store, committed init v w1)
            | Some (Err e, w1) => Some (Err e, set_isDispatching false w1)
            end) as Heq.
  { simpl. unfold createStore_body.
    change (nth 0 [VFun r; p] VUndefined) with (VFun r).
    change (nth 1 [VFun r; p] VUndefined) with p.
    change (nth 2 [VFun r; p] VUndefined) with VUndefined.
    change (nth 3 [VFun r; p] VUndefined) with VUndefined.
    rewrite Hp. simpl. fold init.
    set (w00 := set_next_addr (S (next_addr w)) (fresh_store r p w)).
    rewrite (dispatch_idle fn ActionTypes_REPLACE fuel init w00);
      [|apply isPlainObject_literal|reflexivity|reflexivity].
    change (currentReducer w00) with r.
    change (currentState w00) with p.
    change (set_isDispatching true w00) with start.
    destruct (run fuel Value (fn r [p; init]) start)
      as [[[v|e] w1]|] eqn:Hred; [|reflexivity|reflexivity].
    destruct (run_dispatching_frame fn ActionTypes_REPLACE fuel Value _
                start _ _ eq_refl Hred) as (_ & _ & Hnl & _ & Harr & _).
    simpl in Hnl, Harr.
    destruct fuel as [|n]; [discriminate|].
    simpl. unfold deref. simpl. rewrite Harr, Hnl. reflexivity. }
  split; [exact Heq|]. split.
  - intros v w1 Hred. rewrite Heq, Hred. eexists. split; [reflexivity|].
    destruct (run_dispatching_frame fn ActionTypes_REPLACE fuel Value _
                start _ _ eq_refl Hred)
      as (Hs & Hcl & Hnl & Hd & Harr & Hsub & Hmw & Hinv & Hdis).
    simpl in Hs, Hcl, Hnl, Hd, Harr, Hsub, Hmw, Hinv, Hdis.
    unfold getState, pending, committed_listeners, deref. simpl.
    rewrite Harr, Hnl, Hsub, Hinv, Hdis, Hmw. repeat split; reflexivity.
  - intros e w1 Hred. rewrite Heq, Hred. eexists. split; [reflexivity|].
    destruct (run_dispatching_frame fn ActionTypes_REPLACE fuel Value _
                start _ _ eq_refl Hred)
      as (Hs & Hcl & Hnl & Hd & Harr & Hsub & Hmw & Hinv & Hdis).
    simpl in Hs, Hcl, Hnl, Hd, Harr, Hsub, Hmw, Hinv, Hdis.
    unfold pending, committed_listeners, deref. simpl.
    rewrite Harr, Hnl, Hcl, Hsub, Hinv, Hdis, Hmw, Hs. repeat split; reflexivity.
Qed.
End StoreFacts.

(** ** replaceReducer *)

Section ReplaceFacts.
Variable fn : nat -> list Value -> prog Value.
Variable ActionTypes_REPLACE : string.

Local Abbreviation run := (run fn ActionTypes_REPLACE).
Local Abbreviation dispatch := (dispatch fn ActionTypes_REPLACE).
Local Abbreviation replaceReducer := (replaceReducer fn ActionTypes_REPLACE).

(** X5. replaceReducer with an argument that is not a function is an
    InvalidArgument error and changes nothing.  Called with a function
    while the reducer runs, it throws the IllegalStateAccess error of the
    dispatch it makes, but only after it has assigned the new reducer:
    the store keeps it, and all else is as before. *)
Theorem replaceReducer_edges fuel (nextReducer : Value) w :
  (typeof nextReducer <> "function" ->
   replaceReducer fuel nextReducer w
   = Some (Err E_nextReducer_not_function, w)) /\
  kind_of E_nextReducer_not_function = Some InvalidArgument /\
  (forall g, nextReducer = VFun g -> isDispatching w = true ->
     exists w',
       replaceReducer fuel nextReducer w
       = Some (Err E_reducers_may_not_dispatch, w') /\
       currentReducer w' = g /\ same_but_reducer w w').
Proof.
  repeat apply conj.
  - intros Ht. destruct nextReducer; try reflexivity.
    exfalso. apply Ht. reflexivity.
  - reflexivity.
  - intros g -> Hd.
    exists (set_next_addr (S (next_addr w)) (set_currentReducer g w)).
    split; [|split; [reflexivity|repeat split]].
    pose proof (dispatch_while_dispatching fn ActionTypes_REPLACE fuel
                  (object_literal (next_addr w)
                     [("type", VStr ActionTypes_REPLACE)])
                  (set_next_addr (S (next_addr w)) (set_currentReducer g w))
                  (isPlainObject_literal _ _) eq_refl Hd) as H.
    unfold replaceReducer, replaceReducer_with, alloc_literal.
    unfold dispatch in H. simpl in H |- *. rewrite H. reflexivity.
Qed.

Section Swap.
Variable g : nat.
Variable f' : Value -> Value -> Value.
Hypothesis new_reducer_pure : forall s a, fn g [s; a] = Ret (f' s a).
Hypothesis quiet_listeners : forall l, quiet (fn l []).

(** X6. replaceReducer on an idle store, when the new reducer computes
    [f'] and the listeners only read the state, subscribe and
    unsubscribe: the call comes to an end; when it returns, the store's
    reducer is the new one, the state is what the new reducer makes of the
    old state and the REPLACE action, that action is the one carried out,
    and the listeners pending before the call were each notified. *)
Theorem replaceReducer_swaps w :
  well_formed w -> isDispatching w = false ->
  let a := object_literal (next_addr w) [("type", VStr ActionTypes_REPLACE)] in
  (exists n out w',
     forall m, n <= m -> replaceReducer m (VFun g) w = Some (out, w')) /\
  (forall m w',
     replaceReducer m (VFun g) w = Some (Ok tt, w') ->
     currentReducer w' = g /\
     currentState w' = f' (currentState w) a /\
     dispatched w' = dispatched w ++ [a] /\
     invoked w' = invoked w ++ pending w /\
     isDispatching w' = false /\ well_formed w').
Proof.
  intros Hwf Hidle a.
  set (w1 := set_next_addr (S (next_addr w)) (set_currentReducer g w)).
  assert (steady g w1) as Hst.
  { split; [|split; [exact Hidle|reflexivity]].
    exact (closed_replace _ closed_well_formed w g Hwf). }
  assert (forall m, replaceReducer m (VFun g) w
                    = match dispatch m a w1 with
                      | None => None
                      | Some (Err e, w3) => Some (Err e, w3)
                      | Some (Ok _, w3) => Some (Ok tt, w3)
                      end) as Heq by reflexivity.
  split.
  - destruct (dispatch_pure_returns fn ActionTypes_REPLACE f' g
                new_reducer_pure quiet_listeners a w1 Hst) as (n & out & w' & Hn).
    exists n. destruct out as [x|e].
    + exists (Ok tt), w'. intros m Hm. rewrite Heq, (Hn m Hm). reflexivity.
    + exists (Err e), w'. intros m Hm. rewrite Heq, (Hn m Hm). reflexivity.
  - intros m w' Hr. rewrite Heq in Hr.
    destruct (dispatch m a w1) as [[[x|e] w3]|] eqn:Hd; try discriminate.
    injection Hr as <-.
    destruct (dispatch_pure fn ActionTypes_REPLACE f' g new_reducer_pure
                quiet_listeners m a w1 x w3 Hst Hd) as (Hs & Hdis & Hwf3 & Hi3 & Hr3).
    assert (x = a) as ->.
    { unfold dispatch, dispatch_with in Hd.
      repeat match type of Hd with
             | context [if ?c then _ else _] => destruct c; try discriminate
             | context [match ?c with _ => _ end] =>
                 destruct c as [[[?|?] ?]|]; try discriminate
             end.
      injection Hd as ->. reflexivity. }
    split; [exact Hr3|]. split; [exact Hs|]. split; [exact Hdis|].
    split; [|split; assumption].
    exact (dispatch_quiet_history fn ActionTypes_REPLACE m a w1 w3
             quiet_listeners (proj1 Hst) Hd).
Qed.
End Swap.
End ReplaceFacts.

(** ** subscribe and unsubscribe *)

(** X9. The three outcomes of subscribe, in the order the checks are
    made: a listener that is not a function is an InvalidArgument error,
    also while the reducer runs; a function while the reducer runs is the
    IllegalStateAccess error; otherwise the call returns an unsubscribe
    function no earlier call returned, the listener is subscribed with it,
    and the earlier subscriptions are what they were.  A call that throws
    changes nothing. *)
Theorem subscribe_outcomes (listener : Value) w out w' :
  subscribe listener w = (out, w') ->
  (typeof listener <> "function" ->
   out = Err E_listener_not_function /\ w' = w) /\
  (typeof listener = "function" -> isDispatching w = true ->
   out = Err E_subscribe_while_dispatching /\ w' = w) /\
  (typeof listener = "function" -> isDispatching w = false ->
   exists l, listener = VFun l /\
             out = Ok (length (subscriptions w)) /\
             subscriptions w !! length (subscriptions w) = None /\
             subscriptions w' = subscriptions w ++ [(l, true)]) /\
  kind_of E_listener_not_function = Some InvalidArgument.
Proof.
  intros Hs. repeat apply conj; try reflexivity.
  - intros Ht. destruct listener; simpl in Hs;
      try (injection Hs as <- <-; split; reflexivity).
    exfalso. apply Ht. reflexivity.
  - intros Ht Hd. destruct listener; try discriminate.
    unfold subscribe in Hs. rewrite Hd in Hs.
    injection Hs as <- <-. split; reflexivity.
  - intros Ht Hd. destruct listener as [| | | | |l|]; try discriminate.
    exists l. unfold subscribe in Hs. rewrite Hd in Hs.
    injection Hs as <- <-. simpl.
    assert (subscriptions (ensureCanMutateNextListeners w) = subscriptions w)
      as ->.
    { unfold ensureCanMutateNextListeners.
      destruct (Nat.eqb _ _); reflexivity. }
    repeat split. apply lookup_ge_None_2. lia.
Qed.

Lemma remove_first_fresh (l : nat) (arr : list nat) :
  l ∉ arr -> remove_first l (arr ++ [l]) = arr.
Proof.
  induction arr as [|x arr IH]; intros Hl; simpl.
  - rewrite Nat.eqb_refl. reflexivity.
  - apply not_elem_of_cons in Hl as [Hne Hl].
    destruct (Nat.eqb_spec x l) as [->|_]; [contradiction|].
    rewrite IH by exact Hl. reflexivity.
Qed.

Lemma subscribe_Ok_idle listener w h w' :
  subscribe listener w = (Ok h, w') -> isDispatching w = false.
Proof.
  intros Hs. destruct (isDispatching w) eqn:Hd; [|reflexivity].
  destruct (subscribe_dispatching listener w Hd) as [e He].
  rewrite He in Hs. discriminate.
Qed.

(** X10. subscribe followed by the unsubscribe function it returned: the
    pending sequence is the old one with the listener appended and its
    first occurrence removed.  So it is the old sequence when the listener
    was not subscribed before; when it was, the earlier occurrence is the
    one removed, and every listener is still pending as many times as
    before.  The committed sequence is untouched, and a second call of the
    unsubscribe function does nothing. *)
Theorem subscribe_then_unsubscribe (l : nat) w h w1 :
  well_formed w ->
  subscribe (VFun l) w = (Ok h, w1) ->
  exists w2,
    unsubscribe h w1 = (Ok tt, w2) /\
    pending w2 = remove_first l (pending w ++ [l]) /\
    (l ∉ pending w -> pending w2 = pending w) /\
    (forall l', count_occ Nat.eq_dec (pending w2) l'
                = count_occ Nat.eq_dec (pending w) l') /\
    committed_listeners w2 = committed_listeners w /\
    subscriptions w2 = subscriptions w ++ [(l, false)] /\
    unsubscribe h w2 = (Ok tt, w2) /\
    well_formed w2.
Proof.
  intros Hwf Hs.
  pose proof (subscribe_Ok_idle _ _ _ _ Hs) as Hidle.
  pose proof (subscribe_flag _ _ _ _ Hs) as Hflag.
  destruct (subscribe_sequences l w h w1 (proj1 Hwf) Hs)
    as (Hp1 & Hc1 & _ & Hsub1 & Hh & Hv1).
  assert (subscriptions w1 !! h = Some (l, true)) as Hlook.
  { rewrite Hsub1, Hh. apply list_lookup_middle. reflexivity. }
  destruct (unsubscribe_sequences h l w1 Hv1 ltac:(congruence) Hlook)
    as (w2 & Hu & Hp2 & Hc2 & _ & Hsub2 & Hv2).
  assert (pending w2 = remove_first l (pending w ++ [l])) as Hp.
  { rewrite Hp2, Hp1. apply splice1_indexOf.
    rewrite count_occ_app. simpl. destruct (Nat.eq_dec l l); [lia|congruence]. }
  assert (subscriptions w2 = subscriptions w ++ [(l, false)]) as Hsub.
  { rewrite Hsub2, Hsub1, Hh.
    rewrite insert_app_r_alt by lia. rewrite Nat.sub_diag. reflexivity. }
  exists w2.
  split; [exact Hu|]. split; [exact Hp|].
  split; [intros Hl; rewrite Hp; apply remove_first_fresh; exact Hl|].
  split.
  { intros l'. rewrite Hp. destruct (Nat.eq_dec l l') as [<-|Hne].
    - rewrite count_remove_first_eq, count_occ_app. simpl.
      destruct (Nat.eq_dec l l); [lia|congruence].
    - rewrite (count_remove_first_ne l l') by exact Hne.
      rewrite count_occ_app. simpl.
      destruct (Nat.eq_dec l l'); [congruence|lia]. }
  split; [congruence|]. split; [exact Hsub|].
  split.
  { unfold unsubscribe. rewrite Hsub, Hh.
    rewrite list_lookup_middle by reflexivity. reflexivity. }
  eapply unsubscribe_well_formed; [|exact Hu].
  eapply subscribe_well_formed; [exact Hwf|exact Hs].
Qed.

Lemma indexOf_absent (l : nat) (arr : list nat) :
  l ∉ arr -> indexOf l arr = (-1)%Z.
Proof.
  induction arr as [|x arr IH]; intros Hl; simpl; [reflexivity|].
  apply not_elem_of_cons in Hl as [Hne Hl].
  destruct (Nat.eqb_spec x l) as [->|_]; [contradiction|].
  rewrite IH by exact Hl. reflexivity.
Qed.

Lemma splice1_last (arr : list nat) : splice1 (-1) arr = removelast arr.
Proof.
  unfold splice1.
  destruct (Z.ltb_spec (-1) 0) as [_|?]; [|lia].
  induction arr as [|x arr _] using rev_ind; [reflexivity|].
  rewrite removelast_last, length_app. simpl.
  replace (Z.to_nat (Z.max (Z.of_nat (length arr + 1) + -1) 0))
    with (length arr) by lia.
  rewrite delete_take_drop, take_app_length.
  rewrite drop_ge by (rewrite length_app; simpl; lia).
  apply app_nil_r.
Qed.

Section Reachable.
Variable fn : nat -> list Value -> prog Value.
Variable ActionTypes_INIT ActionTypes_REPLACE : string.
Variable enhancers : nat -> StoreCreator -> StoreCreator.

Local Abbreviation run := (run fn ActionTypes_REPLACE).
Local Abbreviation createStore :=
  (createStore fn ActionTypes_INIT ActionTypes_REPLACE enhancers).

(** X13. unsubscribe removes [nextListeners.splice(index, 1)] without
    looking at the index.  Were the listener not in the array, indexOf
    would return -1 and splice would remove the last listener; but in a
    store that createStore built, whatever code has run since, a listener
    whose unsubscribe function has not been called is in the pending
    sequence, so the index is that of its first occurrence and that
    occurrence alone is removed. *)
Theorem unsubscribe_finds_listener :
  (forall (l : nat) arr,
     l ∉ arr ->
     indexOf l arr = (-1)%Z /\ splice1 (indexOf l arr) arr = removelast arr) /\
  (forall fuel r p w so w0 n R (code : prog R) out w' h l,
     is_function p = false ->
     createStore (S fuel) [VFun r; p] w = Some (Ok so, w0) ->
     run n R code w0 = Some (out, w') ->
     subscriptions w' !! h = Some (l, true) ->
     exists i,
       indexOf l (pending w') = Z.of_nat i /\
       pending w' !! i = Some l /\
       (forall j, j < i -> pending w' !! j <> Some l) /\
       splice1 (indexOf l (pending w')) (pending w') = delete i (pending w')).
Proof.
  split.
  - intros l arr Hl. rewrite (indexOf_absent l arr Hl).
    split; [reflexivity|apply splice1_last].
  - intros fuel r p w so w0 n R code out w' h l Hp Hc Hrun Hlook.
    destruct (createStore_well_formed fn ActionTypes_INIT ActionTypes_REPLACE
                enhancers fuel r p w so w0 Hp Hc) as [Hwf0 _].
    destruct (run_keeps_well_formed fn ActionTypes_REPLACE n R code w0 out w'
                Hwf0 Hrun) as [[_ Hcount] _].
    pose proof (live_positive h l _ Hlook) as Hlive.
    rewrite <- Hcount in Hlive. clear - Hlive.
    induction (pending w') as [|x arr IH]; simpl in Hlive; [lia|].
    destruct (Nat.eq_dec x l) as [->|Hne].
    + exists 0. simpl. rewrite Nat.eqb_refl.
      split; [reflexivity|]. split; [reflexivity|].
      split; [intros j Hj; lia|reflexivity].
    + destruct (IH Hlive) as (i & Hi & Hat & Hbefore & Hsp).
      exists (S i). simpl.
      destruct (Nat.eqb_spec x l) as [->|_]; [contradiction|].
      rewrite Hi.
      destruct (Z.ltb_spec (Z.of_nat i) 0) as [?|_]; [lia|].
      repeat split.
      * lia.
      * exact Hat.
      * intros [|j] Hj; simpl; [congruence|]. apply Hbefore. lia.
      * apply lookup_lt_Some in Hat.
        replace (Z.of_nat i + 1)%Z with (Z.of_nat (S i)) by lia.
        rewrite splice1_in_range by (simpl; lia). reflexivity.
Qed.
End Reachable.

(** ** What a run of consumer code can change *)

Section History.
Variable fn : nat -> list Value -> prog Value.
Variable ActionTypes_REPLACE : string.

Local Abbreviation run := (run fn ActionTypes_REPLACE).

Lemma ensure_next_addr w :
  next_addr (ensureCanMutateNextListeners w) = next_addr w.
Proof.
  unfold ensureCanMutateNextListeners. destruct (Nat.eqb _ _); reflexivity.
Qed.

Lemma subscribe_next_addr listener w r w' :
  subscribe listener w = (r, w') -> next_addr w' = next_addr w.
Proof.
  unfold subscribe. destruct listener; try (intros [= <- <-]; reflexivity).
  destruct (isDispatching w); intros [= <- <-]; [reflexivity|].
  simpl. apply ensure_next_addr.
Qed.

Lemma unsubscribe_next_addr handle w r w' :
  unsubscribe handle w = (r, w') -> next_addr w' = next_addr w.
Proof.
  unfold unsubscribe.
  destruct (subscriptions w !! handle) as [[l [|]]|]; simpl;
    try (intros [= <- <-]; reflexivity).
  destruct (isDispatching w); intros [= <- <-]; [reflexivity|].
  simpl. rewrite ensure_next_addr. reflexivity.
Qed.

(** The history since [w0]: actions carried out and listeners called were
    appended, and the state is that of [w0] as long as no action was. *)
Lemma closed_history w0 :
  closed (fun w =>
            (exists acts, dispatched w = dispatched w0 ++ acts /\
                          (acts = [] -> currentState w = currentState w0)) /\
            (exists ls, invoked w = invoked w0 ++ ls) /\
            next_addr w0 <= next_addr w).
Proof.
  constructor.
  - intros listener w r w' ((acts & Hd & Hs) & (ls & Hi) & Ha) Hsub.
    destruct (subscribe_frame _ _ _ _ Hsub) as (Hs' & _ & Hi').
    rewrite (subscribe_next_addr _ _ _ _ Hsub), Hi', Hs',
      (subscribe_dispatched _ _ _ _ Hsub).
    split; [exists acts; split; assumption|].
    split; [exists ls; assumption|assumption].
  - intros handle w r w' ((acts & Hd & Hs) & (ls & Hi) & Ha) Hsub.
    destruct (unsubscribe_frame _ _ _ _ Hsub) as (Hs' & _ & Hi').
    rewrite (unsubscribe_next_addr _ _ _ _ Hsub), Hi', Hs',
      (unsubscribe_dispatched _ _ _ _ Hsub).
    split; [exists acts; split; assumption|].
    split; [exists ls; assumption|assumption].
  - intros w H _. exact H.
  - intros w H _. exact H.
  - intros w action v ((acts & Hd & Hs) & (ls & Hi) & Ha) _. simpl.
    split; [|split; [exists ls; assumption|assumption]].
    exists (acts ++ [action]). rewrite Hd, app_assoc.
    split; [reflexivity|]. intros Hnil. destruct acts; discriminate.
  - intros w listener ((acts & Hd & Hs) & (ls & Hi) & Ha) _. simpl.
    split; [exists acts; split; assumption|].
    split; [|assumption].
    exists (ls ++ [listener]). rewrite Hi, app_assoc. reflexivity.
  - intros w f ((acts & Hd & Hs) & (ls & Hi) & Ha). simpl.
    split; [exists acts; split; assumption|].
    split; [exists ls; assumption|lia].
Qed.

(** X14. Whatever consumer code runs (reducers, listeners, middleware,
    with all the calls to the store they make): the actions carried out
    and the listeners called are only ever appended to, object addresses
    are not reused, and the state differs after the run only if an action
    was carried out during it. *)
Theorem state_changes_only_by_dispatch fuel R (p : prog R) w out w' :
  run fuel R p w = Some (out, w') ->
  (exists acts, dispatched w' = dispatched w ++ acts) /\
  (exists ls, invoked w' = invoked w ++ ls) /\
  next_addr w <= next_addr w' /\
  (dispatched w' = dispatched w -> currentState w' = currentState w).
Proof.
  intros Hrun.
  destruct (run_keeps fn ActionTypes_REPLACE _ (closed_history w) fuel R p w
              out w') as [((acts & Hd & Hs) & Hi & Ha) _].
  - split; [exists []; split; [symmetry; apply app_nil_r|reflexivity]|].
    split; [exists []; symmetry; apply app_nil_r|lia].
  - exact Hrun.
  - split; [exists acts; exact Hd|]. split; [exact Hi|]. split; [exact Ha|].
    intros Heq. apply Hs. rewrite Hd in Heq.
    rewrite <- (app_nil_r (dispatched w)) in Heq at 2.
    apply app_inv_head in Heq. exact Heq.
Qed.
End History.

(** ** Copies of the listener array *)

Lemma ensure_copy w :
  valid_refs w ->
  let w1 := ensureCanMutateNextListeners w in
  aliased w1 = false /\
  length (arrays w1) = length (arrays w) + (if aliased w then 1 else 0) /\
  (aliased w = false -> w1 = w).
Proof.
  intros [Hn Hc]. simpl. unfold aliased.
  destruct (ensure_cases w) as [[Heq ->]|[Hne ->]].
  - simpl. rewrite Heq, Nat.eqb_refl, length_app. simpl.
    split; [apply Nat.eqb_neq; lia|]. split; [reflexivity|discriminate].
  - apply Nat.eqb_neq in Hne. rewrite Hne.
    split; [reflexivity|]. split; [lia|reflexivity].
Qed.

(** A call of subscribe or unsubscribe either leaves the world as it is,
    or has written to an array of the pending sequence's own. *)
Lemma subscribe_copy listener w r w' :
  valid_refs w -> subscribe listener w = (r, w') -> w' = w \/ wrote w w'.
Proof.
  intros Hv Hs. destruct r as [h|e].
  - right.
    assert (exists l, listener = VFun l) as [l ->].
    { destruct listener; try discriminate. eexists; reflexivity. }
    destruct (subscribe_sequences l w h w' Hv Hs) as (_ & Hc & Hcl & _ & _ & Hv').
    pose proof (subscribe_Ok_idle _ _ _ _ Hs) as Hidle.
    unfold subscribe in Hs. rewrite Hidle in Hs. injection Hs as _ <-.
    destruct (ensure_copy w Hv) as (Ha & Hlen & _).
    split; [exact Ha|]. split; [|repeat split; try assumption; apply Hv'].
    simpl. rewrite length_insert. exact Hlen.
  - left. unfold subscribe in Hs.
    destruct listener; try (injection Hs as _ <-; reflexivity).
    destruct (isDispatching w); [injection Hs as _ <-; reflexivity|discriminate].
Qed.

Lemma unsubscribe_copy handle w r w' :
  valid_refs w -> unsubscribe handle w = (r, w') -> w' = w \/ wrote w w'.
Proof.
  intros Hv Hu.
  destruct (subscriptions w !! handle) as [[l [|]]|] eqn:Hlook.
  - destruct (isDispatching w) eqn:Hd.
    + left. unfold unsubscribe in Hu. rewrite Hlook, Hd in Hu.
      injection Hu as _ <-. reflexivity.
    + right.
      destruct (unsubscribe_sequences handle l w Hv Hd Hlook)
        as (w2 & Hu2 & _ & Hc & Hcl & _ & Hv').
      rewrite Hu2 in Hu. injection Hu as _ <-.
      unfold unsubscribe in Hu2. rewrite Hlook, Hd in Hu2.
      injection Hu2 as <-.
      set (w1 := set_subscriptions (<[handle:=(l, false)]> (subscriptions w)) w)
        in *.
      destruct (ensure_copy w1 Hv) as (Ha & Hlen & _).
      split; [exact Ha|]. split; [|repeat split; try assumption; apply Hv'].
      simpl. rewrite length_insert. exact Hlen.
  - left. unfold unsubscribe in Hu. rewrite Hlook in Hu.
    injection Hu as _ <-. reflexivity.
  - left. unfold unsubscribe in Hu. rewrite Hlook in Hu.
    injection Hu as _ <-. reflexivity.
Qed.

Lemma wrote_trans w w1 w2 :
  w1 = w \/ wrote w w1 -> w2 = w1 \/ wrote w1 w2 -> w2 = w \/ wrote w w2.
Proof.
  intros [->|H1] [->|H2]; auto.
  right. destruct H1 as (Ha1 & Hl1 & Hc1 & Hcl1 & _).
  destruct H2 as (Ha2 & Hl2 & Hc2 & Hcl2 & Hv2).
  rewrite Ha1 in Hl2.
  split; [exact Ha2|]. split; [lia|]. split; [congruence|].
  split; [congruence|exact Hv2].
Qed.

Section Copies.
Variable fn : nat -> list Value -> prog Value.
Variable ActionTypes_REPLACE : string.

Local Abbreviation run := (run fn ActionTypes_REPLACE).

Lemma run_quiet_copy fuel : forall R (p : prog R) w out w',
  quiet p -> valid_refs w ->
  run fuel R p w = Some (out, w') ->
  (w' = w \/ wrote w w') /\ valid_refs w'.
Proof.
  induction fuel as [|fuel IH]; intros R p w out w' Hq Hv Hrun;
    [discriminate|].
  destruct Hq as [x|e|k Hk|l k Hk|h k Hk]; simpl in Hrun.
  - injection Hrun as _ <-. split; [left; reflexivity|exact Hv].
  - injection Hrun as _ <-. split; [left; reflexivity|exact Hv].
  - exact (IH _ _ _ _ _ (Hk _) Hv Hrun).
  - destruct (subscribe l w) as [r w1] eqn:Hs.
    pose proof (subscribe_copy _ _ _ _ Hv Hs) as H1.
    assert (valid_refs w1) as Hv1.
    { destruct H1 as [->|H1]; [exact Hv|apply H1]. }
    destruct (IH _ _ _ _ _ (Hk r) Hv1 Hrun) as [H2 Hv'].
    split; [exact (wrote_trans _ _ _ H1 H2)|exact Hv'].
  - destruct (unsubscribe h w) as [r w1] eqn:Hs.
    pose proof (unsubscribe_copy _ _ _ _ Hv Hs) as H1.
    assert (valid_refs w1) as Hv1.
    { destruct H1 as [->|H1]; [exact Hv|apply H1]. }
    destruct (IH _ _ _ _ _ (Hk r) Hv1 Hrun) as [H2 Hv'].
    split; [exact (wrote_trans _ _ _ H1 H2)|exact Hv'].
Qed.

(** X11. Between two rounds, code that only reads the state, subscribes
    and unsubscribes makes at most one copy of the listener array, however
    many calls it makes, and none when the pending sequence already has an
    array of its own; the committed sequence and its array are not
    touched; and if the pending sequence has changed, it no longer shares
    the array of the committed one. *)
Theorem listeners_copied_once fuel R (p : prog R) w out w' :
  quiet p -> valid_refs w ->
  run fuel R p w = Some (out, w') ->
  currentListeners w' = currentListeners w /\
  committed_listeners w' = committed_listeners w /\
  length (arrays w) <= length (arrays w') <= S (length (arrays w)) /\
  (nextListeners w <> currentListeners w ->
   length (arrays w') = length (arrays w)) /\
  (pending w' <> pending w -> nextListeners w' <> currentListeners w').
Proof.
  intros Hq Hv Hrun.
  destruct (run_quiet_copy fuel R p w out w' Hq Hv Hrun) as [[->|H] _].
  - repeat split; try lia. intros Hp. contradiction.
  - destruct H as (Ha & Hlen & Hc & Hcl & _).
    split; [exact Hc|]. split; [exact Hcl|].
    split; [destruct (aliased w); lia|].
    split.
    + intros Hne. apply Nat.eqb_neq in Hne. unfold aliased in Hlen.
      rewrite Hne in Hlen. lia.
    + intros _. apply Nat.eqb_neq. exact Ha.
Qed.
End Copies.

(** ** A listener that throws *)

Section ListenerThrows.
Variable fn : nat -> list Value -> prog Value.
Variable ActionTypes_REPLACE : string.

Local Abbreviation run := (run fn ActionTypes_REPLACE).
Local Abbreviation dispatch := (dispatch fn ActionTypes_REPLACE).

Lemma invoke_snapshot_cons exec n x rest w :
  invoke_snapshot fn exec (S n) (x :: rest) w
  = match exec Value (fn x []) (set_invoked (invoked w ++ [x]) w) with
    | None => None
    | Some (Err e, w') => Some (Err e, w')
    | Some (Ok _, w') => invoke_snapshot fn exec n rest w'
    end.
Proof. reflexivity. Qed.

(** When the listeners of [before] all return, the loop goes on with
    what follows them. *)
Lemma invoke_snapshot_prefix exec rest : forall before n w w3,
  invoke_snapshot fn exec n before w = Some (Ok tt, w3) ->
  length before < n /\
  invoke_snapshot fn exec n (before ++ rest) w
  = invoke_snapshot fn exec (n - length before) rest w3.
Proof.
  induction before as [|x before IH]; intros n w w3 Hloop;
    (destruct n as [|n]; [discriminate|]).
  - simpl in Hloop. injection Hloop as <-.
    split; [simpl; lia|reflexivity].
  - rewrite invoke_snapshot_cons in Hloop.
    cbn [app length]. rewrite invoke_snapshot_cons.
    destruct (exec Value (fn x []) (set_invoked (invoked w ++ [x]) w))
      as [[[v|e] w1]|]; try discriminate.
    destruct (IH n w1 w3 Hloop) as [Hlen Heq].
    split; [lia|]. rewrite Heq. reflexivity.
Qed.

Lemma invoke_snapshot_keeps (P : World -> Prop) (Hclosed : closed P)
    exec (Hexec : keeps P exec) n : forall snapshot w r w',
  P w -> isDispatching w = false ->
  invoke_snapshot fn exec n snapshot w = Some (r, w') ->
  P w' /\ isDispatching w' = false.
Proof.
  induction n as [|n IH]; intros snapshot w r w' HP Hidle Hloop;
    [discriminate|].
  destruct snapshot as [|x rest].
  - simpl in Hloop. injection Hloop as _ <-. split; assumption.
  - rewrite invoke_snapshot_cons in Hloop.
    destruct (exec Value (fn x []) (set_invoked (invoked w ++ [x]) w))
      as [[[v|e] w1]|] eqn:He; [| |discriminate].
    + destruct (Hexec _ _ _ _ _ (closed_invoke _ Hclosed w x HP Hidle) He)
        as [HP1 Hf1].
      simpl in Hf1. rewrite Hidle in Hf1.
      exact (IH rest w1 r w' HP1 Hf1 Hloop).
    + injection Hloop as _ <-.
      destruct (Hexec _ _ _ _ _ (closed_invoke _ Hclosed w x HP Hidle) He)
        as [HP1 Hf1].
      simpl in Hf1. rewrite Hidle in Hf1. split; assumption.
Qed.

(** X12. A listener that throws.  When the reducer's run returns [v],
    the runs of the listeners pending before the thrower return, each in
    the world the one before it left, and the thrower's run ends in an
    error, whatever calls to the store these listeners make: dispatch
    throws that error in the world the thrower left, with the store idle,
    and the transition stays: the action is in the history of the actions
    carried out, first of those of this call, and the state is [v] unless
    a listener had another action carried out.  When the store's listeners
    only read the state, subscribe and unsubscribe, the state is [v], the
    action is the one carried out, and the listeners called are those
    before the thrower and the thrower, not those after it. *)
Theorem listener_error_keeps_transition
    fuel action w v w2 before l after w3 e w4 :
  valid_refs w -> isDispatching w = false ->
  isPlainObject action = true -> is_undefined (get action "type") = false ->
  pending w = before ++ l :: after ->
  run fuel Value (fn (currentReducer w) [currentState w; action])
    (set_isDispatching true w) = Some (Ok v, w2) ->
  invoke_snapshot fn (run fuel) fuel before (committed action v w2)
  = Some (Ok tt, w3) ->
  run fuel Value (fn l []) (set_invoked (invoked w3 ++ [l]) w3)
  = Some (Err e, w4) ->
  dispatch fuel action w = Some (Err e, w4) /\
  isDispatching w4 = false /\
  (exists acts,
     dispatched w4 = dispatched w ++ action :: acts /\
     (acts = [] -> currentState w4 = v)) /\
  ((forall x, quiet (fn x [])) ->
   currentState w4 = v /\
   dispatched w4 = dispatched w ++ [action] /\
   invoked w4 = invoked w ++ before ++ [l]).
Proof.
  intros Hv Hidle Hplain Htype Hpend Hred Hbefore Hthrow.
  destruct (run_dispatching_frame fn ActionTypes_REPLACE fuel Value _
              (set_isDispatching true w) _ w2 eq_refl Hred)
    as (_ & _ & _ & Hflag2 & _ & _ & _ & Hinv2 & Hdis2).
  simpl in Hflag2, Hinv2, Hdis2.
  destruct (invoke_snapshot_prefix (run fuel) (l :: after) before fuel
              (committed action v w2) w3 Hbefore) as [Hlen Hloop].
  assert (dispatch fuel action w = Some (Err e, w4)) as Hd.
  { rewrite (dispatch_is_dispatch_snapshot fn ActionTypes_REPLACE fuel action w
               (proj1 Hv)).
    rewrite dispatch_snapshot_idle;
      [|rewrite Hplain; reflexivity|exact Htype|exact Hidle].
    rewrite Hred, Hpend, Hloop.
    destruct (fuel - length before) as [|n] eqn:Hn; [lia|].
    rewrite invoke_snapshot_cons, Hthrow. reflexivity. }
  split; [exact Hd|].
  split.
  { rewrite (dispatch_keeps_flag fn ActionTypes_REPLACE fuel action w _ _ Hd).
    exact Hidle. }
  split.
  - pose proof (run_keeps fn ActionTypes_REPLACE _
                  (closed_history (committed action v w2)) fuel) as Hkeeps.
    assert ((exists acts,
               dispatched (committed action v w2)
               = dispatched (committed action v w2) ++ acts /\
               (acts = [] -> currentState (committed action v w2)
                             = currentState (committed action v w2))) /\
            (exists ls, invoked (committed action v w2)
                        = invoked (committed action v w2) ++ ls) /\
            next_addr (committed action v w2)
            <= next_addr (committed action v w2)) as H0.
    { split; [exists []; split; [symmetry; apply app_nil_r|reflexivity]|].
      split; [exists []; symmetry; apply app_nil_r|lia]. }
    destruct (invoke_snapshot_keeps _ (closed_history (committed action v w2))
                (run fuel) Hkeeps fuel before _ _ _ H0 eq_refl Hbefore)
      as [H3 Hidle3].
    destruct (Hkeeps Value (fn l []) (set_invoked (invoked w3 ++ [l]) w3) _ _
                (closed_invoke _ (closed_history (committed action v w2))
                   w3 l H3 Hidle3) Hthrow)
      as [((acts & Hacts & Hstate) & _) _].
    exists acts. split; [|exact Hstate].
    rewrite Hacts. simpl. rewrite Hdis2, <- app_assoc. reflexivity.
  - intros Hquiet.
    destruct (invoke_snapshot_quiet fn ActionTypes_REPLACE Hquiet fuel fuel
                before _ _ _ Hbefore) as (Hs3 & _ & Hi3).
    pose proof (invoke_snapshot_quiet_dispatched fn ActionTypes_REPLACE Hquiet
                  fuel fuel before _ _ _ Hbefore) as Hd3.
    destruct (run_quiet_frame fn ActionTypes_REPLACE fuel Value _ _ _ _
                (Hquiet l) Hthrow) as (Hs4 & _ & Hi4).
    pose proof (run_quiet_dispatched fn ActionTypes_REPLACE fuel Value _ _ _ _
                  (Hquiet l) Hthrow) as Hd4.
    simpl in Hs3, Hi3, Hd3, Hs4, Hi4, Hd4.
    split; [congruence|]. split; [congruence|].
    rewrite Hi4, (Hi3 eq_refl). simpl. rewrite Hinv2, <- app_assoc.
    reflexivity.
Qed.
End ListenerThrows.

(** ** createStore with applyMiddleware as its enhancer *)

Section Enhanced.
Variable fn : nat -> list Value -> prog Value.
Variable ActionTypes_INIT ActionTypes_REPLACE : string.
Variable enhancers : nat -> StoreCreator -> StoreCreator.
Variable f : Value -> Value -> Value.
Variable r : nat.
Hypothesis reducer_pure : forall s a, fn r [s; a] = Ret (f s a).

Local Abbreviation run := (run fn ActionTypes_REPLACE).
Local Abbreviation createStore :=
  (createStore fn ActionTypes_INIT ActionTypes_REPLACE enhancers).

(** X15. [createStore(reducer, preloadedState, applyMiddleware(...))] for
    a reducer that computes [f] and middleware of the usual shape: the
    store returned has the state and the history of the store createStore
    builds without enhancer, the INIT action being dispatched to the
    reducer directly and once; its dispatch is the layered one, which is
    also what the function given to the middleware as dispatch calls from
    then on.  The same holds when the enhancer is passed in the place of
    preloadedState. *)
Theorem createStore_with_middleware fuel k e gs p w :
  enhancers e = applyMiddleware fn ActionTypes_REPLACE (S k)
                  (map plain_middleware gs) ->
  is_function p = false ->
  let init := object_literal (next_addr w) [("type", VStr ActionTypes_INIT)] in
  let d := layered (middlewareAPI_of base_store) gs (so_dispatch base_store) in
  exists w',
    createStore (S (S (S fuel))) [VFun r; p; VFun e] w
    = Some (Ok (with_dispatch base_store d), w') /\
    (p = VUndefined ->
     createStore (S (S (S fuel))) [VFun r; VFun e] w
     = Some (Ok (with_dispatch base_store d), w')) /\
    getState w' = Ok (f p init) /\
    dispatched w' = [init] /\
    pending w' = [] /\
    invoked w' = [] /\
    mw_dispatch w' = Some d.
Proof.
  intros He Hp init d.
  pose proof (createStore_bootstrap fn ActionTypes_INIT ActionTypes_REPLACE
                enhancers f r reducer_pure fuel p w Hp) as Hboot.
  cbv zeta in Hboot. fold init in Hboot.
  set (w0 := committed init (f p init)
               (set_isDispatching true
                  (set_next_addr (S (next_addr w)) (fresh_store r p w))))
    in Hboot.
  pose proof (applyMiddleware_plain fn ActionTypes_REPLACE k gs
                (createStore (S (S fuel))) [VFun r; p] w base_store w0 Hboot)
    as Happly.
  rewrite <- He in Happly. fold d in Happly.
  exists (set_mw_dispatch (Some d) w0).
  split; [|split].
  - rewrite <- Happly.
    change (createStore (S (S (S fuel))))
      with (createStore_body fn ActionTypes_INIT ActionTypes_REPLACE enhancers
              (createStore (S (S fuel))) (S (S fuel))).
    unfold createStore_body.
    change (nth 0 [VFun r; p; VFun e] VUndefined) with (VFun r).
    change (nth 1 [VFun r; p; VFun e] VUndefined) with p.
    change (nth 2 [VFun r; p; VFun e] VUndefined) with (VFun e).
    rewrite Hp. reflexivity.
  - intros ->. rewrite <- Happly. reflexivity.
  - repeat split.
Qed.
End Enhanced.

(** ** observable *)

Section ObservableFacts.
Variable fn : nat -> list Value -> prog Value.
Variable ActionTypes_REPLACE : string.

Local Abbreviation run := (run fn ActionTypes_REPLACE).

Lemma run_GetState fuel R (k : res Value -> prog R) w :
  run (S fuel) R (GetState k) w = run fuel R (k (getState w)) w.
Proof. reflexivity. Qed.

Lemma run_Subscribe fuel R listener (k : res nat -> prog R) w :
  run (S fuel) R (Subscribe listener k) w
  = run fuel R (k (fst (subscribe listener w))) (snd (subscribe listener w)).
Proof. simpl. destruct (subscribe listener w). reflexivity. Qed.

(** *** More fuel changes no outcome *)

Section Mono.
Variable exec1 exec2 : forall R : Type, prog R -> World -> option (res R * World).
Hypothesis exec_mono : forall R (p : prog R) w x,
  exec1 R p w = Some x -> exec2 R p w = Some x.

Lemma notify_mono : forall f1 f2 listeners i w x,
  f1 <= f2 ->
  notify fn exec1 f1 listeners i w = Some x ->
  notify fn exec2 f2 listeners i w = Some x.
Proof.
  induction f1 as [|f1 IH]; intros f2 listeners i w x Hle Hn; [discriminate|].
  destruct f2 as [|f2]; [lia|]. simpl in Hn |- *.
  destruct (Nat.ltb i (length (deref w listeners))); [|exact Hn].
  destruct (exec1 Value _ _) as [[r w1]|] eqn:He; [|discriminate].
  rewrite (exec_mono _ _ _ _ He).
  destruct r as [v|e]; [|exact Hn].
  apply (IH f2); [lia|exact Hn].
Qed.

Lemma dispatch_with_mono f1 f2 action w x :
  f1 <= f2 ->
  dispatch_with fn exec1 f1 action w = Some x ->
  dispatch_with fn exec2 f2 action w = Some x.
Proof.
  intros Hle. unfold dispatch_with.
  destruct (negb (isPlainObject action)); [auto|].
  destruct (is_undefined (get action "type")); [auto|].
  destruct (isDispatching w); [auto|].
  destruct (exec1 Value _ _) as [[r w2]|] eqn:He; [|discriminate].
  rewrite (exec_mono _ _ _ _ He).
  destruct r as [v|e]; [|auto].
  destruct (notify fn exec1 f1 _ 0 _) as [y|] eqn:Hn; [|discriminate].
  rewrite (notify_mono f1 f2 _ _ _ _ Hle Hn). auto.
Qed.

Lemma replaceReducer_with_mono f1 f2 nextReducer w x :
  f1 <= f2 ->
  replaceReducer_with fn ActionTypes_REPLACE exec1 f1 nextReducer w = Some x ->
  replaceReducer_with fn ActionTypes_REPLACE exec2 f2 nextReducer w = Some x.
Proof.
  intros Hle. unfold replaceReducer_with.
  destruct nextReducer; auto. simpl.
  destruct (dispatch_with fn exec1 f1 _ _) as [y|] eqn:Hd; [|discriminate].
  rewrite (dispatch_with_mono f1 f2 _ _ _ Hle Hd). auto.
Qed.
End Mono.

Lemma run_mono : forall n m R (p : prog R) w x,
  n <= m -> run n R p w = Some x -> run m R p w = Some x.
Proof.
  induction n as [|n IH]; intros m R p w x Hle Hrun; [discriminate|].
  destruct m as [|m]; [lia|].
  assert (n <= m) as Hle' by lia.
  destruct p as [y|e|k|l k|h k|a k|f k|args k]; simpl in Hrun |- *.
  - exact Hrun.
  - exact Hrun.
  - exact (IH m _ _ _ _ Hle' Hrun).
  - destruct (subscribe l w) as [r w']. exact (IH m _ _ _ _ Hle' Hrun).
  - destruct (unsubscribe h w) as [r w']. exact (IH m _ _ _ _ Hle' Hrun).
  - destruct (dispatch_with fn (run n) n a w) as [[r w']|] eqn:Hd;
      [|discriminate].
    rewrite (dispatch_with_mono (run n) (run m)
               (fun R p w x => IH m R p w x Hle') n m a w _ Hle' Hd).
    exact (IH m _ _ _ _ Hle' Hrun).
  - destruct (replaceReducer_with fn ActionTypes_REPLACE (run n) n f w)
      as [[r w']|] eqn:Hd; [|discriminate].
    rewrite (replaceReducer_with_mono (run n) (run m)
               (fun R p w x => IH m R p w x Hle') n m f w _ Hle' Hd).
    exact (IH m _ _ _ _ Hle' Hrun).
  - destruct (mw_dispatch w); exact (IH m _ _ _ _ Hle' Hrun).
Qed.

(** *** Running a program followed by another *)

Lemma followed_try_bind {A B : Type} (k : res A -> prog B) (p : prog A) :
  followed k p (try_bind p k).
Proof. induction p; simpl; constructor; assumption. Qed.

Lemma followed_prefix {A B C : Type} (k : res A -> prog B) (q : prog C) :
  forall k1 k2,
    (forall r, followed k (k1 r) (k2 r)) ->
    followed k (try_bind q k1) (try_bind q k2).
Proof.
  induction q as [y|e|kq IH|l kq IH|h kq IH|a kq IH|f kq IH|args kq IH];
    intros k1 k2 Hk; simpl; try apply Hk;
    constructor; intros r; apply IH; exact Hk.
Qed.

Lemma run_followed {A B : Type} (k : res A -> prog B) m x : forall n p p' w r w1,
  followed k p p' ->
  run n A p w = Some (r, w1) ->
  run m B (k r) w1 = Some x ->
  run (n + m) B p' w = Some x.
Proof.
  induction n as [|n IH]; intros p p' w r w1 Hf Hrun Hk; [discriminate|].
  revert Hrun.
  destruct Hf as [y|e|k1 k2 Hf|l k1 k2 Hf|h k1 k2 Hf|a k1 k2 Hf|f k1 k2 Hf
                 |args k1 k2 Hf]; intros Hrun.
  - simpl in Hrun. injection Hrun as <- <-.
    apply (run_mono m); [lia|exact Hk].
  - simpl in Hrun. injection Hrun as <- <-.
    apply (run_mono m); [lia|exact Hk].
  - simpl in Hrun |- *. exact (IH _ _ _ _ _ (Hf _) Hrun Hk).
  - simpl in Hrun |- *. destruct (subscribe l w) as [r' w'].
    exact (IH _ _ _ _ _ (Hf _) Hrun Hk).
  - simpl in Hrun |- *. destruct (unsubscribe h w) as [r' w'].
    exact (IH _ _ _ _ _ (Hf _) Hrun Hk).
  - simpl in Hrun |- *.
    destruct (dispatch_with fn (run n) n a w) as [[r' w']|] eqn:Hd;
      [|discriminate].
    rewrite (dispatch_with_mono (run n) (run (n + m))
               (fun R p w x => run_mono n (n + m) R p w x (Nat.le_add_r n m))
               n (n + m) a w _ (Nat.le_add_r n m) Hd).
    exact (IH _ _ _ _ _ (Hf _) Hrun Hk).
  - simpl in Hrun |- *.
    destruct (replaceReducer_with fn ActionTypes_REPLACE (run n) n f w)
      as [[r' w']|] eqn:Hd; [|discriminate].
    rewrite (replaceReducer_with_mono (run n) (run (n + m))
               (fun R p w x => run_mono n (n + m) R p w x (Nat.le_add_r n m))
               n (n + m) f w _ (Nat.le_add_r n m) Hd).
    exact (IH _ _ _ _ _ (Hf _) Hrun Hk).
  - simpl in Hrun |- *. destruct (mw_dispatch w) as [d|].
    + exact (IH _ _ _ _ _ (followed_prefix k (d args) k1 k2 Hf) Hrun Hk).
    + exact (IH _ _ _ _ _ (Hf _) Hrun Hk).
Qed.

(** The run of [p] followed by [k], from the run of [p] and that of [k]. *)
Lemma run_try_bind {A B : Type} (p : prog A) (k : res A -> prog B)
    n m w r w1 x :
  run n A p w = Some (r, w1) ->
  run m B (k r) w1 = Some x ->
  run (n + m) B (try_bind p k) w = Some x.
Proof. apply run_followed. apply followed_try_bind. Qed.

(** X16. The outcomes of the observable's [subscribe(observer)].  What is
    not an object, and null, is a TypeError before anything is done.  For
    an object: while the reducer runs the call throws, the error of
    getState when the observer has a next member and that of subscribe
    when it has none; on an idle store a next member that is not callable
    is a TypeError with nothing changed; a call of next, given the state,
    whose run ends in an error has that error thrown, in the world the run
    left and with observeState not subscribed; and when the run of next
    returns, whatever calls to the store it made, or when there is no
    next, observeState is subscribed as a listener, last in the pending
    sequence as it then stands, and its unsubscribe function is returned. *)
Theorem observable_subscribe_outcomes (o : nat) (observer : Value) w :
  ((typeof observer <> "object" \/ observer = VNull) ->
   observable_subscribe fn o observer = inl E_observer_not_object) /\
  (forall ob, observer = VObj ob ->
   exists body,
     observable_subscribe fn o observer = inr body /\
     (isDispatching w = true ->
      forall fuel,
        run (S (S fuel)) nat body w
        = Some (Err (if truthy (get observer "next")
                     then E_getState_while_dispatching
                     else E_subscribe_while_dispatching), w)) /\
     (isDispatching w = false ->
      truthy (get observer "next") = true ->
      typeof (get observer "next") <> "function" ->
      forall fuel,
        run (S (S fuel)) nat body w = Some (Err E_not_a_function, w)) /\
     (forall next n e w1,
        isDispatching w = false ->
        get observer "next" = VFun next ->
        run n Value (fn next [currentState w]) w = Some (Err e, w1) ->
        forall fuel, n + 3 <= fuel ->
          run fuel nat body w = Some (Err e, w1)) /\
     (isDispatching w = false -> valid_refs w ->
      truthy (get observer "next") = false ->
      exists w',
        subscribe (VFun o) w = (Ok (length (subscriptions w)), w') /\
        pending w' = pending w ++ [o] /\
        forall fuel,
          run (S (S fuel)) nat body w
          = Some (Ok (length (subscriptions w)), w')) /\
     (forall next n v w1,
        isDispatching w = false -> well_formed w ->
        get observer "next" = VFun next ->
        run n Value (fn next [currentState w]) w = Some (Ok v, w1) ->
        exists w',
          subscribe (VFun o) w1 = (Ok (length (subscriptions w1)), w') /\
          pending w' = pending w1 ++ [o] /\
          forall fuel, n + 4 <= fuel ->
            run fuel nat body w
            = Some (Ok (length (subscriptions w1)), w'))).
Proof.
  assert (forall w0, isDispatching w0 = false ->
            exists w', subscribe (VFun o) w0
                       = (Ok (length (subscriptions w0)), w')) as Hsub.
  { intros w0 Hd. unfold subscribe. rewrite Hd. eexists. f_equal. simpl.
    unfold ensureCanMutateNextListeners.
    destruct (Nat.eqb _ _); reflexivity. }
  split.
  - intros [Ht| ->]; [|reflexivity].
    destruct observer; try reflexivity; exfalso; apply Ht; reflexivity.
  - intros ob ->. eexists. split; [reflexivity|].
    unfold observeState.
    change (get (VObj ob) "next") with (obj_get ob "next").
    split; [|split; [|split; [|split]]].
    + intros Hd fuel.
      destruct (truthy (obj_get ob "next")).
      * simpl. unfold getState. rewrite Hd. reflexivity.
      * simpl. rewrite Hd. reflexivity.
    + intros Hd Ht Hnf fuel. rewrite Ht. simpl.
      unfold getState. rewrite Hd.
      destruct (obj_get ob "next"); try reflexivity.
      exfalso. apply Hnf. reflexivity.
    + intros next n e w1 Hd Hn Hrun fuel Hfuel.
      rewrite Hn. cbn [truthy]. unfold bind at 1. cbn [try_bind].
      apply (run_mono (S (n + 1 + 1))); [lia|].
      rewrite run_GetState. unfold getState. rewrite Hd.
      eapply run_try_bind;
        [unfold bind; eapply run_try_bind; [exact Hrun|reflexivity]
        |reflexivity].
    + intros Hd Hv Hf.
      destruct (Hsub w Hd) as [w' Hs].
      exists w'. split; [exact Hs|].
      split; [exact (proj1 (subscribe_sequences o w _ w' Hv Hs))|].
      intros fuel. rewrite Hf. unfold bind. cbn [try_bind].
      rewrite run_Subscribe, Hs. reflexivity.
    + intros next n v w1 Hd Hwf Hn Hrun.
      pose proof (run_keeps_flag fn ActionTypes_REPLACE n Value _ w _ w1 Hrun)
        as Hd1.
      rewrite Hd in Hd1.
      destruct (run_keeps_well_formed fn ActionTypes_REPLACE n Value _ w _ w1
                  Hwf Hrun) as [[Hv1 _] _].
      destruct (Hsub w1 Hd1) as [w' Hs].
      exists w'. split; [exact Hs|].
      split; [exact (proj1 (subscribe_sequences o w1 _ w' Hv1 Hs))|].
      intros fuel Hfuel.
      rewrite Hn. cbn [truthy]. unfold bind at 1. cbn [try_bind].
      apply (run_mono (S (n + 1 + 2))); [lia|].
      rewrite run_GetState. unfold getState. rewrite Hd.
      eapply run_try_bind.
      * unfold bind. eapply run_try_bind; [exact Hrun|reflexivity].
      * cbn beta iota. rewrite run_Subscribe, Hs. reflexivity.
Qed.
End ObservableFacts.

(** ** The arrays over a round *)

Lemma untouched_wrote w w1 w2 :
  untouched w w1 -> wrote w1 w2 -> wrote w w2.
Proof.
  intros (Ha & Hn & Hc) (Hal & Hlen & Hc2 & Hcl2 & Hv2).
  assert (aliased w1 = aliased w) as Hal1 by (unfold aliased; congruence).
  split; [exact Hal|].
  split; [rewrite Hlen, Hal1, Ha; reflexivity|]. split; [congruence|].
  split; [|exact Hv2].
  rewrite Hcl2. unfold committed_listeners, deref. congruence.
Qed.

Lemma wrote_untouched w w1 w2 :
  wrote w w1 -> untouched w1 w2 -> wrote w w2.
Proof.
  intros (Hal & Hlen & Hc1 & Hcl1 & [Hvn Hvc]) (Ha & Hn & Hc).
  split; [unfold aliased in *; congruence|].
  split; [rewrite Ha; exact Hlen|]. split; [congruence|].
  split; [|unfold valid_refs; rewrite Ha, Hn, Hc; split; assumption].
  rewrite <- Hcl1. unfold committed_listeners, deref. congruence.
Qed.

Lemma wrote_wrote w w1 w2 : wrote w w1 -> wrote w1 w2 -> wrote w w2.
Proof.
  intros (Ha1 & Hl1 & Hc1 & Hcl1 & _) (Ha2 & Hl2 & Hc2 & Hcl2 & Hv2).
  rewrite Ha1 in Hl2.
  split; [exact Ha2|]. split; [lia|]. split; [congruence|].
  split; [congruence|exact Hv2].
Qed.

Lemma untouched_trans w w1 w2 :
  untouched w w1 -> untouched w1 w2 -> untouched w w2.
Proof.
  intros (Ha & Hn & Hc) (Ha' & Hn' & Hc'). repeat split; congruence.
Qed.

Lemma touched_trans w w1 w2 :
  untouched w w1 \/ wrote w w1 -> untouched w1 w2 \/ wrote w1 w2 ->
  untouched w w2 \/ wrote w w2.
Proof.
  intros [H1|H1] [H2|H2].
  - left. exact (untouched_trans _ _ _ H1 H2).
  - right. exact (untouched_wrote _ _ _ H1 H2).
  - right. exact (wrote_untouched _ _ _ H1 H2).
  - right. exact (wrote_wrote _ _ _ H1 H2).
Qed.

(** Where nextListeners refers after a write: to the copy, which is the
    newest array, if the variables were on the same array, and where it
    referred before if not. *)
Lemma ensure_next w :
  nextListeners (ensureCanMutateNextListeners w)
  = if aliased w then length (arrays w) else nextListeners w.
Proof.
  unfold aliased.
  destruct (ensure_cases w) as [[Heq ->]|[Hne ->]].
  - rewrite Heq, Nat.eqb_refl. reflexivity.
  - apply Nat.eqb_neq in Hne. rewrite Hne. reflexivity.
Qed.

Lemma subscribe_moved listener w r w' :
  valid_refs w -> subscribe listener w = (r, w') ->
  w' = w \/
  (wrote w w' /\
   nextListeners w' = if aliased w then length (arrays w) else nextListeners w).
Proof.
  intros Hv Hs.
  destruct (subscribe_copy listener w r w' Hv Hs) as [->|Hw]; [left; reflexivity|].
  right. split; [exact Hw|].
  unfold subscribe in Hs.
  destruct listener;
    try (injection Hs as _ <-; destruct Hw as (Ha & _);
         rewrite Ha; reflexivity).
  destruct (isDispatching w).
  - injection Hs as _ <-. destruct Hw as (Ha & _). rewrite Ha. reflexivity.
  - injection Hs as _ <-. simpl. apply ensure_next.
Qed.

Lemma unsubscribe_moved handle w r w' :
  valid_refs w -> unsubscribe handle w = (r, w') ->
  w' = w \/
  (wrote w w' /\
   nextListeners w' = if aliased w then length (arrays w) else nextListeners w).
Proof.
  intros Hv Hu.
  destruct (unsubscribe_copy handle w r w' Hv Hu) as [->|Hw];
    [left; reflexivity|].
  right. split; [exact Hw|].
  unfold unsubscribe in Hu.
  destruct (subscriptions w !! handle) as [[l [|]]|]; simpl in Hu.
  - destruct (isDispatching w).
    + injection Hu as _ <-. destruct Hw as (Ha & _). rewrite Ha. reflexivity.
    + injection Hu as _ <-. simpl.
      exact (ensure_next
               (set_subscriptions (<[handle:=(l, false)]> (subscriptions w)) w)).
  - injection Hu as _ <-. destruct Hw as (Ha & _). rewrite Ha. reflexivity.
  - injection Hu as _ <-. destruct Hw as (Ha & _). rewrite Ha. reflexivity.
Qed.

Lemma moved_trans w w1 w2 :
  untouched w w1 \/
  (wrote w w1 /\
   nextListeners w1 = if aliased w then length (arrays w) else nextListeners w) ->
  untouched w1 w2 \/
  (wrote w1 w2 /\
   nextListeners w2
   = if aliased w1 then length (arrays w1) else nextListeners w1) ->
  untouched w w2 \/
  (wrote w w2 /\
   nextListeners w2 = if aliased w then length (arrays w) else nextListeners w).
Proof.
  intros [H1|[H1 N1]] [H2|[H2 N2]].
  - left. exact (untouched_trans _ _ _ H1 H2).
  - right. split; [exact (untouched_wrote _ _ _ H1 H2)|].
    destruct H1 as (Ha & Hn & Hc).
    assert (aliased w1 = aliased w) as Hal by (unfold aliased; congruence).
    rewrite N2, Hal, Ha, Hn. reflexivity.
  - right. split; [exact (wrote_untouched _ _ _ H1 H2)|].
    destruct H2 as (_ & Hn & _). rewrite Hn. exact N1.
  - right. split; [exact (wrote_wrote _ _ _ H1 H2)|].
    destruct H1 as (Hal & _). rewrite N2, Hal. exact N1.
Qed.

Section RoundArrays.
Variable fn : nat -> list Value -> prog Value.
Variable ActionTypes_REPLACE : string.
Hypothesis quiet_listeners : forall l, quiet (fn l []).

Local Abbreviation run := (run fn ActionTypes_REPLACE).
Local Abbreviation dispatch := (dispatch fn ActionTypes_REPLACE).

Lemma run_quiet_moved fuel : forall R (p : prog R) w out w',
  quiet p -> valid_refs w ->
  run fuel R p w = Some (out, w') ->
  (untouched w w' \/
   (wrote w w' /\
    nextListeners w' = if aliased w then length (arrays w) else nextListeners w))
  /\ valid_refs w'.
Proof.
  assert (forall x, untouched x x) as Hrefl by (intros x; repeat split).
  induction fuel as [|fuel IH]; intros R p w out w' Hq Hv Hrun;
    [discriminate|].
  destruct Hq as [x|e|k Hk|l k Hk|h k Hk]; simpl in Hrun.
  - injection Hrun as _ <-. split; [left; apply Hrefl|exact Hv].
  - injection Hrun as _ <-. split; [left; apply Hrefl|exact Hv].
  - exact (IH _ _ _ _ _ (Hk _) Hv Hrun).
  - destruct (subscribe l w) as [r w1] eqn:Hs.
    pose proof (subscribe_moved _ _ _ _ Hv Hs) as H1.
    assert (valid_refs w1) as Hv1.
    { destruct H1 as [->|[H1 _]]; [exact Hv|apply H1]. }
    destruct (IH _ _ _ _ _ (Hk r) Hv1 Hrun) as [H2 Hv'].
    split; [|exact Hv'].
    refine (moved_trans w w1 w' _ H2).
    destruct H1 as [->|H1]; [left; apply Hrefl|right; exact H1].
  - destruct (unsubscribe h w) as [r w1] eqn:Hs.
    pose proof (unsubscribe_moved _ _ _ _ Hv Hs) as H1.
    assert (valid_refs w1) as Hv1.
    { destruct H1 as [->|[H1 _]]; [exact Hv|apply H1]. }
    destruct (IH _ _ _ _ _ (Hk r) Hv1 Hrun) as [H2 Hv'].
    split; [|exact Hv'].
    refine (moved_trans w w1 w' _ H2).
    destruct H1 as [->|H1]; [left; apply Hrefl|right; exact H1].
Qed.

Lemma invoke_snapshot_quiet_arrays m n : forall snapshot w out w',
  valid_refs w ->
  invoke_snapshot fn (run m) n snapshot w = Some (out, w') ->
  (untouched w w' \/
   (wrote w w' /\
    nextListeners w' = if aliased w then length (arrays w) else nextListeners w))
  /\ valid_refs w'.
Proof.
  induction n as [|n IH]; intros snapshot w out w' Hv Hloop; [discriminate|].
  destruct snapshot as [|l rest]; simpl in Hloop.
  - injection Hloop as _ <-. split; [left; repeat split|exact Hv].
  - set (w0 := set_invoked (invoked w ++ [l]) w) in *.
    assert (untouched w w0) as H0 by (repeat split).
    destruct (run m Value (fn l []) w0) as [[[v|e] w1]|] eqn:Hrun;
      [| |discriminate].
    + destruct (run_quiet_moved m Value _ w0 _ w1 (quiet_listeners l) Hv Hrun)
        as [H1 Hv1].
      destruct (IH rest w1 out w' Hv1 Hloop) as [H2 Hv'].
      split; [|exact Hv'].
      exact (moved_trans w w1 w' (moved_trans w w0 w1 (or_introl H0) H1) H2).
    + injection Hloop as _ <-.
      destruct (run_quiet_moved m Value _ w0 _ w1 (quiet_listeners l) Hv Hrun)
        as [H1 Hv1].
      split; [|exact Hv1].
      exact (moved_trans w w0 w1 (or_introl H0) H1).
Qed.

(** X17. A round over listeners that only read the state, subscribe and
    unsubscribe: when dispatch returns, currentListeners refers to the
    array nextListeners referred to when dispatch was called, and that
    array still holds the sequence it held then.  Either no listener
    subscribed or unsubscribed, no array was made and the two variables
    share that array; or the round made exactly one new array, which
    nextListeners refers to and the pending sequence has to itself. *)
Theorem round_commits_pending fuel action w x w' :
  valid_refs w ->
  dispatch fuel action w = Some (Ok x, w') ->
  currentListeners w' = nextListeners w /\
  committed_listeners w' = pending w /\
  ((nextListeners w' = currentListeners w' /\ arrays w' = arrays w) \/
   (nextListeners w' <> currentListeners w' /\
    length (arrays w') = S (length (arrays w)) /\
    nextListeners w' = length (arrays w))).
Proof.
  intros Hv Hd.
  rewrite (dispatch_is_dispatch_snapshot fn ActionTypes_REPLACE fuel action w
             (proj1 Hv)) in Hd.
  unfold dispatch_snapshot in Hd.
  destruct (negb (isPlainObject action)); [discriminate|].
  destruct (is_undefined (get action "type")); [discriminate|].
  destruct (isDispatching w) eqn:Hidle; [discriminate|].
  destruct (run fuel Value _ (set_isDispatching true w))
    as [[[v|e] w2]|] eqn:Hred; [|discriminate|discriminate].
  destruct (run_dispatching_frame fn ActionTypes_REPLACE fuel Value _
              (set_isDispatching true w) _ w2 eq_refl Hred)
    as (_ & Hcl & Hnl & _ & Harr & _).
  simpl in Hcl, Hnl, Harr.
  set (w4 := committed action v w2) in *.
  assert (valid_refs w4) as Hv4.
  { destruct Hv as [Hn Hc]. split; simpl; rewrite Harr, Hnl; exact Hn. }
  destruct (invoke_snapshot fn (run fuel) fuel (pending w) w4)
    as [[[u|e] w5]|] eqn:Hloop; [|discriminate|discriminate].
  injection Hd as _ <-.
  destruct (invoke_snapshot_quiet_arrays fuel fuel (pending w) w4 (Ok u) w5
              Hv4 Hloop) as [Ht _].
  assert (currentListeners w4 = nextListeners w) as Hc4 by exact Hnl.
  assert (committed_listeners w4 = pending w) as Hcl4.
  { unfold committed_listeners, pending, deref. simpl. congruence. }
  assert (aliased w4 = true) as Hal4.
  { unfold aliased. simpl. apply Nat.eqb_refl. }
  assert (arrays w4 = arrays w) as Harr4 by exact Harr.
  destruct Ht as [(Ha & Hn & Hc)|[(Hal & Hlen & Hc & Hcl5 & _) Hnext]].
  - split; [congruence|].
    split; [unfold committed_listeners, deref in *; congruence|].
    left. split; [|congruence].
    rewrite Hn, Hc. reflexivity.
  - split; [congruence|]. split; [congruence|].
    right. split; [apply Nat.eqb_neq; exact Hal|].
    rewrite Hal4 in Hlen, Hnext.
    split; [rewrite Hlen, Harr4; lia|rewrite Hnext, Harr4; reflexivity].
Qed.
End RoundArrays.

(** ** The order in which the chain is composed *)

(** X18. [compose(...chain)(store.dispatch)] calls the functions the
    middleware returned from the last to the first: the last is given
    store.dispatch, each other one what the function after it returned,
    and an error ends the composition.  With no middleware the result is
    store.dispatch itself. *)
Theorem compose_chain_order (chain : list Interceptor) (next : DispatchFn) :
  compose_chain chain next = fold_right (fun i p => bind p i) (Ret next) chain /\
  compose_chain [] next = Ret next /\
  (forall i1 i2 i3,
     compose_chain [i1; i2; i3] next = bind (bind (i3 next) i2) i1).
Proof.
  assert (forall c, compose_chain c next
                    = fold_right (fun i p => bind p i) (Ret next) c) as H.
  { intros c. unfold compose_chain. rewrite compose_singleton_arg.
    induction c as [|i c IH]; [reflexivity|].
    simpl. rewrite IH. reflexivity. }
  split; [apply H|]. split; [reflexivity|].
  intros i1 i2 i3. rewrite H. reflexivity.
Qed.

(** ** The further properties applied to the concrete consumer *)

Lemma example_store1_well_formed : well_formed Example.store1.
Proof. split; [split; simpl; lia|]. intros l. reflexivity. Qed.

Lemma example_three_listeners_valid : valid_refs Example.three_listeners.
Proof. split; simpl; lia. Qed.

Lemma applyMiddleware_layers_witness :
  applyMiddleware Example.fn Example.REPLACE 1 [Example.thunk]
    (createStore Example.fn Example.INIT Example.REPLACE Example.enhancers 3)
    [VFun 1] Example.nothing
  = Some (Ok (with_dispatch base_store
                (fun args =>
                   match arg0 args with
                   | VFun _ => ApiDispatch [Example.inc] finish
                   | _ => so_dispatch base_store args
                   end)),
          set_mw_dispatch
            (Some (fun args =>
                     match arg0 args with
                     | VFun _ => ApiDispatch [Example.inc] finish
                     | _ => so_dispatch base_store args
                     end)) Example.store1).
Proof.
  exact (proj1 (applyMiddleware_layers Example.fn Example.REPLACE 0
                  [fun api (next : DispatchFn) (args : list Value) =>
                     match arg0 args with
                     | VFun _ => api_dispatch api [Example.inc]
                     | _ => next args
                     end]
                  (createStore Example.fn Example.INIT Example.REPLACE
                     Example.enhancers 3)
                  [VFun 1] Example.nothing base_store Example.store1
                  example_store1)).
Defined.

Lemma applyMiddleware_failure_witness :
  applyMiddleware Example.fn Example.REPLACE 5 [Example.thunk]
    (createStore Example.fn Example.INIT Example.REPLACE Example.enhancers 3)
    [VNum 0] Example.nothing
  = Some (Err E_reducer_not_function, Example.nothing) /\
  applyMiddleware Example.fn Example.REPLACE 5 [Example.eager; Example.thunk]
    (createStore Example.fn Example.INIT Example.REPLACE Example.enhancers 3)
    [VFun 1] Example.nothing
  = Some (Err E_dispatch_while_constructing,
          set_mw_dispatch (Some placeholder_dispatch) Example.store1).
Proof.
  split.
  - apply (proj1 (applyMiddleware_failure Example.fn Example.REPLACE 5
                    (createStore Example.fn Example.INIT Example.REPLACE
                       Example.enhancers 3)
                    [VNum 0] Example.nothing)).
    reflexivity.
  - refine (proj1 (proj2 (applyMiddleware_failure Example.fn Example.REPLACE 5
                            (createStore Example.fn Example.INIT Example.REPLACE
                               Example.enhancers 3)
                            [VFun 1] Example.nothing)
                     base_store Example.store1 [] []
                     (set_mw_dispatch (Some placeholder_dispatch) Example.store1)
                     Example.eager E_dispatch_while_constructing
                     (set_mw_dispatch (Some placeholder_dispatch) Example.store1)
                     [Example.thunk] example_store1 eq_refl _)).
    vm_compute. reflexivity.
Defined.

Lemma replaceReducer_edges_witness :
  replaceReducer Example.fn Example.REPLACE 6 (VNum 3) Example.store1
  = Some (Err E_nextReducer_not_function, Example.store1) /\
  exists w',
    replaceReducer Example.fn Example.REPLACE 6 (VFun 2)
      (set_isDispatching true Example.store1)
    = Some (Err E_reducers_may_not_dispatch, w') /\
    currentReducer w' = 2 /\
    same_but_reducer (set_isDispatching true Example.store1) w'.
Proof.
  split.
  - apply (proj1 (replaceReducer_edges Example.fn Example.REPLACE 6 (VNum 3)
                    Example.store1)).
    discriminate.
  - exact (proj2 (proj2 (replaceReducer_edges Example.fn Example.REPLACE 6
                           (VFun 2) (set_isDispatching true Example.store1)))
             2 eq_refl eq_refl).
Defined.

Lemma replaceReducer_swaps_witness :
  exists n out w',
    forall m, n <= m ->
      replaceReducer Example.fn Example.REPLACE m (VFun 1) Example.subscribed
      = Some (out, w').
Proof.
  exact (proj1 (replaceReducer_swaps Example.fn Example.REPLACE 1
                  Example.counter (fun s a => eq_refl)
                  example_listeners_quiet Example.subscribed
                  example_subscribed_well_formed eq_refl)).
Defined.

Lemma createStore_rejects_witness :
  createStore Example.fn Example.INIT Example.REPLACE Example.enhancers 3
    [VFun 1; VNum 0; VNum 5] Example.nothing
  = Some (Err E_enhancer_not_function, Example.nothing) /\
  createStore Example.fn Example.INIT Example.REPLACE Example.enhancers 3
    [VNum 3] Example.nothing
  = Some (Err E_reducer_not_function, Example.nothing).
Proof.
  split.
  - exact (proj1 (createStore_rejects Example.fn Example.INIT Example.REPLACE
                    Example.enhancers 2 [VFun 1; VNum 0; VNum 5]
                    Example.nothing) eq_refl eq_refl).
  - exact (proj1 (proj2 (createStore_rejects Example.fn Example.INIT
                           Example.REPLACE Example.enhancers 2 [VNum 3]
                           Example.nothing)) eq_refl eq_refl eq_refl).
Defined.

Lemma createStore_result_witness :
  exists w0,
    createStore Example.fn Example.INIT Example.REPLACE Example.enhancers 3
      [VFun 2; VUndefined] Example.nothing = Some (Ok base_store, w0) /\
    getState w0 = Ok (VNum 0) /\
    dispatched w0 = [Example.action 100 Example.INIT] /\
    isDispatching w0 = false /\
    pending w0 = [] /\ committed_listeners w0 = [] /\
    subscriptions w0 = [] /\ invoked w0 = [] /\
    mw_dispatch w0 = mw_dispatch Example.nothing.
Proof.
  refine (proj1 (proj2 (createStore_result Example.fn Example.INIT
                          Example.REPLACE Example.enhancers 2 2 VUndefined
                          Example.nothing eq_refl))
            (VNum 0)
            (set_isDispatching true
               (set_next_addr 101 (fresh_store 2 VUndefined Example.nothing)))
            _).
  vm_compute. reflexivity.
Defined.

Lemma subscribe_outcomes_witness :
  ((Err E_listener_not_function : res nat) = Err E_listener_not_function /\
   set_isDispatching true Example.store1 = set_isDispatching true Example.store1) /\
  exists l, VFun 10 = VFun l /\
            Ok 0 = Ok (length (subscriptions Example.store1)) /\
            subscriptions Example.store1
              !! length (subscriptions Example.store1) = None /\
            subscriptions Example.subscribed
            = subscriptions Example.store1 ++ [(l, true)].
Proof.
  split.
  - apply (proj1 (subscribe_outcomes (VNum 1)
                    (set_isDispatching true Example.store1)
                    (Err E_listener_not_function)
                    (set_isDispatching true Example.store1) eq_refl)).
    discriminate.
  - exact (proj1 (proj2 (proj2 (subscribe_outcomes (VFun 10) Example.store1
                                  (Ok 0) Example.subscribed eq_refl)))
             eq_refl eq_refl).
Defined.

Lemma subscribe_then_unsubscribe_witness :
  exists w2,
    unsubscribe 0 Example.subscribed = (Ok tt, w2) /\
    pending w2 = remove_first 10 (pending Example.store1 ++ [10]) /\
    (10 ∉ pending Example.store1 -> pending w2 = pending Example.store1) /\
    (forall l', count_occ Nat.eq_dec (pending w2) l'
                = count_occ Nat.eq_dec (pending Example.store1) l') /\
    committed_listeners w2 = committed_listeners Example.store1 /\
    subscriptions w2 = subscriptions Example.store1 ++ [(10, false)] /\
    unsubscribe 0 w2 = (Ok tt, w2) /\
    well_formed w2.
Proof.
  exact (subscribe_then_unsubscribe 10 Example.store1 0 Example.subscribed
           example_store1_well_formed eq_refl).
Defined.

Lemma listeners_copied_once_witness :
  currentListeners Example.subscribed = currentListeners Example.store1 /\
  committed_listeners Example.subscribed = committed_listeners Example.store1 /\
  length (arrays Example.store1) <= length (arrays Example.subscribed)
    <= S (length (arrays Example.store1)) /\
  (nextListeners Example.store1 <> currentListeners Example.store1 ->
   length (arrays Example.subscribed) = length (arrays Example.store1)) /\
  (pending Example.subscribed <> pending Example.store1 ->
   nextListeners Example.subscribed <> currentListeners Example.subscribed).
Proof.
  apply (listeners_copied_once Example.fn Example.REPLACE 2 unit
           (Subscribe (VFun 10) (fun _ => Ret tt)) Example.store1 (Ok tt)
           Example.subscribed).
  - repeat (constructor; intros).
  - exact (proj1 example_store1_well_formed).
  - reflexivity.
Defined.

Lemma listener_error_keeps_transition_witness :
  exists w4,
    dispatch Example.fn3 Example.REPLACE 3 Example.inc Example.three_listeners
    = Some (Err (E_user (VStr "listener")), w4) /\
    isDispatching w4 = false /\
    currentState w4 = VNum 1 /\
    dispatched w4 = dispatched Example.three_listeners ++ [Example.inc] /\
    invoked w4 = invoked Example.three_listeners ++ [11] ++ [13].
Proof.
  pose (w2 := set_isDispatching true Example.three_listeners).
  pose (wc := committed Example.inc (VNum 1) w2).
  pose (w3 := set_invoked (invoked wc ++ [11]) wc).
  pose (w4 := set_invoked (invoked w3 ++ [13]) w3).
  destruct (listener_error_keeps_transition Example.fn3 Example.REPLACE 3
              Example.inc Example.three_listeners (VNum 1) w2 [11] 13 [14]
              w3 (E_user (VStr "listener")) w4
              example_three_listeners_valid eq_refl eq_refl eq_refl eq_refl)
    as (H1 & H2 & _ & H4).
  - vm_compute. reflexivity.
  - vm_compute. reflexivity.
  - vm_compute. reflexivity.
  - eexists. split; [exact H1|]. split; [exact H2|].
    apply H4. intros x.
    do 14 (destruct x as [|x]; [repeat (constructor; intros)|]).
    constructor.
Defined.

Lemma unsubscribe_finds_listener_witness :
  (indexOf 5 [1; 2; 3] = (-1)%Z /\
   splice1 (indexOf 5 [1; 2; 3]) [1; 2; 3] = removelast [1; 2; 3]) /\
  exists i,
    indexOf 10 (pending Example.subscribed) = Z.of_nat i /\
    pending Example.subscribed !! i = Some 10 /\
    (forall j, j < i -> pending Example.subscribed !! j <> Some 10) /\
    splice1 (indexOf 10 (pending Example.subscribed)) (pending Example.subscribed)
    = delete i (pending Example.subscribed).
Proof.
  split.
  - apply (proj1 (unsubscribe_finds_listener Example.fn Example.INIT
                    Example.REPLACE Example.enhancers) 5 [1; 2; 3]).
    intros Hin. repeat (apply elem_of_cons in Hin as [Hin|Hin];
                        [discriminate|]).
    inversion Hin.
  - apply (proj2 (unsubscribe_finds_listener Example.fn Example.INIT
                    Example.REPLACE Example.enhancers)
             2 1 VUndefined Example.nothing base_store Example.store1
             2 unit (Subscribe (VFun 10) (fun _ => Ret tt)) (Ok tt)
             Example.subscribed 0 10).
    + reflexivity.
    + vm_compute. reflexivity.
    + reflexivity.
    + reflexivity.
Defined.

Lemma state_changes_only_by_dispatch_witness :
  (exists acts,
     dispatched Example.after_nested = dispatched Example.store1 ++ acts) /\
  (exists ls, invoked Example.after_nested = invoked Example.store1 ++ ls) /\
  next_addr Example.store1 <= next_addr Example.after_nested /\
  (dispatched Example.after_nested = dispatched Example.store1 ->
   currentState Example.after_nested = currentState Example.store1).
Proof.
  exact (state_changes_only_by_dispatch Example.fn2 Example.REPLACE 10 Value
           Example.nested_session Example.store1 (Ok Example.inc)
           Example.after_nested example_after_nested).
Defined.

Lemma createStore_with_middleware_witness :
  exists w',
    createStore Example.fn Example.INIT Example.REPLACE Example.enhancers2 5
      [VFun 1; VNum 7; VFun 20] Example.nothing
    = Some (Ok (with_dispatch base_store
                  (layered (middlewareAPI_of base_store)
                     [fun api (next : DispatchFn) (args : list Value) =>
                        match arg0 args with
                        | VFun _ => api_dispatch api [Example.inc]
                        | _ => next args
                        end]
                     (so_dispatch base_store))), w') /\
    getState w' = Ok (VNum 7) /\
    dispatched w' = [Example.action 100 Example.INIT] /\
    pending w' = [].
Proof.
  destruct (createStore_with_middleware Example.fn Example.INIT Example.REPLACE
              Example.enhancers2 Example.counter 1 (fun s a => eq_refl)
              2 0 20 _ (VNum 7) Example.nothing eq_refl eq_refl)
    as (w' & H1 & _ & H3 & H4 & H5 & _).
  exists w'. exact (conj H1 (conj H3 (conj H4 H5))).
Defined.

Lemma observable_subscribe_outcomes_witness :
  observable_subscribe Example.fn 30 (VNum 1) = inl E_observer_not_object /\
  (exists body,
     observable_subscribe Example.fn 30 Example.observer = inr body /\
     run Example.fn Example.REPLACE 2 nat body
       (set_isDispatching true Example.store1)
     = Some (Err E_getState_while_dispatching,
             set_isDispatching true Example.store1)) /\
  (exists body w',
     observable_subscribe Example.fn 30 Example.observer2 = inr body /\
     run Example.fn Example.REPLACE 7 nat body Example.store1
     = Some (Ok 1, w') /\
     pending w' = [30]).
Proof.
  split; [|split].
  - apply (proj1 (observable_subscribe_outcomes Example.fn Example.REPLACE 30
                    (VNum 1) Example.store1)).
    left. discriminate.
  - destruct (proj2 (observable_subscribe_outcomes Example.fn Example.REPLACE
                       30 Example.observer
                       (set_isDispatching true Example.store1))
                (mkObj 50 [("next", VFun 11)] (Some Object_prototype)) eq_refl)
      as (body & Hb & Hd & _).
    exists body. split; [exact Hb|]. exact (Hd eq_refl 0).
  - destruct (proj2 (observable_subscribe_outcomes Example.fn Example.REPLACE
                       30 Example.observer2 Example.store1)
                (mkObj 51 [("next", VFun 10)] (Some Object_prototype)) eq_refl)
      as (body & Hb & _ & _ & _ & _ & Hret).
    pose (w1 := snd (unsubscribe 0 (snd (subscribe (VFun 11) Example.store1)))).
    assert (run Example.fn Example.REPLACE 3 Value
              (Example.fn 10 [currentState Example.store1]) Example.store1
            = Some (Ok VUndefined, w1)) as Hnext.
    { vm_compute. reflexivity. }
    destruct (Hret 10 3 VUndefined w1 eq_refl example_store1_well_formed
                eq_refl Hnext) as (w' & _ & Hp & Hrun).
    exists body, w'. split; [exact Hb|].
    split; [exact (Hrun 7 (le_n 7))|exact Hp].
Defined.

Lemma round_commits_pending_witness :
  currentListeners Example.after_round = nextListeners Example.subscribed /\
  committed_listeners Example.after_round = pending Example.subscribed /\
  ((nextListeners Example.after_round = currentListeners Example.after_round /\
    arrays Example.after_round = arrays Example.subscribed) \/
   (nextListeners Example.after_round <> currentListeners Example.after_round /\
    length (arrays Example.after_round)
    = S (length (arrays Example.subscribed)) /\
    nextListeners Example.after_round = length (arrays Example.subscribed))).
Proof.
  exact (round_commits_pending Example.fn Example.REPLACE
           example_listeners_quiet 6 Example.inc Example.subscribed
           Example.inc Example.after_round
           (proj1 example_subscribed_well_formed) example_after_round).
Defined.
